(** * DMEDIA social trends: the trend pipeline of [services/gemini.ts],
      the analysis cache of [AnalysisModal] and the refresh logic of [App]

    The development embeds the TypeScript sources as Rocq functions.

    Conventions of the embedding
    - a JS [string] is a [string] of the Standard Library holding the UTF-8
      bytes of the text; [String.prototype.includes] is a search for a
      contiguous run of bytes, which agrees with the search on code units
      for valid Unicode text;
    - a JS [number] is exact: [Z] where the program counts (ranks, token
      counters, scores, floors), [Q] where it scales (heat values, random
      fractions); rounding, [NaN] and the infinities of IEEE doubles are
      outside the model;
    - values that come from [JSON.parse] or from an HTTP body carry the types
      the TypeScript interfaces give them; bodies of another shape are
      outside the model;
    - [localStorage] is a finite map from strings to strings without a
      quota;
    - an [async] function is a computation in the monad [Eff]: it reads and
      updates the [World] and settles in [Ok v] or [Throw e]; [await] is
      sequencing, [try]/[catch] is [tryCatch];
    - what the outside answers (HTTP replies, random draws) is part of the
      [World], consumed in the order the program asks. *)

From Stdlib Require Import ZArith QArith Qround Lqa String Ascii List Lia Bool.
From Stdlib Require Import DecimalString DecimalPos DecimalZ DecimalFacts.
From stdpp Require Import gmap strings list.

Import ListNotations.
Local Open Scope string_scope.
Local Open Scope list_scope.
Local Open Scope nat_scope.

(** ** The host language *)

Module JS.

(** [includes s k] is [s.includes(k)]. *)
Fixpoint includes (s k : string) : bool :=
  if String.prefix k s then true
  else match s with
       | EmptyString => false
       | String _ s' => includes s' k
       end.

(** Truthiness, as [if (x)], [!x] and [x || d] test it. *)
Definition truthyString (s : string) : bool :=
  match s with EmptyString => false | String _ _ => true end.

Definition truthyOptString (o : option string) : bool :=
  match o with Some s => truthyString s | None => false end.

Definition truthyQ (x : Q) : bool := negb (Qeq_bool x 0).

Definition truthyZ (x : Z) : bool := negb (Z.eqb x 0).

(** What a [throw] carries. [Error m] is [new Error(m)] of the program;
    [TypeError] and [SyntaxError] are raised by the runtime (a rejected
    [fetch], a property of [undefined], [JSON.parse]) with messages of the
    engine's own. *)
Inductive exn : Type :=
| Error (message : string)
| TypeError
| SyntaxError.

(** [error.message === "MISSING_API_KEY"] *)
Definition isMissingKey (error : exn) : bool :=
  match error with
  | Error message => String.eqb message "MISSING_API_KEY"
  | TypeError | SyntaxError => false
  end.

Inductive result (A : Type) : Type :=
| Ok (value : A)
| Throw (error : exn).

Arguments Ok {A} value.
Arguments Throw {A} error.

End JS.

Export JS.

(** ** The data model of [types.ts] *)

Record TrendItem : Type := {
  rank : Z;
  title : string;
  hotValue : Q;
  category : string;
  heatRise : option Z;
  description : option string
}.

Record GeneDimension : Type := {
  label : string;
  analysis : string
}.

Record GeneMapAnalysis : Type := {
  viralityScore : Z;
  sentiment : GeneDimension;
  domain : GeneDimension;
  contentForm : GeneDimension;
  lifecycle : GeneDimension;
  keywords : list string
}.

Module BigEvent.
Record t : Type := {
  title : string;
  reason : string;
  durationLabel : string
}.
End BigEvent.

Record Usage : Type := {
  total_tokens : Z;
  prompt_tokens : Z;
  completion_tokens : Z
}.

Record AIResponse (T : Type) : Type := {
  data : T;
  usage : option Usage
}.

Arguments data {T} _.
Arguments usage {T} _.

(** The exported list [CATEGORIES]. *)
Definition CATEGORIES : list string :=
  ["社会民生"; "娱乐精选"; "科技数码"; "时尚生活"; "情感日常"; "兴趣垂类"].

(** ** The outside world *)

(** One entry of [word_list], as the trend sources send it. *)
Record RawEntry : Type := {
  word : string;
  hot_value : option Q;
  position : option Z
}.

(** What a trend source answers to [fetch(proxyUrl)] followed by
    [response.json()]. *)
Inductive SourceReply : Type :=
| SourceFetchRejects
| SourceNotOk
| SourceBodyInvalid
| SourceWithoutList
| SourceWordList (word_list : list RawEntry).

(** What the chat-completion service answers to the POST of
    [callDeepSeek]: the request is rejected; the status is not ok and the
    body carries [error.message] or not; the body of an ok reply is not
    JSON; reading [errorData.error] or [data.choices[0].message] raises;
    or the reply carries a content and possibly a usage object. *)
Inductive ChatReply : Type :=
| ChatFetchRejects
| ChatNotOk (errorMessage : option string) (statusText : string)
| ChatBodyInvalid
| ChatShapeError
| ChatContent (content : string) (usage : option Usage).

Record World : Type := {
  localStorage : gmap string string;
  randoms : nat -> Q;
  primaryReplies : nat -> SourceReply;
  backupReplies : nat -> SourceReply;
  chatReplies : nat -> ChatReply;
  chatRequests : nat
}.

(** [randoms w 0] is the value the next call of [Math.random()] returns,
    and so on for the replies; [chatRequests] counts the requests sent to
    the chat service. *)

Definition withStorage (f : gmap string string -> gmap string string) (w : World) : World :=
  {| localStorage := f (localStorage w);
     randoms := randoms w;
     primaryReplies := primaryReplies w;
     backupReplies := backupReplies w;
     chatReplies := chatReplies w;
     chatRequests := chatRequests w |}.

Definition shift {A : Type} (s : nat -> A) : nat -> A := fun n => s (S n).

(** ** Computations *)

Definition Eff (A : Type) : Type := World -> result A * World.

Definition ret {A : Type} (a : A) : Eff A := fun w => (Ok a, w).

Definition throw {A : Type} (e : exn) : Eff A := fun w => (Throw e, w).

Definition bind {A B : Type} (m : Eff A) (k : A -> Eff B) : Eff B :=
  fun w =>
    match m w with
    | (Ok a, w') => k a w'
    | (Throw e, w') => (Throw e, w')
    end.

Definition tryCatch {A : Type} (body : Eff A) (handler : exn -> Eff A) : Eff A :=
  fun w =>
    match body w with
    | (Ok a, w') => (Ok a, w')
    | (Throw e, w') => handler e w'
    end.

Notation "'let*' x ':=' m 'in' k" := (bind m (fun x => k))
  (at level 10, x pattern, m at level 100, k at level 200).

(** [Math.random()] *)
Definition Math_random : Eff Q :=
  fun w =>
    (Ok (randoms w 0),
     {| localStorage := localStorage w;
        randoms := shift (randoms w);
        primaryReplies := primaryReplies w;
        backupReplies := backupReplies w;
        chatReplies := chatReplies w;
        chatRequests := chatRequests w |}).

Definition fetchPrimary : Eff SourceReply :=
  fun w =>
    (Ok (primaryReplies w 0),
     {| localStorage := localStorage w;
        randoms := randoms w;
        primaryReplies := shift (primaryReplies w);
        backupReplies := backupReplies w;
        chatReplies := chatReplies w;
        chatRequests := chatRequests w |}).

Definition fetchBackup : Eff SourceReply :=
  fun w =>
    (Ok (backupReplies w 0),
     {| localStorage := localStorage w;
        randoms := randoms w;
        primaryReplies := primaryReplies w;
        backupReplies := shift (backupReplies w);
        chatReplies := chatReplies w;
        chatRequests := chatRequests w |}).

Definition fetchChat : Eff ChatReply :=
  fun w =>
    (Ok (chatReplies w 0),
     {| localStorage := localStorage w;
        randoms := randoms w;
        primaryReplies := primaryReplies w;
        backupReplies := backupReplies w;
        chatReplies := shift (chatReplies w);
        chatRequests := S (chatRequests w) |}).

Module Storage.

Definition getItem (key : string) : Eff (option string) :=
  fun w => (Ok (localStorage w !! key), w).

Definition setItem (key value : string) : Eff unit :=
  fun w => (Ok tt, withStorage (insert key value) w).

Definition removeItem (key : string) : Eff unit :=
  fun w => (Ok tt, withStorage (delete key) w).

End Storage.

(** [Array.prototype.map] with a callback that has effects: the callback
    runs on the elements in order, with their index. *)
Fixpoint Array_map {A B : Type} (f : A -> nat -> Eff B) (l : list A) (index : nat)
  : Eff (list B) :=
  match l with
  | [] => ret []
  | x :: l' =>
      let* y := f x index in
      let* ys := Array_map f l' (S index) in
      ret (y :: ys)
  end.

(** [JSON.parse] and [JSON.stringify], seen through the types the program
    casts their values to. [None] is the [SyntaxError] of [JSON.parse]. *)
Record Json : Type := {
  parseAnalysis : string -> option GeneMapAnalysis;
  stringifyAnalysis : GeneMapAnalysis -> string;
  parseEvents : string -> option (option (list BigEvent.t));
  parseTrends : string -> option (option (list TrendItem))
}.

(** [parseEvents] and [parseTrends] give the member [events], respectively
    [trends], of the parsed object, [None] when the object has no such
    member. *)

Definition JSON_parse {T : Type} (parser : string -> option T) (text : string) : Eff T :=
  match parser text with
  | Some v => ret v
  | None => throw SyntaxError
  end.

(** ** [services/gemini.ts] *)

Definition API_KEY_STORAGE_KEY : string := "deepseek_api_key".

Definition getApiKey : Eff (option string) :=
  Storage.getItem API_KEY_STORAGE_KEY.

Definition setApiKey (key : string) : Eff unit :=
  Storage.setItem API_KEY_STORAGE_KEY key.

(** The prompts only influence what the service answers, which the
    [World] supplies; they are not arguments of the model. *)
Definition callDeepSeek : Eff (string * option Usage) :=
  let* apiKey := getApiKey in
  if negb (truthyOptString apiKey) then throw (Error "MISSING_API_KEY")
  else
    let* response := fetchChat in
    match response with
    | ChatFetchRejects => throw TypeError
    | ChatNotOk errorMessage statusText =>
        throw (Error (if truthyOptString errorMessage
                      then default EmptyString errorMessage
                      else "DeepSeek API Error: " +:+ statusText))
    | ChatBodyInvalid => throw SyntaxError
    | ChatShapeError => throw TypeError
    | ChatContent content usage => ret (content, usage)
    end.

(** [calculateHeatRise] *)
Definition calculateHeatRise (totalHotValue : Q) : Eff Z :=
  let* r := Math_random in
  let percentage := (r * 0.07 + 0.01)%Q in
  ret (Qfloor (totalHotValue * percentage)).

Definition KEYWORD_MAP : list (string * list string) :=
  [ ("娱乐精选", ["剧"; "电影"; "明星"; "演员"; "综艺"; "演唱会"; "歌"; "舞"; "网红"; "直播"; "游戏"; "电竞"; "王者"; "原神"; "吃鸡"; "笑"; "梗"; "瓜"; "爆料"; "前任"; "现任"]);
    ("社会民生", ["新闻"; "事件"; "回应"; "官方"; "通报"; "政策"; "经济"; "股市"; "基金"; "工资"; "招聘"; "工作"; "职场"; "教育"; "学校"; "考试"; "历史"; "文化"; "农业"; "农村"]);
    ("科技数码", ["AI"; "人工智能"; "手机"; "苹果"; "华为"; "小米"; "电脑"; "汽车"; "新能源"; "驾驶"; "航天"; "科学"; "技术"; "发明"; "未来"]);
    ("时尚生活", ["穿搭"; "妆"; "护肤"; "口红"; "包包"; "奢侈品"; "装修"; "家居"; "设计"; "改造"; "旅游"; "景点"; "打卡"; "拍照"; "摄影"]);
    ("情感日常", ["猫"; "狗"; "宠"; "娃"; "宝宝"; "老公"; "老婆"; "男友"; "女友"; "恋爱"; "分手"; "结婚"; "离婚"; "Vlog"; "日常"; "记录"; "感人"; "泪目"]);
    ("兴趣垂类", ["吃"; "美食"; "菜"; "饭"; "烹饪"; "健身"; "减肥"; "运动"; "瑜伽"; "跑步"; "养生"; "健康"; "病"; "医"]) ].

(** The inner loop of [determineCategory]: [score += 1] for every keyword
    the title includes. *)
Definition scoreOf (title : string) (keywords : list string) : nat :=
  fold_left (fun score keyword =>
               if includes title keyword then score + 1 else score)
            keywords 0.

(** The outer loop over [Object.entries(KEYWORD_MAP)], on the pair
    [(maxScore, bestCategory)]. *)
Definition scanEntries (title : string)
    (entries : list (string * list string)) (init : nat * string) : nat * string :=
  fold_left (fun st entry =>
               let score := scoreOf title (snd entry) in
               if fst st <? score then (score, fst entry) else st)
            entries init.

Definition determineCategory (title : string) : string :=
  snd (scanEntries title KEYWORD_MAP (0, "社会民生")).

(** [item.hot_value || 0] *)
Definition hotValueOf (item : RawEntry) : Q :=
  match hot_value item with
  | Some v => if truthyQ v then v else 0%Q
  | None => 0%Q
  end.

(** [item.position && item.position > 0 ? item.position : index + 1] *)
Definition rankOf (item : RawEntry) (index : nat) : Z :=
  match position item with
  | Some p => if truthyZ p && (0 <? p)%Z then p else (Z.of_nat index + 1)%Z
  | None => (Z.of_nat index + 1)%Z
  end.

Definition parseDouyinData (list_ : list RawEntry) : Eff (list TrendItem) :=
  let* items :=
    Array_map (fun item index =>
                 let hotValue := hotValueOf item in
                 let rank := rankOf item index in
                 let title := word item in
                 let category := determineCategory title in
                 let* heatRise := calculateHeatRise hotValue in
                 ret {| rank := rank;
                        title := title;
                        hotValue := hotValue;
                        category := category;
                        heatRise := Some heatRise;
                        description := Some EmptyString |})
              list_ 0 in
  ret (take 51 items).

Definition placeholderTrends : list TrendItem :=
  [ {| rank := 1; title := "获取数据失败 - 请检查网络"; hotValue := 0;
       category := "社会民生"; heatRise := Some 0%Z;
       description := Some "无法连接到抖音 API 且 DeepSeek 未配置" |};
    {| rank := 2; title := "DeepSeek API 连接失败"; hotValue := 12500000;
       category := "科技数码"; heatRise := Some 890000%Z;
       description := Some "请在设置中配置您的 DeepSeek API Key 以启用模拟数据。" |} ].

Definition fetchSimulatedTrends (J : Json) : Eff (list TrendItem) :=
  tryCatch
    (let* result := callDeepSeek in
     let* parsed := JSON_parse (parseTrends J) (fst result) in
     Array_map (fun t _ =>
                  let* h := calculateHeatRise (hotValue t) in
                  ret {| rank := rank t;
                         title := title t;
                         hotValue := hotValue t;
                         category := category t;
                         heatRise := Some h;
                         description := description t |})
               (default [] parsed) 0)
    (fun error => ret placeholderTrends).

(** The [try] block of the primary source. *)
Definition primaryAttempt : Eff (list TrendItem) :=
  let* response := fetchPrimary in
  match response with
  | SourceFetchRejects => throw TypeError
  | SourceNotOk => throw (Error "Primary API network error")
  | SourceBodyInvalid => throw SyntaxError
  | SourceWithoutList => throw (Error "Primary API invalid format")
  | SourceWordList word_list => parseDouyinData word_list
  end.

(** The [try] block of the backup source; [None] when it ends without a
    [return]. *)
Definition backupAttempt : Eff (option (list TrendItem)) :=
  let* response := fetchBackup in
  match response with
  | SourceFetchRejects => throw TypeError
  | SourceNotOk => throw (Error "Backup API network error")
  | SourceBodyInvalid => throw SyntaxError
  | SourceWithoutList => ret None
  | SourceWordList word_list =>
      let* items := parseDouyinData word_list in
      ret (Some items)
  end.

Definition fetchTrends (J : Json) : Eff (list TrendItem) :=
  tryCatch primaryAttempt
    (fun primaryError =>
       let* returned := tryCatch backupAttempt (fun backupError => ret None) in
       match returned with
       | Some items => ret items
       | None => fetchSimulatedTrends J
       end).

(** The body of the [try] block the three analysis operations share:
    [callDeepSeek], then [JSON.parse] of the content. *)
Definition completion {T : Type} (parser : string -> option T) : Eff (AIResponse T) :=
  let* result := callDeepSeek in
  let* parsed := JSON_parse parser (fst result) in
  ret {| data := parsed; usage := snd result |}.

Definition unavailable : GeneDimension :=
  {| label := "未知"; analysis := "分析服务暂不可用" |}.

(** The record [analyzeTrendWithAI] returns from its [catch]. *)
Definition fallbackAnalysis : GeneMapAnalysis :=
  {| viralityScore := 0;
     sentiment := unavailable;
     domain := unavailable;
     contentForm := unavailable;
     lifecycle := unavailable;
     keywords := ["错误"; "配置"; "API"] |}.

Definition analyzeTrendWithAI (J : Json) (trendTitle : string)
  : Eff (AIResponse GeneMapAnalysis) :=
  tryCatch (completion (parseAnalysis J))
    (fun error =>
       if isMissingKey error then throw error
       else ret {| data := fallbackAnalysis; usage := None |}).

Definition analyzeGlobalTrends (J : Json) (trends : list TrendItem)
  : Eff (AIResponse GeneMapAnalysis) :=
  tryCatch (completion (parseAnalysis J))
    (fun error =>
       if isMissingKey error then throw error
       else throw (Error "Analysis failed")).

Definition identifyBigEvents (J : Json) (trends : list TrendItem)
  : Eff (AIResponse (option (list BigEvent.t))) :=
  tryCatch (completion (parseEvents J))
    (fun error =>
       if isMissingKey error then throw error
       else ret {| data := Some []; usage := None |}).

(** ** [components/AnalysisModal.tsx] *)

Module AnalysisModal.

(** The three [useState] cells of the component. *)
Record State : Type := {
  analysis : option GeneMapAnalysis;
  loading : bool;
  error : option string
}.

Definition cacheKey (title : string) : string := "analysis_cache_" +:+ title.

(** Step 1 of the effect, "Try Cache": [localStorage.getItem(cacheKey)],
    the test [if (cachedData)], [JSON.parse] under [try], and
    [localStorage.removeItem(cacheKey)] in the [catch]. This is the [get]
    of the analysis cache. *)
Definition cacheGet (J : Json) (title : string) : Eff (option GeneMapAnalysis) :=
  let* cachedData := Storage.getItem (cacheKey title) in
  if truthyOptString cachedData then
    tryCatch
      (let* parsed := JSON_parse (parseAnalysis J) (default EmptyString cachedData) in
       ret (Some parsed))
      (fun e =>
         let* _ := Storage.removeItem (cacheKey title) in
         ret None)
  else ret None.

(** "Save to cache":
    [localStorage.setItem(cacheKey, JSON.stringify(response.data))], the
    [put] of the analysis cache. *)
Definition cachePut (J : Json) (title : string) (a : GeneMapAnalysis) : Eff unit :=
  Storage.setItem (cacheKey title) (stringifyAnalysis J a).

(** The effect that runs when [trend] changes, together with the handlers
    of its promise, run to the end without another effect in between. *)
Definition effect (J : Json) (trend : option TrendItem) (st : State) : Eff State :=
  match trend with
  | None => ret st
  | Some trend =>
      let* hit := cacheGet J (title trend) in
      match hit with
      | Some parsed =>
          ret {| analysis := Some parsed; loading := false; error := None |}
      | None =>
          tryCatch
            (let* response := analyzeTrendWithAI J (title trend) in
             let* _ := cachePut J (title trend) (data response) in
             ret {| analysis := Some (data response); loading := false; error := None |})
            (fun err =>
               ret {| analysis := None;
                      loading := false;
                      error := Some (if isMissingKey err then "MISSING_KEY"
                                     else "DeepSeek 目前不可用") |})
      end
  end.

End AnalysisModal.

(** ** [App.tsx] *)

(** [Promise.all([p1, p2])]: both computations are started, in this order;
    the join fulfils when both do and rejects when one does. When both
    reject, the rejection that comes first in time wins, which
    [secondRejectsFirst] tells. *)
Definition Promise_all2 {A B : Type} (p1 : Eff A) (p2 : Eff B)
    (secondRejectsFirst : bool) : Eff (A * B) :=
  fun w =>
    let (r1, w1) := p1 w in
    let (r2, w2) := p2 w1 in
    (match r1, r2 with
     | Ok a, Ok b => Ok (a, b)
     | Throw e, Ok _ => Throw e
     | Ok _, Throw e => Throw e
     | Throw e1, Throw e2 => Throw (if secondRejectsFirst then e2 else e1)
     end, w2).

Module App.

(** The [useState] cells the two handlers touch, and the messages shown
    with [alert]. The progress bar and its interval are left out. *)
Record State : Type := {
  trends : list TrendItem;
  loading : bool;
  refreshing : bool;
  globalAnalysis : option GeneMapAnalysis;
  bigEvents : list BigEvent.t;
  analyzingGlobal : bool;
  tokenUsage : Z;
  showKeyUpdatePrompt : bool;
  alerts : list string
}.

Definition initial : State :=
  {| trends := []; loading := true; refreshing := false;
     globalAnalysis := None; bigEvents := []; analyzingGlobal := false;
     tokenUsage := 0; showKeyUpdatePrompt := false; alerts := [] |}.

Definition setTrends (v : list TrendItem) (s : State) : State :=
  {| trends := v; loading := loading s; refreshing := refreshing s;
     globalAnalysis := globalAnalysis s; bigEvents := bigEvents s;
     analyzingGlobal := analyzingGlobal s; tokenUsage := tokenUsage s;
     showKeyUpdatePrompt := showKeyUpdatePrompt s; alerts := alerts s |}.

Definition setLoading (v : bool) (s : State) : State :=
  {| trends := trends s; loading := v; refreshing := refreshing s;
     globalAnalysis := globalAnalysis s; bigEvents := bigEvents s;
     analyzingGlobal := analyzingGlobal s; tokenUsage := tokenUsage s;
     showKeyUpdatePrompt := showKeyUpdatePrompt s; alerts := alerts s |}.

Definition setRefreshing (v : bool) (s : State) : State :=
  {| trends := trends s; loading := loading s; refreshing := v;
     globalAnalysis := globalAnalysis s; bigEvents := bigEvents s;
     analyzingGlobal := analyzingGlobal s; tokenUsage := tokenUsage s;
     showKeyUpdatePrompt := showKeyUpdatePrompt s; alerts := alerts s |}.

Definition setGlobalAnalysis (v : option GeneMapAnalysis) (s : State) : State :=
  {| trends := trends s; loading := loading s; refreshing := refreshing s;
     globalAnalysis := v; bigEvents := bigEvents s;
     analyzingGlobal := analyzingGlobal s; tokenUsage := tokenUsage s;
     showKeyUpdatePrompt := showKeyUpdatePrompt s; alerts := alerts s |}.

Definition setBigEvents (v : list BigEvent.t) (s : State) : State :=
  {| trends := trends s; loading := loading s; refreshing := refreshing s;
     globalAnalysis := globalAnalysis s; bigEvents := v;
     analyzingGlobal := analyzingGlobal s; tokenUsage := tokenUsage s;
     showKeyUpdatePrompt := showKeyUpdatePrompt s; alerts := alerts s |}.

Definition setAnalyzingGlobal (v : bool) (s : State) : State :=
  {| trends := trends s; loading := loading s; refreshing := refreshing s;
     globalAnalysis := globalAnalysis s; bigEvents := bigEvents s;
     analyzingGlobal := v; tokenUsage := tokenUsage s;
     showKeyUpdatePrompt := showKeyUpdatePrompt s; alerts := alerts s |}.

Definition setTokenUsage (v : Z) (s : State) : State :=
  {| trends := trends s; loading := loading s; refreshing := refreshing s;
     globalAnalysis := globalAnalysis s; bigEvents := bigEvents s;
     analyzingGlobal := analyzingGlobal s; tokenUsage := v;
     showKeyUpdatePrompt := showKeyUpdatePrompt s; alerts := alerts s |}.

Definition setShowKeyUpdatePrompt (v : bool) (s : State) : State :=
  {| trends := trends s; loading := loading s; refreshing := refreshing s;
     globalAnalysis := globalAnalysis s; bigEvents := bigEvents s;
     analyzingGlobal := analyzingGlobal s; tokenUsage := tokenUsage s;
     showKeyUpdatePrompt := v; alerts := alerts s |}.

Definition alert (message : string) (s : State) : State :=
  {| trends := trends s; loading := loading s; refreshing := refreshing s;
     globalAnalysis := globalAnalysis s; bigEvents := bigEvents s;
     analyzingGlobal := analyzingGlobal s; tokenUsage := tokenUsage s;
     showKeyUpdatePrompt := showKeyUpdatePrompt s;
     alerts := alerts s ++ [message] |}.

(** [loadTrends] from its call to its [await]. The function is a closure of
    one render of [App]: [refreshing_seen] is the constant [refreshing] of
    that render, while the setters act on the current state [s]. The
    boolean tells whether [fetchTrends()] is called. *)
Definition loadTrends_call (refreshing_seen showSkeleton : bool) (s : State)
  : State * bool :=
  if refreshing_seen then (s, false)
  else
    let s := setRefreshing true s in
    let s := if showSkeleton then setLoading true s else s in
    (s, true).

(** [loadTrends] after its [await]: the rest of [try], [catch] and
    [finally]. *)
Definition loadTrends_resume (fetched : result (list TrendItem)) (s : State) : State :=
  let s := match fetched with
           | Ok data => setTrends data s
           | Throw e => s
           end in
  setRefreshing false (setLoading false s).

(** [loadTrends] when nothing else runs during its [await]. *)
Definition loadTrends (J : Json) (refreshing_seen showSkeleton : bool) (s : State)
  : Eff State :=
  let (s1, called) := loadTrends_call refreshing_seen showSkeleton s in
  if called then
    fun w => let (fetched, w') := fetchTrends J w in
             (Ok (loadTrends_resume fetched s1), w')
  else ret s1.

(** The component at run time: the current state, the number of calls of
    [loadTrends] suspended at their [await], and the number of calls of
    [fetchTrends] made so far. *)
Record Runtime : Type := {
  state : State;
  inFlight : nat;
  fetchCalls : nat
}.

Definition mounted : Runtime :=
  {| state := initial; inFlight := 0; fetchCalls := 0 |}.

(** What happens to the component. [Mount] runs the effect that calls
    [loadTrends(true)]; [TimerTick] is the callback of [setInterval], set up
    by an effect with an empty dependency list, hence a closure of the first
    render; [ClickRefresh] is [onClick] of the refresh button, a closure of
    the latest render, on a button that is [disabled] while [refreshing];
    [FetchSettles] resumes the oldest suspended call. *)
Inductive Event : Type :=
| Mount
| TimerTick
| ClickRefresh
| FetchSettles (fetched : result (list TrendItem)).

Definition invoke (refreshing_seen showSkeleton : bool) (rt : Runtime) : Runtime :=
  let (s, called) := loadTrends_call refreshing_seen showSkeleton (state rt) in
  {| state := s;
     inFlight := if called then S (inFlight rt) else inFlight rt;
     fetchCalls := if called then S (fetchCalls rt) else fetchCalls rt |}.

Definition step (rt : Runtime) (e : Event) : Runtime :=
  match e with
  | Mount => invoke (refreshing initial) true rt
  | TimerTick => invoke (refreshing initial) false rt
  | ClickRefresh =>
      if refreshing (state rt) then rt
      else invoke (refreshing (state rt)) false rt
  | FetchSettles fetched =>
      match inFlight rt with
      | O => rt
      | S n => {| state := loadTrends_resume fetched (state rt);
                  inFlight := n;
                  fetchCalls := fetchCalls rt |}
      end
  end.

Definition run (events : list Event) (rt : Runtime) : Runtime :=
  fold_left step events rt.

(** [usage?.total_tokens || 0] *)
Definition totalTokensOrZero (u : option Usage) : Z :=
  match u with
  | Some u => if truthyZ (total_tokens u) then total_tokens u else 0%Z
  | None => 0%Z
  end.

Definition handleRunGlobalAnalysis (J : Json) (secondRejectsFirst : bool) (s : State)
  : Eff State :=
  match trends s with
  | [] => ret s
  | _ :: _ =>
      let s := setAnalyzingGlobal true s in
      let s := setGlobalAnalysis None s in
      let s := setBigEvents [] s in
      let s := setShowKeyUpdatePrompt false s in
      tryCatch
        (let* results :=
           Promise_all2 (analyzeGlobalTrends J (trends s))
                        (identifyBigEvents J (trends s))
                        secondRejectsFirst in
         let analysisResult := fst results in
         let eventsResult := snd results in
         let s := setGlobalAnalysis (Some (data analysisResult)) s in
         let s := setBigEvents (default [] (data eventsResult)) s in
         let s := setTokenUsage (totalTokensOrZero (usage analysisResult)
                                 + totalTokensOrZero (usage eventsResult))%Z s in
         ret (setAnalyzingGlobal false s))
        (fun e =>
           let s := alert "分析失败，请检查 API Key 或网络连接" s in
           ret (setAnalyzingGlobal false s))
  end.

End App.

(** ** A concrete [JSON]

    An executable reading of [JSON.parse] and of [JSON.stringify] on
    analysis records, on which the program above can be run. The theorems
    below hold for every [Json]; they are instantiated with this one.
    Numbers are read without rounding. A text that is JSON but not of the
    shape the cast expects is read as [None] here; what the program does
    with such a value is outside the model. *)

Module JsonText.

#[warnings="-register-all"]
Inductive value : Type :=
| Null
| Bool (b : bool)
| Number (q : Q)
| Str (s : string)
| Arr (elements : list value)
| Obj (members : list (string * value)).

Definition quote : ascii := "034"%char.
Definition backslash : ascii := "092"%char.

Definition isWhitespace (c : ascii) : bool :=
  let n := N_of_ascii c in
  (n =? 32)%N || (n =? 9)%N || (n =? 10)%N || (n =? 13)%N.

Fixpoint skipWs (s : string) : string :=
  match s with
  | String c rest => if isWhitespace c then skipWs rest else s
  | EmptyString => s
  end.

Definition digitOf (c : ascii) : option (Decimal.uint -> Decimal.uint) :=
  match c with
  | "0"%char => Some Decimal.D0
  | "1"%char => Some Decimal.D1
  | "2"%char => Some Decimal.D2
  | "3"%char => Some Decimal.D3
  | "4"%char => Some Decimal.D4
  | "5"%char => Some Decimal.D5
  | "6"%char => Some Decimal.D6
  | "7"%char => Some Decimal.D7
  | "8"%char => Some Decimal.D8
  | "9"%char => Some Decimal.D9
  | _ => None
  end.

Definition hexOf (c : ascii) : option N :=
  let n := N_of_ascii c in
  if (48 <=? n)%N && (n <=? 57)%N then Some (n - 48)%N
  else if (97 <=? n)%N && (n <=? 102)%N then Some (n - 87)%N
  else if (65 <=? n)%N && (n <=? 70)%N then Some (n - 55)%N
  else None.

Definition hex4 (a b c d : ascii) : option N :=
  match hexOf a, hexOf b, hexOf c, hexOf d with
  | Some x, Some y, Some z, Some t => Some (((x * 16 + y) * 16 + z) * 16 + t)%N
  | _, _, _, _ => None
  end.

Definition byte (n : N) : string := String (ascii_of_N n) EmptyString.

(** The UTF-8 bytes of a code point. *)
Definition utf8 (cp : N) : string :=
  if (cp <? 128)%N then byte cp
  else if (cp <? 2048)%N then
    byte (192 + cp / 64) +:+ byte (128 + cp mod 64)
  else if (cp <? 65536)%N then
    byte (224 + cp / 4096) +:+ byte (128 + (cp / 64) mod 64) +:+ byte (128 + cp mod 64)
  else
    byte (240 + cp / 262144) +:+ byte (128 + (cp / 4096) mod 64)
    +:+ byte (128 + (cp / 64) mod 64) +:+ byte (128 + cp mod 64).

Definition isHighSurrogate (u : N) : bool := (55296 <=? u)%N && (u <? 56320)%N.
Definition isLowSurrogate (u : N) : bool := (56320 <=? u)%N && (u <? 57344)%N.

(** The character a two-character escape stands for. *)
Definition simpleEscape (e : ascii) : option ascii :=
  let n := N_of_ascii e in
  if (n =? 34)%N then Some quote
  else if (n =? 92)%N then Some backslash
  else if (n =? 47)%N then Some "/"%char
  else if (n =? 98)%N then Some "008"%char
  else if (n =? 102)%N then Some "012"%char
  else if (n =? 110)%N then Some "010"%char
  else if (n =? 114)%N then Some "013"%char
  else if (n =? 116)%N then Some "009"%char
  else None.

Definition prepend (p : string) (r : option (string * string)) : option (string * string) :=
  match r with
  | Some (body, rest) => Some (p +:+ body, rest)
  | None => None
  end.

(** The characters of a string literal, after its opening quote. *)
Fixpoint readChars (s : string) : option (string * string) :=
  match s with
  | EmptyString => None
  | String c rest =>
      if Ascii.eqb c quote then Some (EmptyString, rest)
      else if Ascii.eqb c backslash then
        match rest with
        | String e rest1 =>
            if Ascii.eqb e "u"%char then
              match rest1 with
              | String h1 (String h2 (String h3 (String h4 rest2))) =>
                  match hex4 h1 h2 h3 h4 with
                  | Some u =>
                      if isHighSurrogate u then
                        match rest2 with
                        | String b (String v (String l1 (String l2 (String l3 (String l4 rest3))))) =>
                            if Ascii.eqb b backslash && Ascii.eqb v "u"%char then
                              match hex4 l1 l2 l3 l4 with
                              | Some lo =>
                                  if isLowSurrogate lo then
                                    prepend (utf8 (65536 + (u - 55296) * 1024 + (lo - 56320))%N)
                                            (readChars rest3)
                                  else None
                              | None => None
                              end
                            else None
                        | _ => None
                        end
                      else if isLowSurrogate u then None
                      else prepend (utf8 u) (readChars rest2)
                  | None => None
                  end
              | _ => None
              end
            else
              match simpleEscape e with
              | Some ch => prepend (String ch EmptyString) (readChars rest1)
              | None => None
              end
        | EmptyString => None
        end
      else if (N_of_ascii c <? 32)%N then None
      else prepend (String c EmptyString) (readChars rest)
  end.

(** The longest run of digits at the head of a text. *)
Fixpoint readDigits (s : string) : Decimal.uint * string :=
  match s with
  | String c rest =>
      match digitOf c with
      | Some digit => let (u, r) := readDigits rest in (digit u, r)
      | None => (Decimal.Nil, s)
      end
  | EmptyString => (Decimal.Nil, s)
  end.

(** The integer part: [0], or a digit from 1 to 9 and more digits. *)
Definition readInt (s : string) : option (Z * string) :=
  match readDigits s with
  | (Decimal.Nil, _) => None
  | (Decimal.D0 Decimal.Nil, rest) => Some (0%Z, rest)
  | (Decimal.D0 _, _) => None
  | (u, rest) => Some (Z.of_uint u, rest)
  end.

Definition readFraction (s : string) : option (Q * string) :=
  match s with
  | String "."%char rest =>
      match readDigits rest with
      | (Decimal.Nil, _) => None
      | (u, rest') =>
          Some ((inject_Z (Z.of_uint u)
                 / inject_Z (10 ^ Z.of_nat (Decimal.nb_digits u)))%Q, rest')
      end
  | _ => Some (0%Q, s)
  end.

Definition readExponentDigits (negative : bool) (s : string) : option (Z * string) :=
  match readDigits s with
  | (Decimal.Nil, _) => None
  | (u, rest) => Some (if negative then (- Z.of_uint u)%Z else Z.of_uint u, rest)
  end.

Definition readExponent (s : string) : option (Z * string) :=
  match s with
  | String c rest =>
      if Ascii.eqb c "e"%char || Ascii.eqb c "E"%char then
        match rest with
        | String "-"%char rest' => readExponentDigits true rest'
        | String "+"%char rest' => readExponentDigits false rest'
        | _ => readExponentDigits false rest
        end
      else Some (0%Z, s)
  | EmptyString => Some (0%Z, s)
  end.

Definition readUnsigned (s : string) : option (Q * string) :=
  match readInt s with
  | Some (n, rest) =>
      match readFraction rest with
      | Some (f, rest1) =>
          match readExponent rest1 with
          | Some (e, rest2) => Some (((inject_Z n + f) * Qpower 10 e)%Q, rest2)
          | None => None
          end
      | None => None
      end
  | None => None
  end.

Definition readNumber (s : string) : option (Q * string) :=
  match s with
  | String "-"%char rest =>
      match readUnsigned rest with
      | Some (q, rest') => Some ((- q)%Q, rest')
      | None => None
      end
  | _ => readUnsigned s
  end.

Definition dropPrefix (p s : string) : option string :=
  if String.prefix p s
  then Some (String.substring (String.length p) (String.length s - String.length p) s)
  else None.

Section Values.

(** The parser of a value, one level of nesting down. *)
Variable parseInner : string -> option (value * string).

(** The elements of an array, after [[] or [,]. *)
Fixpoint parseElements (fuel : nat) (s : string) : option (list value * string) :=
  match fuel with
  | O => None
  | S fuel' =>
      match parseInner s with
      | Some (v, rest) =>
          match skipWs rest with
          | String ","%char rest' =>
              match parseElements fuel' rest' with
              | Some (vs, r) => Some (v :: vs, r)
              | None => None
              end
          | String "]"%char rest' => Some ([v], rest')
          | _ => None
          end
      | None => None
      end
  end.

(** The members of an object, after [{] or [,]. *)
Fixpoint parseMembers (fuel : nat) (s : string) : option (list (string * value) * string) :=
  match fuel with
  | O => None
  | S fuel' =>
      match skipWs s with
      | String c rest =>
          if Ascii.eqb c quote then
            match readChars rest with
            | Some (key, rest1) =>
                match skipWs rest1 with
                | String ":"%char rest2 =>
                    match parseInner rest2 with
                    | Some (v, rest3) =>
                        match skipWs rest3 with
                        | String ","%char rest4 =>
                            match parseMembers fuel' rest4 with
                            | Some (ms, r) => Some ((key, v) :: ms, r)
                            | None => None
                            end
                        | String "}"%char rest4 => Some ([(key, v)], rest4)
                        | _ => None
                        end
                    | None => None
                    end
                | _ => None
                end
            | None => None
            end
          else None
      | EmptyString => None
      end
  end.

End Values.

Fixpoint parseValue (fuel : nat) (s : string) : option (value * string) :=
  match fuel with
  | O => None
  | S fuel' =>
      match skipWs s with
      | EmptyString => None
      | String c rest as s' =>
          if Ascii.eqb c quote then
            match readChars rest with
            | Some (body, r) => Some (Str body, r)
            | None => None
            end
          else if Ascii.eqb c "["%char then
            match skipWs rest with
            | String "]"%char r => Some (Arr [], r)
            | _ =>
                match parseElements (parseValue fuel') fuel' rest with
                | Some (vs, r) => Some (Arr vs, r)
                | None => None
                end
            end
          else if Ascii.eqb c "{"%char then
            match skipWs rest with
            | String "}"%char r => Some (Obj [], r)
            | _ =>
                match parseMembers (parseValue fuel') fuel' rest with
                | Some (ms, r) => Some (Obj ms, r)
                | None => None
                end
            end
          else if Ascii.eqb c "n"%char then
            match dropPrefix "null" s' with
            | Some r => Some (Null, r)
            | None => None
            end
          else if Ascii.eqb c "t"%char then
            match dropPrefix "true" s' with
            | Some r => Some (Bool true, r)
            | None => None
            end
          else if Ascii.eqb c "f"%char then
            match dropPrefix "false" s' with
            | Some r => Some (Bool false, r)
            | None => None
            end
          else
            match readNumber s' with
            | Some (q, r) => Some (Number q, r)
            | None => None
            end
      end
  end.

(** [JSON.parse(text)], [None] for its [SyntaxError]. *)
Definition parse (text : string) : option value :=
  match parseValue (S (String.length text)) text with
  | Some (v, rest) =>
      match skipWs rest with
      | EmptyString => Some v
      | String _ _ => None
      end
  | None => None
  end.

(** *** Reading typed records off a parsed value *)

(** [o[key]]; of members with the same name the last one counts. *)
Fixpoint member (key : string) (members : list (string * value)) : option value :=
  match members with
  | [] => None
  | (k, v) :: rest =>
      match member key rest with
      | Some v' => Some v'
      | None => if String.eqb key k then Some v else None
      end
  end.

Definition field (key : string) (v : value) : option value :=
  match v with
  | Obj members => member key members
  | _ => None
  end.

Definition asString (v : value) : option string :=
  match v with Str s => Some s | _ => None end.

Definition asNumber (v : value) : option Q :=
  match v with Number q => Some q | _ => None end.

Definition asInteger (v : value) : option Z :=
  match v with
  | Number q => let r := Qred q in
                if (Qden r =? 1)%positive then Some (Qnum r) else None
  | _ => None
  end.

Definition asArray (v : value) : option (list value) :=
  match v with Arr l => Some l | _ => None end.

Fixpoint readAll {A : Type} (read : value -> option A) (l : list value) : option (list A) :=
  match l with
  | [] => Some []
  | v :: rest =>
      match read v, readAll read rest with
      | Some a, Some l' => Some (a :: l')
      | _, _ => None
      end
  end.

Definition andThen {A B : Type} (o : option A) (f : A -> option B) : option B :=
  match o with
  | Some a => f a
  | None => None
  end.

Notation "'get' x ':=' o 'in' k" := (andThen o (fun x => k))
  (at level 10, x pattern, o at level 100, k at level 200).

Definition decodeDimension (v : value) : option GeneDimension :=
  get l := andThen (field "label" v) asString in
  get a := andThen (field "analysis" v) asString in
  Some {| label := l; analysis := a |}.

Definition decodeAnalysis (v : value) : option GeneMapAnalysis :=
  get score := andThen (field "viralityScore" v) asInteger in
  get s := andThen (field "sentiment" v) decodeDimension in
  get d := andThen (field "domain" v) decodeDimension in
  get c := andThen (field "contentForm" v) decodeDimension in
  get l := andThen (field "lifecycle" v) decodeDimension in
  get k := andThen (andThen (field "keywords" v) asArray) (readAll asString) in
  Some {| viralityScore := score; sentiment := s; domain := d;
          contentForm := c; lifecycle := l; keywords := k |}.

Definition decodeEvent (v : value) : option BigEvent.t :=
  get t := andThen (field "title" v) asString in
  get r := andThen (field "reason" v) asString in
  get d := andThen (field "durationLabel" v) asString in
  Some {| BigEvent.title := t; BigEvent.reason := r; BigEvent.durationLabel := d |}.

(** An optional member: absent, or present with the given reading. *)
Definition optional {A : Type} (key : string) (read : value -> option A) (v : value)
  : option (option A) :=
  match v with
  | Obj members =>
      match member key members with
      | Some x => match read x with Some a => Some (Some a) | None => None end
      | None => Some None
      end
  | _ => None
  end.

Definition decodeEvents (v : value) : option (option (list BigEvent.t)) :=
  optional "events" (fun x => andThen (asArray x) (readAll decodeEvent)) v.

Definition decodeTrend (v : value) : option TrendItem :=
  get r := andThen (field "rank" v) asInteger in
  get t := andThen (field "title" v) asString in
  get h := andThen (field "hotValue" v) asNumber in
  get c := andThen (field "category" v) asString in
  get rise := optional "heatRise" asInteger v in
  get d := optional "description" asString v in
  Some {| rank := r; title := t; hotValue := h; category := c;
          heatRise := rise; description := d |}.

Definition decodeTrends (v : value) : option (option (list TrendItem)) :=
  optional "trends" (fun x => andThen (asArray x) (readAll decodeTrend)) v.

(** *** [JSON.stringify] of an analysis record *)

Definition hexDigit (n : N) : ascii :=
  if (n <? 10)%N then ascii_of_N (48 + n) else ascii_of_N (87 + n).

(** How a string literal shows one character. *)
Definition escapeChar (c : ascii) : string :=
  let n := N_of_ascii c in
  if (n =? 34)%N then String backslash (String quote EmptyString)
  else if (n =? 92)%N then String backslash (String backslash EmptyString)
  else if (n =? 8)%N then String backslash "b"
  else if (n =? 12)%N then String backslash "f"
  else if (n =? 10)%N then String backslash "n"
  else if (n =? 13)%N then String backslash "r"
  else if (n =? 9)%N then String backslash "t"
  else if (n <? 32)%N then
    String backslash ("u00" +:+ String (hexDigit (n / 16)) (String (hexDigit (n mod 16)) EmptyString))
  else String c EmptyString.

Fixpoint escape (s : string) : string :=
  match s with
  | EmptyString => EmptyString
  | String c rest => escapeChar c +:+ escape rest
  end.

Definition literal (s : string) : string :=
  String quote (escape s +:+ String quote EmptyString).

Definition integer (z : Z) : string := NilZero.string_of_int (Z.to_int z).

Definition printDimension (d : GeneDimension) : string :=
  "{" +:+ literal "label" +:+ ":" +:+ literal (label d) +:+ ","
      +:+ literal "analysis" +:+ ":" +:+ literal (analysis d) +:+ "}".

Fixpoint commaSeparated (items : list string) : string :=
  match items with
  | [] => EmptyString
  | [x] => x
  | x :: rest => x +:+ "," +:+ commaSeparated rest
  end.

Definition stringify (a : GeneMapAnalysis) : string :=
  "{" +:+ literal "viralityScore" +:+ ":" +:+ integer (viralityScore a) +:+ ","
      +:+ literal "sentiment" +:+ ":" +:+ printDimension (sentiment a) +:+ ","
      +:+ literal "domain" +:+ ":" +:+ printDimension (domain a) +:+ ","
      +:+ literal "contentForm" +:+ ":" +:+ printDimension (contentForm a) +:+ ","
      +:+ literal "lifecycle" +:+ ":" +:+ printDimension (lifecycle a) +:+ ","
      +:+ literal "keywords" +:+ ":[" +:+ commaSeparated (map literal (keywords a)) +:+ "]}".

Definition json : Json :=
  {| parseAnalysis := fun text => andThen (parse text) decodeAnalysis;
     stringifyAnalysis := stringify;
     parseEvents := fun text => andThen (parse text) decodeEvents;
     parseTrends := fun text => andThen (parse text) decodeTrends |}.

(** JSON texts are written below with ['] for the quotation mark. *)
Fixpoint dq (s : string) : string :=
  match s with
  | EmptyString => EmptyString
  | String c rest => String (if Ascii.eqb c "'"%char then quote else c) (dq rest)
  end.

End JsonText.

(** ** The rest of [App.tsx]: settings, sorting and the progress bar *)

(** [Array.prototype.sort(compare)]: a stable sort, [b] going before [a]
    when [compare(a, b) > 0]. The comparators of this program are
    differences of numeric keys, for which every stable sort gives the same
    array; the model sorts by insertion. *)
Fixpoint Array_sort_insert {A : Type} (compare : A -> A -> Q) (x : A) (sorted : list A)
  : list A :=
  match sorted with
  | [] => [x]
  | y :: rest =>
      if negb (Qle_bool (compare x y) 0) then y :: Array_sort_insert compare x rest
      else x :: y :: rest
  end.

Definition Array_sort {A : Type} (compare : A -> A -> Q) (l : list A) : list A :=
  fold_right (Array_sort_insert compare) [] l.

Module Dashboard.

Inductive SortField : Type := byRank | byHeatRise | byHotValue.

Inductive SortDirection : Type := asc | desc.

Record SortConfig : Type := {
  field : SortField;
  direction : SortDirection
}.

(** [handleSort] *)
Definition handleSort (clicked : SortField) (current : SortConfig) : SortConfig :=
  {| field := clicked;
     direction :=
       match field current, clicked, direction current with
       | byRank, byRank, desc
       | byHeatRise, byHeatRise, desc
       | byHotValue, byHotValue, desc => asc
       | _, _, _ => desc
       end |}.

(** [t.heatRise || 0] *)
Definition heatRiseOrZero (t : TrendItem) : Z :=
  match heatRise t with
  | Some h => if truthyZ h then h else 0%Z
  | None => 0%Z
  end.

(** The [switch] on [sortConfig.field] inside the comparator. *)
Definition sortValue (f : SortField) (t : TrendItem) : Q :=
  match f with
  | byHeatRise => inject_Z (heatRiseOrZero t)
  | byHotValue => hotValue t
  | byRank => inject_Z (rank t)
  end.

Definition compareTrends (config : SortConfig) (a b : TrendItem) : Q :=
  let valA := sortValue (field config) a in
  let valB := sortValue (field config) b in
  match direction config with
  | asc => (valA - valB)%Q
  | desc => (valB - valA)%Q
  end.

(** [processedTrends]. [toLowerCase] is [String.prototype.toLowerCase] of
    the host. *)
Definition processedTrends (toLowerCase : string -> string)
    (trends : list TrendItem) (searchQuery : string) (sortConfig : SortConfig)
  : list TrendItem :=
  let result :=
    List.filter (fun trend =>
                   includes (toLowerCase (title trend)) (toLowerCase searchQuery))
                trends in
  Array_sort (compareTrends sortConfig) result.

(** [Math.min] of two numbers. *)
Definition Math_min (a b : Q) : Q := if Qle_bool a b then a else b.

(** The updater [startAnalysisProgress] gives to [setAnalysisProgress]
    every 200 ms. *)
Definition progressTick (prev : Q) : Q :=
  if Qle_bool 95 prev then 95%Q
  else
    let increment :=
      if negb (Qle_bool 30 prev) then 5%Q
      else if negb (Qle_bool 60 prev) then 2%Q
      else 0.5%Q in
    Math_min (prev + increment) 95.

(** The cells of the settings, and the class [dark] of the document. *)
Record Settings : Type := {
  theme : string;
  darkClass : bool;
  showSettings : bool;
  apiKeyInput : string;
  hasKey : bool;
  bgImage : option string
}.

(** The cells as [useState] creates them, in a document that has the class
    [dark] or not. The opacity of the background is left out. *)
Definition fresh (darkClass : bool) : Settings :=
  {| theme := "dark"; darkClass := darkClass; showSettings := false;
     apiKeyInput := EmptyString; hasKey := false; bgImage := None |}.

Definition setTheme (v : string) (dark : bool) (s : Settings) : Settings :=
  {| theme := v; darkClass := dark; showSettings := showSettings s;
     apiKeyInput := apiKeyInput s; hasKey := hasKey s; bgImage := bgImage s |}.

Definition setDarkClass (dark : bool) (s : Settings) : Settings :=
  {| theme := theme s; darkClass := dark; showSettings := showSettings s;
     apiKeyInput := apiKeyInput s; hasKey := hasKey s; bgImage := bgImage s |}.

Definition setShowSettings (v : bool) (s : Settings) : Settings :=
  {| theme := theme s; darkClass := darkClass s; showSettings := v;
     apiKeyInput := apiKeyInput s; hasKey := hasKey s; bgImage := bgImage s |}.

Definition setApiKeyInput (v : string) (s : Settings) : Settings :=
  {| theme := theme s; darkClass := darkClass s; showSettings := showSettings s;
     apiKeyInput := v; hasKey := hasKey s; bgImage := bgImage s |}.

Definition setHasKey (v : bool) (s : Settings) : Settings :=
  {| theme := theme s; darkClass := darkClass s; showSettings := showSettings s;
     apiKeyInput := apiKeyInput s; hasKey := v; bgImage := bgImage s |}.

Definition setBgImage (v : option string) (s : Settings) : Settings :=
  {| theme := theme s; darkClass := darkClass s; showSettings := showSettings s;
     apiKeyInput := apiKeyInput s; hasKey := hasKey s; bgImage := v |}.

(** The effect "Initialize Theme and Settings", up to its call of
    [loadTrends(true)]. *)
Definition initialize (s : Settings) : Eff Settings :=
  let* savedTheme := Storage.getItem "theme" in
  let s := if truthyOptString savedTheme
           then setTheme (default EmptyString savedTheme)
                         (String.eqb (default EmptyString savedTheme) "dark") s
           else setDarkClass true s in
  let* existingKey := getApiKey in
  let s := if truthyOptString existingKey
           then setApiKeyInput (default EmptyString existingKey) (setHasKey true s)
           else s in
  let* savedBg := Storage.getItem "bg_image" in
  let s := if truthyOptString savedBg then setBgImage savedBg s else s in
  ret s.

Definition toggleTheme (s : Settings) : Eff Settings :=
  let newTheme := if String.eqb (theme s) "dark" then "light" else "dark" in
  let* _ := Storage.setItem "theme" newTheme in
  ret (setTheme newTheme (String.eqb newTheme "dark") s).

Definition handleSaveKey (s : Settings) (a : App.State) : Eff (Settings * App.State) :=
  let* _ := setApiKey (apiKeyInput s) in
  let s := setHasKey (truthyString (apiKeyInput s)) s in
  let s := setShowSettings false s in
  ret (s, App.setShowKeyUpdatePrompt true a).

(** [handleImageUpload], from the moment the reader has the data URL of the
    chosen file; [None] when no file was chosen. A data URL is ASCII text,
    so its [length] is its number of bytes. *)
Definition handleImageUpload (file : option string) (s : Settings) (a : App.State)
  : Eff (Settings * App.State) :=
  match file with
  | None => ret (s, a)
  | Some base64String =>
      if (3000000 <? N.of_nat (String.length base64String))%N
      then ret (s, App.alert "图片过大，请使用小于 2MB 的图片" a)
      else
        let* _ := Storage.setItem "bg_image" base64String in
        ret (setBgImage (Some base64String) s, a)
  end.

Definition handleRemoveBg (s : Settings) : Eff Settings :=
  let* _ := Storage.removeItem "bg_image" in
  ret (setBgImage None s).

End Dashboard.

(** ** [components/TrendList.tsx]: the rise ranking *)

Module TrendList.

(** [sortedByRise.forEach((item, index) => rankMap.set(item.title, index + 1))] *)
Fixpoint setRanks (items : list TrendItem) (index : nat) (rankMap : gmap string nat)
  : gmap string nat :=
  match items with
  | [] => rankMap
  | item :: rest => setRanks rest (S index) (<[title item := index + 1]> rankMap)
  end.

Definition riseRankings (trends : list TrendItem) : gmap string nat :=
  let sortedByRise :=
    Array_sort (fun a b => (inject_Z (Dashboard.heatRiseOrZero b)
                            - inject_Z (Dashboard.heatRiseOrZero a))%Q)
               trends in
  setRanks sortedByRise 0 ∅.

(** [riseRankings.get(trend.title) || 0] *)
Definition riseRank (trends : list TrendItem) (trend : TrendItem) : nat :=
  default 0 (riseRankings trends !! title trend).

End TrendList.

(** ** Worlds to run the program in *)

Module Examples.

(** A world that always answers the same. *)
Definition world (storage : gmap string string) (r : Q)
    (primary backup : SourceReply) (chat : ChatReply) : World :=
  {| localStorage := storage;
     randoms := fun _ => r;
     primaryReplies := fun _ => primary;
     backupReplies := fun _ => backup;
     chatReplies := fun _ => chat;
     chatRequests := 0 |}.

Definition withKey : gmap string string := {[ API_KEY_STORAGE_KEY := "sk-test" ]}.

(** Nothing is reachable and no key is stored. *)
Definition offline : World :=
  world ∅ 0.5 SourceFetchRejects SourceFetchRejects ChatFetchRejects.

(** What the chat service may send when asked to simulate trends: an
    object whose member [trends] has [n] entries. *)
Definition trendText : string :=
  JsonText.dq "{'rank':1,'title':'话题','hotValue':1000000,'category':'娱乐','description':'说明'}".

Definition trendsText (n : nat) : string :=
  JsonText.dq "{'trends':[" +:+ JsonText.commaSeparated (repeat trendText n) +:+ "]}".

(** No trend source is reachable; a key is stored and the chat service
    answers with 52 trends. *)
Definition generous : World :=
  world withKey 0.5 SourceFetchRejects SourceFetchRejects
        (ChatContent (trendsText 52) None).

(** The primary source answers with one entry. *)
Definition oneEntry : list RawEntry :=
  [ {| word := "测试话题后续"; hot_value := Some 5000000%Q; position := Some 3%Z |} ].

Definition primaryUp : World :=
  world ∅ 0.5 (SourceWordList oneEntry) SourceFetchRejects ChatFetchRejects.

(** A key is stored and the chat service cannot be reached. *)
Definition unreachable : World :=
  world withKey 0.5 SourceFetchRejects SourceFetchRejects ChatFetchRejects.

(** A key is stored and the chat service refuses it. *)
Definition refused : World :=
  world withKey 0.5 SourceFetchRejects SourceFetchRejects
        (ChatNotOk (Some "Authentication Fails") "Unauthorized").

Definition someTrend : TrendItem :=
  {| rank := 1; title := "话题"; hotValue := 1000000; category := "娱乐精选";
     heatRise := Some 45000%Z; description := Some EmptyString |}.

(** The cache holds an empty text for 话题. *)
Definition emptyEntry : World :=
  world {[ AnalysisModal.cacheKey "话题" := EmptyString ]} 0.5
        SourceFetchRejects SourceFetchRejects ChatFetchRejects.

(** The cache holds a text that is not JSON for 话题. *)
Definition corruptEntry : World :=
  world {[ AnalysisModal.cacheKey "话题" := "{oops" ]} 0.5
        SourceFetchRejects SourceFetchRejects ChatFetchRejects.

Definition closed : AnalysisModal.State :=
  {| AnalysisModal.analysis := None;
     AnalysisModal.loading := false;
     AnalysisModal.error := None |}.

Definition analysisText : string :=
  JsonText.stringify
    {| viralityScore := 87;
       sentiment := {| label := "期待"; analysis := "大盘情绪积极" |};
       domain := {| label := "娱乐八卦"; analysis := "明星话题居多" |};
       contentForm := {| label := "短视频"; analysis := "适合混剪" |};
       lifecycle := {| label := "短期24h"; analysis := "热度衰减快" |};
       keywords := ["悬疑剧"; "电竞"; "萌宠"] |}.

Definition eventsText : string :=
  JsonText.dq "{'events':[{'title':'火灾后续','reason':'包含后续字样','durationLabel':'已发酵3天'}]}".

(** A key is stored; the chat service answers the first request with an
    analysis and the second with events, each with its usage. *)
Definition answering : World :=
  {| localStorage := withKey;
     randoms := fun _ => 0.5%Q;
     primaryReplies := fun _ => SourceFetchRejects;
     backupReplies := fun _ => SourceFetchRejects;
     chatReplies := fun n =>
       match n with
       | O => ChatContent analysisText
                (Some {| total_tokens := 1200; prompt_tokens := 900;
                         completion_tokens := 300 |})
       | _ => ChatContent eventsText
                (Some {| total_tokens := 800; prompt_tokens := 700;
                         completion_tokens := 100 |})
       end;
     chatRequests := 0 |}.

(** The dashboard with one trend on display. *)
Definition showing : App.State := App.setTrends [someTrend] App.initial.

End Examples.

(** ** Further worlds and inputs *)

Module Samples.

(** A key is stored, no trend source is reachable, and the chat service
    answers with one simulated trend, of a category outside [CATEGORIES]. *)
Definition simulating : World :=
  Examples.world Examples.withKey 0.5 SourceFetchRejects SourceFetchRejects
                 (ChatContent (Examples.trendsText 1) None).

Definition simulated : AIResponse (option (list TrendItem)) :=
  {| data := Some [ {| rank := 1; title := "话题"; hotValue := 1000000;
                       category := "娱乐"; heatRise := None;
                       description := Some "说明" |} ];
     usage := None |}.


(** A key is stored and the chat service refuses the request with the
    message MISSING_API_KEY. *)
Definition mistaken : World :=
  Examples.world Examples.withKey 0.5 SourceFetchRejects SourceFetchRejects
                 (ChatNotOk (Some "MISSING_API_KEY") "Bad Request").

(** [toLowerCase] on ASCII letters; other bytes stay. *)
Definition lowerAscii (c : ascii) : ascii :=
  let n := nat_of_ascii c in
  if (65 <=? n) && (n <=? 90) then ascii_of_nat (n + 32) else c.

Fixpoint toLowerCase (s : string) : string :=
  match s with
  | EmptyString => EmptyString
  | String c s' => String (lowerAscii c) (toLowerCase s')
  end.

(** Two trends with different titles, the second rising faster. *)
Definition rising : TrendItem :=
  {| rank := 2; title := "AI Phone"; hotValue := 2000000; category := "科技数码";
     heatRise := Some 90000%Z; description := Some EmptyString |}.

Definition twoTrends : list TrendItem := [Examples.someTrend; rising].

(** The primary source cannot be reached and the backup source answers
    with one entry. *)
Definition backupUp : World :=
  Examples.world ∅ 0.5 SourceFetchRejects (SourceWordList Examples.oneEntry)
                 ChatFetchRejects.

End Samples.

(** ** Predicates of the statements *)

(** The draws of [Math.random()] lie in [0, 1). *)
Definition fairDraws (w : World) : Prop :=
  forall n, (0 <= randoms w n < 1)%Q.

(** A trend source fails when its reply carries no [word_list]. *)
Definition sourceFails (r : SourceReply) : Prop :=
  forall l, r <> SourceWordList l.

(** What [parseDouyinData] makes of the entry at [index]. *)
Definition normalized (item : RawEntry) (index : nat) (t : TrendItem) : Prop :=
  rank t = rankOf item index /\
  title t = word item /\
  hotValue t = hotValueOf item /\
  category t = determineCategory (word item) /\
  description t = Some EmptyString /\
  exists (f : Q), (0.01 <= f < 0.08)%Q /\
    heatRise t = Some (Qfloor (hotValueOf item * f)).


(** A record is serializable when [JSON.parse] gives it back from its
    [JSON.stringify]. *)
Definition serializable (J : Json) (a : GeneMapAnalysis) : Prop :=
  parseAnalysis J (stringifyAnalysis J a) = Some a.




(** The counter [total_tokens] of a response, 0 when it has no usage. *)
Definition totalTokens {T : Type} (r : AIResponse T) : Z :=
  match usage r with
  | Some u => total_tokens u
  | None => 0%Z
  end.

(** The refresh guard holds in a run-time state when a call of [loadTrends]
    is suspended exactly when [refreshing] is set, and then only one. *)
Definition guarded (rt : App.Runtime) : Prop :=
  (App.refreshing (App.state rt) = true /\ App.inFlight rt = 1) \/
  (App.refreshing (App.state rt) = false /\ App.inFlight rt = 0).

(** Events other than the tick of the timer. *)
Definition noTick (e : App.Event) : Prop :=
  match e with
  | App.TimerTick => False
  | _ => True
  end.

(** The value [JSON.parse] reads off the text of a dimension, and the
    characters a number may start with. *)
Definition dimensionValue (d : GeneDimension) : JsonText.value :=
  JsonText.Obj [("label", JsonText.Str (label d)); ("analysis", JsonText.Str (analysis d))].

Definition numberHead (c : ascii) : bool :=
  match JsonText.digitOf c with
  | Some _ => true
  | None => Ascii.eqb c "-"
  end.

(** ** Predicates of the further properties *)

(** A trend source answers with a [word_list], of entries that all have
    a [word]. *)
Definition hasList (r : SourceReply) : bool :=
  match r with
  | SourceWordList _ => true
  | _ => false
  end.

(** A non-empty API key is stored. *)
Definition keyStored (w : World) : bool :=
  truthyOptString (localStorage w !! API_KEY_STORAGE_KEY).

(** Between [w] and [w'] only draws of [Math.random()] were consumed. *)
Definition onlyDraws (w w' : World) : Prop :=
  localStorage w' = localStorage w /\
  primaryReplies w' = primaryReplies w /\
  backupReplies w' = backupReplies w /\
  chatReplies w' = chatReplies w /\
  chatRequests w' = chatRequests w.

(** The world after [n] draws of [Math.random()]. *)
Definition afterDraws (n : nat) (w : World) : World :=
  Nat.iter n (fun w => snd (Math_random w)) w.

(** The order [processedTrends] sorts by. *)
Definition inOrder (config : Dashboard.SortConfig) (a b : TrendItem) : Prop :=
  match Dashboard.direction config with
  | Dashboard.asc =>
      (Dashboard.sortValue (Dashboard.field config) a
       <= Dashboard.sortValue (Dashboard.field config) b)%Q
  | Dashboard.desc =>
      (Dashboard.sortValue (Dashboard.field config) b
       <= Dashboard.sortValue (Dashboard.field config) a)%Q
  end.

(** The trends whose value in the sorted column is [v]. *)
Definition withValue (f : Dashboard.SortField) (v : Q) (l : list TrendItem)
  : list TrendItem :=
  List.filter (fun t => Qeq_bool (Dashboard.sortValue f t) v) l.

(** The trends whose title includes what is searched for. *)
Definition matching (toLowerCase : string -> string) (searchQuery : string)
    (trends : list TrendItem) : list TrendItem :=
  List.filter (fun trend =>
                 includes (toLowerCase (title trend)) (toLowerCase searchQuery))
              trends.

(** * Properties *)

Lemma append_cons (c : ascii) (k b : string) :
  String c k +:+ b = String c (k +:+ b).
Proof. reflexivity. Qed.

Lemma append_nil (b : string) : EmptyString +:+ b = b.
Proof. reflexivity. Qed.

Ltac norm_append := rewrite ?append_cons, ?append_nil in *.

(** ** The classifier *)

Lemma prefix_append (k s : string) :
  String.prefix k s = true <-> exists b, s = k +:+ b.
Proof.
  revert s. induction k as [|c k IH]; intros s; simpl.
  - split; [intros _; exists s; reflexivity | intros _; destruct s; reflexivity].
  - destruct s as [|d s]; simpl.
    + split; [discriminate | intros [b Hb]; discriminate].
    + destruct (ascii_dec c d) as [->|Hne].
      * rewrite IH.
        split; intros [b Hb]; exists b; norm_append; congruence.
      * split; [discriminate|].
        intros [b Hb]; norm_append; congruence.
Qed.

Lemma includes_cons (c : ascii) (s k : string) :
  includes (String c s) k
  = if String.prefix k (String c s) then true else includes s k.
Proof. reflexivity. Qed.

Lemma includes_nil (k : string) :
  includes EmptyString k = String.prefix k EmptyString.
Proof. destruct k; reflexivity. Qed.

Lemma includes_substring (s k : string) :
  includes s k = true <-> exists a b, s = a +:+ k +:+ b.
Proof.
  induction s as [|c s IH].
  - rewrite includes_nil, prefix_append. split.
    + intros [b Hb]. exists EmptyString, b. exact Hb.
    + intros [a [b Hab]]. destruct a; [|discriminate]. eauto.
  - rewrite includes_cons.
    destruct (String.prefix k (String c s)) eqn:Hp.
    + split; [intros _ | reflexivity].
      apply prefix_append in Hp as [b Hb]. exists EmptyString, b. exact Hb.
    + rewrite IH. split.
      * intros [a [b Hab]]. exists (String c a), b.
        norm_append. congruence.
      * intros [a [b Hab]]. destruct a as [|d a]; norm_append.
        -- assert (String.prefix k (String c s) = true) by (apply prefix_append; eauto).
           congruence.
        -- exists a, b. congruence.
Qed.

Lemma count_loop (p : string -> bool) (l : list string) (n : nat) :
  fold_left (fun score keyword => if p keyword then score + 1 else score) l n
  = n + length (List.filter p l).
Proof.
  revert n. induction l as [|k l IH]; intros n; simpl.
  - lia.
  - rewrite IH. destruct (p k); simpl; lia.
Qed.

Lemma scoreOf_count (title : string) (keywords : list string) :
  scoreOf title keywords = length (List.filter (includes title) keywords).
Proof. unfold scoreOf. apply count_loop. Qed.

Lemma scoreOf_zero (title : string) (keywords : list string) :
  scoreOf title keywords = 0 <->
  forall k, In k keywords -> includes title k = false.
Proof.
  rewrite scoreOf_count. induction keywords as [|k l IH]; simpl.
  - split; [intros _ k [] | reflexivity].
  - destruct (includes title k) eqn:Hk; simpl.
    + split; [discriminate|]. intros H. specialize (H k (or_introl eq_refl)). congruence.
    + rewrite IH. split.
      * intros H k' [<-|Hin]; auto.
      * intros H k' Hin. apply H. right. exact Hin.
Qed.

(** What the loop over the entries computes: either no entry beats the
    initial score and the initial pair is returned, or the pair comes from
    the first entry that attains the greatest score. *)
Lemma scanEntries_spec (title : string) (entries : list (string * list string))
    (m : nat) (b : string) :
  let r := scanEntries title entries (m, b) in
  (r = (m, b) /\
   forall j e, entries !! j = Some e -> scoreOf title (snd e) <= m)
  \/
  (exists i e, entries !! i = Some e /\ r = (scoreOf title (snd e), fst e) /\
     m < scoreOf title (snd e) /\
     (forall j e', entries !! j = Some e' ->
                   scoreOf title (snd e') <= scoreOf title (snd e)) /\
     (forall j e', j < i -> entries !! j = Some e' ->
                   scoreOf title (snd e') < scoreOf title (snd e))).
Proof.
  revert m b. induction entries as [|e es IH]; intros m b; simpl.
  - left. split; [reflexivity|]. intros j e' H. destruct j; discriminate.
  - unfold scanEntries. simpl. fold (scanEntries title es).
    destruct (Nat.ltb_spec m (scoreOf title (snd e))) as [Hlt|Hge].
    + destruct (IH (scoreOf title (snd e)) (fst e)) as [[Hr Hall]|(i & e' & Hi & Hr & Hm & Hall & Hbefore)].
      * right. exists 0, e. split; [reflexivity|]. split; [exact Hr|].
        split; [exact Hlt|]. split.
        -- intros [|j] e' H; simpl in H; [injection H as <-; lia | eauto].
        -- intros j e' Hj. lia.
      * right. exists (S i), e'. split; [exact Hi|]. split; [exact Hr|].
        split; [lia|]. split.
        -- intros [|j] e2 H; simpl in H; [injection H as <-; lia | eauto].
        -- intros [|j] e2 Hj H; simpl in H; [injection H as <-; lia|].
           apply (Hbefore j); [lia | exact H].
    + destruct (IH m b) as [[Hr Hall]|(i & e' & Hi & Hr & Hm & Hall & Hbefore)].
      * left. split; [exact Hr|].
        intros [|j] e' H; simpl in H; [injection H as <-; lia | eauto].
      * right. exists (S i), e'. split; [exact Hi|]. split; [exact Hr|].
        split; [lia|]. split.
        -- intros [|j] e2 H; simpl in H; [injection H as <-; lia | eauto].
        -- intros [|j] e2 Hj H; simpl in H; [injection H as <-; lia|].
           apply (Hbefore j); [lia | exact H].
Qed.

Lemma keyword_categories (i : nat) (e : string * list string) :
  KEYWORD_MAP !! i = Some e -> In (fst e) CATEGORIES.
Proof.
  intros H.
  do 6 (destruct i as [|i]; [injection H as <-; vm_compute; tauto|]).
  discriminate.
Qed.

Lemma determineCategory_in_CATEGORIES (title : string) :
  In (determineCategory title) CATEGORIES.
Proof.
  unfold determineCategory.
  destruct (scanEntries_spec title KEYWORD_MAP 0 "社会民生")
    as [[Hr _]|(i & e & Hi & Hr & _)]; cbv zeta in Hr; rewrite Hr; simpl snd.
  - vm_compute. tauto.
  - eapply keyword_categories, Hi.
Qed.


(** C2. [determineCategory] is a function from every title to a category
    of the fixed set. The score of a category is the number of its keywords
    that occur in the title as contiguous, exactly equal text. When every
    score is zero the result is 社会民生; otherwise the result is the category
    of the first entry, in the order of [KEYWORD_MAP], whose score is the
    greatest. In particular a title that includes a keyword of one category
    and no keyword of any other category gets that category. *)
Theorem determineCategory_spec (title : string) :
  In (determineCategory title) CATEGORIES
  /\ (forall k, includes title k = true <-> exists a b, title = a +:+ k +:+ b)
  /\ (forall i c kws, KEYWORD_MAP !! i = Some (c, kws) ->
        scoreOf title kws = length (List.filter (includes title) kws))
  /\ ((forall i c kws, KEYWORD_MAP !! i = Some (c, kws) -> scoreOf title kws = 0) ->
        determineCategory title = "社会民生")
  /\ ((exists i c kws, KEYWORD_MAP !! i = Some (c, kws) /\ 0 < scoreOf title kws) ->
        exists i c kws,
          KEYWORD_MAP !! i = Some (c, kws) /\
          determineCategory title = c /\
          (forall j c' kws', KEYWORD_MAP !! j = Some (c', kws') ->
             scoreOf title kws' <= scoreOf title kws) /\
          (forall j c' kws', j < i -> KEYWORD_MAP !! j = Some (c', kws') ->
             scoreOf title kws' < scoreOf title kws))
  /\ (forall i c kws,
        KEYWORD_MAP !! i = Some (c, kws) ->
        (exists k, In k kws /\ includes title k = true) ->
        (forall j c' kws' k', j <> i -> KEYWORD_MAP !! j = Some (c', kws') ->
           In k' kws' -> includes title k' = false) ->
        determineCategory title = c).
Proof.
  pose proof (scanEntries_spec title KEYWORD_MAP 0 "社会民生") as Hscan.
  cbv zeta in Hscan.
  assert (Hmax : (exists i c kws, KEYWORD_MAP !! i = Some (c, kws) /\ 0 < scoreOf title kws) ->
        exists i c kws,
          KEYWORD_MAP !! i = Some (c, kws) /\
          determineCategory title = c /\
          (forall j c' kws', KEYWORD_MAP !! j = Some (c', kws') ->
             scoreOf title kws' <= scoreOf title kws) /\
          (forall j c' kws', j < i -> KEYWORD_MAP !! j = Some (c', kws') ->
             scoreOf title kws' < scoreOf title kws)).
  { intros (i0 & c0 & kws0 & Hi0 & Hpos).
    destruct Hscan as [[_ Hall]|(i & [c kws] & Hi & Hr & _ & Hall & Hbefore)].
    - specialize (Hall i0 (c0, kws0) Hi0). simpl in Hall. lia.
    - exists i, c, kws. split; [exact Hi|]. split.
      + unfold determineCategory. rewrite Hr. reflexivity.
      + split.
        * intros j c' kws' Hj. exact (Hall j (c', kws') Hj).
        * intros j c' kws' Hlt Hj. exact (Hbefore j (c', kws') Hlt Hj). }
  split; [apply determineCategory_in_CATEGORIES|].
  split; [intros k; apply includes_substring|].
  split; [intros i c kws _; apply scoreOf_count|].
  split.
  { intros Hzero.
    destruct Hscan as [[Hr _]|(i & [c kws] & Hi & _ & Hpos & _)].
    - unfold determineCategory. rewrite Hr. reflexivity.
    - specialize (Hzero i c kws Hi). simpl in Hpos. lia. }
  split; [exact Hmax|].
  intros i c kws Hi (k & Hk & Hinc) Hothers.
  assert (Hpos : 0 < scoreOf title kws).
  { destruct (scoreOf title kws) eqn:Hs; [|lia].
    rewrite scoreOf_zero in Hs. rewrite (Hs k Hk) in Hinc. discriminate. }
  destruct Hmax as (i' & c' & kws' & Hi' & Hres & Hall & _).
  { exists i, c, kws. auto. }
  destruct (Nat.eq_dec i' i) as [->|Hne].
  - rewrite Hi in Hi'. injection Hi' as <- <-. exact Hres.
  - assert (Hz : scoreOf title kws' = 0).
    { apply scoreOf_zero. intros k' Hk'. exact (Hothers i' c' kws' k' Hne Hi' Hk'). }
    specialize (Hall i c kws Hi). lia.
Qed.

(** The search is exact on case: [ai] is not [AI]. *)
Example determineCategory_case :
  determineCategory "AI" = "科技数码" /\ determineCategory "ai" = "社会民生".
Proof. split; reflexivity. Qed.

(** A tie goes to the entry that comes first in [KEYWORD_MAP]. *)
Example determineCategory_tie :
  determineCategory "手机直播" = "娱乐精选" /\ determineCategory "手机新闻" = "社会民生".
Proof. split; reflexivity. Qed.

(** The end-to-end example: no keyword occurs in 测试话题后续. *)
Example determineCategory_default :
  determineCategory "测试话题后续" = "社会民生".
Proof. reflexivity. Qed.

(** ** The heat-rise estimator *)

Lemma calculateHeatRise_eq (totalHotValue : Q) (w : World) :
  calculateHeatRise totalHotValue w
  = (Ok (Qfloor (totalHotValue * (randoms w 0 * 0.07 + 0.01))), snd (Math_random w)).
Proof. reflexivity. Qed.

Lemma Qfloor_nonneg (x : Q) : (0 <= x)%Q -> (0 <= Qfloor x)%Z.
Proof. intros H. apply (Qfloor_resp_le 0 x H). Qed.

Lemma Qfloor_lt_ceiling (x y : Q) : (x < y)%Q -> (Qfloor x < Qceiling y)%Z.
Proof.
  intros H. rewrite Zlt_Qlt.
  pose proof (Qfloor_le x). pose proof (Qle_ceiling y). lra.
Qed.

(** C6, as the code has it. For a heat value that is not negative and a
    draw of [Math.random()] in [0, 1), [calculateHeatRise] returns the floor
    of the heat value times a ratio in [0.01, 0.08); the result is not
    negative; it is below the ceiling of 0.08 times the heat value when the
    heat value is positive, and it is 0 when the heat value is 0. *)
Theorem calculateHeatRise_range (totalHotValue : Q) (w : World) :
  (0 <= totalHotValue)%Q ->
  (0 <= randoms w 0 < 1)%Q ->
  exists (f : Q) (z : Z),
    fst (calculateHeatRise totalHotValue w) = Ok z /\
    (0.01 <= f < 0.08)%Q /\
    z = Qfloor (totalHotValue * f) /\
    (0 <= z)%Z /\
    ((0 < totalHotValue)%Q -> (z < Qceiling (0.08 * totalHotValue))%Z) /\
    (totalHotValue == 0 -> z = 0%Z).
Proof.
  intros Hh Hr.
  exists (randoms w 0 * 0.07 + 0.01)%Q, (Qfloor (totalHotValue * (randoms w 0 * 0.07 + 0.01))).
  rewrite calculateHeatRise_eq. cbn [fst].
  split; [reflexivity|]. split; [lra|]. split; [reflexivity|].
  split; [apply Qfloor_nonneg; nra|]. split.
  - intros Hpos. apply Qfloor_lt_ceiling. nra.
  - intros Hz. rewrite Hz, Qmult_0_l. reflexivity.
Qed.

Lemma calculateHeatRise_range_witness :
  exists (f : Q) (z : Z),
    fst (calculateHeatRise 5000000 Examples.offline) = Ok z /\
    (0.01 <= f < 0.08)%Q /\
    z = Qfloor (5000000 * f) /\
    (0 <= z)%Z /\
    ((0 < 5000000)%Q -> (z < Qceiling (0.08 * 5000000))%Z) /\
    (5000000 == 0 -> z = 0%Z).
Proof.
  apply (calculateHeatRise_range 5000000 Examples.offline).
  - unfold Qle. simpl. lia.
  - unfold Qle, Qlt. simpl. lia.
Defined.

(** C6, as the specification words it, fails for the heat value 0: the
    result is 0, and the interval from 0 up to the ceiling of 0.08 times 0,
    that ceiling left out, is empty. *)
Lemma calculateHeatRise_zero_heat :
  ~ (forall (totalHotValue : Q) (w : World),
       (0 <= totalHotValue)%Q ->
       (0 <= randoms w 0 < 1)%Q ->
       forall z : Z,
         fst (calculateHeatRise totalHotValue w) = Ok z ->
         (0 <= z < Qceiling (0.08 * totalHotValue))%Z).
Proof.
  intros H.
  assert (H0 : (0 <= 0 < Qceiling (0.08 * 0))%Z).
  { apply (H 0%Q Examples.offline).
    - unfold Qle. simpl. lia.
    - unfold Qle, Qlt. simpl. lia.
    - reflexivity. }
  vm_compute in H0. destruct H0 as [_ H0]. discriminate H0.
Qed.

(** The end-to-end example: a heat value of 5000000 gives a rise from 50000
    up to 400000, the latter left out. *)
Lemma calculateHeatRise_example (w : World) (z : Z) :
  (0 <= randoms w 0 < 1)%Q ->
  fst (calculateHeatRise 5000000 w) = Ok z ->
  (50000 <= z < 400000)%Z.
Proof.
  intros Hr. rewrite calculateHeatRise_eq. cbn [fst]. intros H.
  assert (Hz : z = Qfloor (5000000 * (randoms w 0 * 0.07 + 0.01))) by congruence.
  rewrite Hz. clear H Hz.
  split.
  - change 50000%Z with (Qfloor 50000). apply Qfloor_resp_le. lra.
  - change 400000%Z with (Qceiling 400000).
    apply Qfloor_lt_ceiling. lra.
Qed.

(** ** The source chain *)

Lemma Array_map_ok {A B : Type} (f : A -> nat -> Eff B)
    (Inv : World -> Prop) (Pre : A -> Prop) (R : A -> nat -> B -> Prop) :
  (forall x i w, Inv w -> Pre x ->
     exists y w', f x i w = (Ok y, w') /\ Inv w' /\ R x i y) ->
  forall l index w,
    Inv w -> (forall x, In x l -> Pre x) ->
    exists ys w',
      Array_map f l index w = (Ok ys, w') /\ Inv w' /\
      length ys = length l /\
      forall j x, l !! j = Some x -> exists y, ys !! j = Some y /\ R x (index + j) y.
Proof.
  intros Hf. induction l as [|x l IH]; intros index w Hw Hpre; simpl.
  - exists [], w. repeat split; auto. intros j x H. destruct j; discriminate.
  - destruct (Hf x index w Hw (Hpre x (or_introl eq_refl))) as (y & w1 & Hy & Hw1 & Hr).
    destruct (IH (S index) w1 Hw1 (fun z Hz => Hpre z (or_intror Hz)))
      as (ys & w2 & Hys & Hw2 & Hlen & Hall).
    exists (y :: ys), w2. unfold bind. rewrite Hy, Hys. unfold ret.
    split; [reflexivity|]. split; [exact Hw2|]. split; [simpl; lia|].
    intros [|j] z Hz; simpl in Hz.
    + injection Hz as <-. exists y. rewrite Nat.add_0_r. auto.
    + destruct (Hall j z Hz) as (y' & Hy' & Hr').
      exists y'. split; [exact Hy'|]. replace (index + S j) with (S index + j) by lia.
      exact Hr'.
Qed.

Lemma fairDraws_random (w : World) : fairDraws w -> fairDraws (snd (Math_random w)).
Proof. intros H n. apply (H (S n)). Qed.

Lemma parseDouyinData_ok (word_list : list RawEntry) (w : World) :
  fairDraws w ->
  exists items w',
    parseDouyinData word_list w = (Ok items, w') /\ fairDraws w' /\
    length items = min (length word_list) 51 /\
    forall j, j < min (length word_list) 51 ->
      exists item t, word_list !! j = Some item /\ items !! j = Some t /\
                     normalized item j t.
Proof.
  intros Hw. unfold parseDouyinData, bind.
  match goal with |- context [Array_map ?f _ _ _] => set (callback := f) end.
  destruct (Array_map_ok callback fairDraws (fun _ => True) normalized) with
    (l := word_list) (index := 0) (w := w) as (ys & w' & Hys & Hw' & Hlen & Hall); auto.
  { intros x i w0 Hw0 _. subst callback. cbv beta.
    unfold bind. rewrite calculateHeatRise_eq. unfold ret.
    eexists _, _. split; [reflexivity|]. split; [apply fairDraws_random, Hw0|].
    unfold normalized. simpl. repeat (split; [reflexivity|]).
    exists (randoms w0 0 * 0.07 + 0.01)%Q. split; [|reflexivity].
    specialize (Hw0 0). lra. }
  rewrite Hys. unfold ret. exists (take 51 ys), w'.
  split; [reflexivity|]. split; [exact Hw'|].
  split; [rewrite length_take; lia|].
  intros j Hj.
  destruct (lookup_lt_is_Some_2 word_list j) as [item Hitem]; [lia|].
  destruct (Hall j item Hitem) as (t & Ht & Hn).
  exists item, t. split; [exact Hitem|]. split; [|exact Hn].
  rewrite lookup_take_lt; [exact Ht | lia].
Qed.

Lemma hotValueOf_nonneg (item : RawEntry) :
  (forall v, hot_value item = Some v -> (0 <= v)%Q) -> (0 <= hotValueOf item)%Q.
Proof.
  intros H. unfold hotValueOf. destruct (hot_value item) as [v|]; [|lra].
  destruct (truthyQ v); [auto | lra].
Qed.

Lemma rankOf_spec (item : RawEntry) (index : nat) :
  (forall p, position item = Some p -> (0 < p)%Z -> rankOf item index = p) /\
  (position item = None \/ (exists p, position item = Some p /\ (p <= 0)%Z) ->
   rankOf item index = (Z.of_nat index + 1)%Z).
Proof.
  unfold rankOf, truthyZ. split.
  - intros p -> Hp.
    destruct (Z.eqb_spec p 0); [lia|]. destruct (Z.ltb_spec 0 p); [reflexivity | lia].
  - intros [->|(p & -> & Hp)]; [reflexivity|].
    destruct (Z.ltb_spec 0 p); [lia|]. rewrite andb_false_r. reflexivity.
Qed.

Lemma primary_list_is_parsed (J : Json) (w : World) (word_list : list RawEntry) :
  primaryReplies w 0 = SourceWordList word_list ->
  forall items w',
    parseDouyinData word_list (snd (fetchPrimary w)) = (Ok items, w') ->
    fetchTrends J w = (Ok items, w').
Proof.
  intros Hp items w' Hparse.
  unfold fetchTrends, tryCatch, primaryAttempt, bind.
  change (fetchPrimary w) with (Ok (primaryReplies w 0), snd (fetchPrimary w)).
  rewrite Hp, Hparse. reflexivity.
Qed.

(** C1. When the primary source answers with a list of N entries whose heat
    values, where present, are not negative, [fetchTrends] returns
    min(N, 51) items; the item at index i has a category of [CATEGORIES], a
    heat rise that is not negative, and as rank the [position] of the entry
    at index i when that is present and positive, and i + 1 otherwise. *)
Theorem fetchTrends_primary (J : Json) (w : World) (word_list : list RawEntry) :
  primaryReplies w 0 = SourceWordList word_list ->
  fairDraws w ->
  (forall e v, In e word_list -> hot_value e = Some v -> (0 <= v)%Q) ->
  exists items,
    fst (fetchTrends J w) = Ok items /\
    length items = min (length word_list) 51 /\
    forall i, i < min (length word_list) 51 ->
      exists e item,
        word_list !! i = Some e /\ items !! i = Some item /\
        In (category item) CATEGORIES /\
        (exists h, heatRise item = Some h /\ (0 <= h)%Z) /\
        (forall p, position e = Some p -> (0 < p)%Z -> rank item = p) /\
        (position e = None \/ (exists p, position e = Some p /\ (p <= 0)%Z) ->
         rank item = (Z.of_nat i + 1)%Z).
Proof.
  intros Hp Hdraws Hheat.
  destruct (parseDouyinData_ok word_list (snd (fetchPrimary w)))
    as (items & w' & Hparse & _ & Hlen & Hall).
  { intros n. apply Hdraws. }
  exists items. rewrite (primary_list_is_parsed J w word_list Hp items w' Hparse).
  split; [reflexivity|]. split; [exact Hlen|].
  intros i Hi. destruct (Hall i Hi) as (e & item & He & Hitem & Hn).
  destruct Hn as (Hrank & Htitle & Hhot & Hcat & _ & f & Hf & Hrise).
  exists e, item. split; [exact He|]. split; [exact Hitem|].
  split; [rewrite Hcat; apply determineCategory_in_CATEGORIES|].
  split.
  - exists (Qfloor (hotValueOf e * f)). split; [exact Hrise|].
    apply Qfloor_nonneg.
    assert (0 <= hotValueOf e)%Q.
    { apply hotValueOf_nonneg. intros v Hv. apply (Hheat e v); [|exact Hv].
      apply list_elem_of_In. eapply list_elem_of_lookup_2, He. }
    nra.
  - rewrite Hrank. apply rankOf_spec.
Qed.

Lemma fetchTrends_primary_witness :
  exists items,
    fst (fetchTrends JsonText.json Examples.primaryUp) = Ok items /\
    length items = min (length Examples.oneEntry) 51 /\
    forall i, i < min (length Examples.oneEntry) 51 ->
      exists e item,
        Examples.oneEntry !! i = Some e /\ items !! i = Some item /\
        In (category item) CATEGORIES /\
        (exists h, heatRise item = Some h /\ (0 <= h)%Z) /\
        (forall p, position e = Some p -> (0 < p)%Z -> rank item = p) /\
        (position e = None \/ (exists p, position e = Some p /\ (p <= 0)%Z) ->
         rank item = (Z.of_nat i + 1)%Z).
Proof.
  apply (fetchTrends_primary JsonText.json Examples.primaryUp Examples.oneEntry).
  - reflexivity.
  - intros n. unfold Qle, Qlt. simpl. lia.
  - intros e v [<-|[]]. simpl. intros [= <-]. unfold Qle. simpl. lia.
Defined.

(** The end-to-end example of the specification, run. *)
Example end_to_end_example :
  fst (fetchTrends JsonText.json Examples.primaryUp)
  = Ok [ {| rank := 3; title := "测试话题后续"; hotValue := 5000000;
            category := "社会民生"; heatRise := Some 225000%Z;
            description := Some EmptyString |} ].
Proof. vm_compute. reflexivity. Qed.

Lemma callDeepSeek_no_key (w : World) :
  truthyOptString (localStorage w !! API_KEY_STORAGE_KEY) = false ->
  callDeepSeek w = (Throw (Error "MISSING_API_KEY"), w).
Proof.
  intros H. unfold callDeepSeek, bind, getApiKey, Storage.getItem.
  rewrite H. reflexivity.
Qed.

(** What [callDeepSeek] settles in depends on the stored key and on the next
    reply of the chat service only. *)
Lemma callDeepSeek_same (w1 w2 : World) :
  localStorage w1 = localStorage w2 ->
  chatReplies w1 0 = chatReplies w2 0 ->
  fst (callDeepSeek w1) = fst (callDeepSeek w2).
Proof.
  intros Hs Hc. unfold callDeepSeek, bind, getApiKey, Storage.getItem, fetchChat.
  rewrite Hs.
  destruct (truthyOptString (localStorage w2 !! API_KEY_STORAGE_KEY)); cbn [negb]; [|reflexivity].
  cbv beta iota. rewrite Hc.
  destruct (chatReplies w2 0); reflexivity.
Qed.

Lemma completion_same {T : Type} (parser : string -> option T) (w1 w2 : World) :
  localStorage w1 = localStorage w2 ->
  chatReplies w1 0 = chatReplies w2 0 ->
  fst (completion parser w1) = fst (completion parser w2).
Proof.
  intros Hs Hc. pose proof (callDeepSeek_same w1 w2 Hs Hc) as H.
  unfold completion, bind.
  destruct (callDeepSeek w1) as [[r1|e1] w1'], (callDeepSeek w2) as [[r2|e2] w2'];
    simpl in H; try discriminate; injection H as <-; [|reflexivity].
  unfold JSON_parse. destruct (parser (fst r1)); reflexivity.
Qed.

Lemma completion_no_key {T : Type} (parser : string -> option T) (w : World) :
  truthyOptString (localStorage w !! API_KEY_STORAGE_KEY) = false ->
  completion parser w = (Throw (Error "MISSING_API_KEY"), w).
Proof.
  intros H. unfold completion, bind. rewrite (callDeepSeek_no_key w H). reflexivity.
Qed.

Lemma fetchSimulatedTrends_fails (J : Json) (w : World) (e : exn) :
  fst (completion (parseTrends J) w) = Throw e ->
  fst (fetchSimulatedTrends J w) = Ok placeholderTrends.
Proof.
  unfold fetchSimulatedTrends, completion, tryCatch, bind.
  destruct (callDeepSeek w) as [[r|e1] w1]; [|reflexivity].
  unfold JSON_parse. destruct (parseTrends J (fst r)); [discriminate | reflexivity].
Qed.

Lemma fetchSimulatedTrends_succeeds (J : Json) (w : World)
    (r : AIResponse (option (list TrendItem))) :
  fst (completion (parseTrends J) w) = Ok r ->
  exists items, fst (fetchSimulatedTrends J w) = Ok items /\
                length items = length (default [] (data r)).
Proof.
  unfold fetchSimulatedTrends, completion, tryCatch, bind.
  destruct (callDeepSeek w) as [[c|e1] w1]; [|discriminate].
  unfold JSON_parse. destruct (parseTrends J (fst c)) as [parsed|]; [|discriminate].
  unfold ret. cbn [fst]. intros [= <-]. cbn [data].
  match goal with |- context [Array_map ?f _ _ _] => set (callback := f) end.
  destruct (Array_map_ok callback (fun _ => True) (fun _ => True) (fun _ _ _ => True))
    with (l := default [] parsed) (index := 0) (w := w1)
    as (ys & w' & Hys & _ & Hlen & _); auto.
  { intros x i w0 _ _. subst callback. cbv beta.
    unfold bind. rewrite calculateHeatRise_eq. unfold ret. eauto. }
  rewrite Hys. exists ys. split; [reflexivity | exact Hlen].
Qed.

(** Where [fetchTrends] ends up when neither source carries a list. *)
Lemma fetchTrends_fallback (J : Json) (w : World) :
  sourceFails (primaryReplies w 0) ->
  sourceFails (backupReplies w 0) ->
  exists w2,
    localStorage w2 = localStorage w /\ chatReplies w2 = chatReplies w /\
    fetchTrends J w = fetchSimulatedTrends J w2.
Proof.
  intros Hp Hb.
  exists (snd (fetchBackup (snd (fetchPrimary w)))).
  split; [reflexivity|]. split; [reflexivity|].
  unfold fetchTrends, tryCatch, primaryAttempt, backupAttempt, bind,
    fetchPrimary, fetchBackup, throw, ret.
  cbn -[fetchSimulatedTrends parseDouyinData].
  destruct (primaryReplies w 0) as [| | | |l]; try (exfalso; exact (Hp l eq_refl));
    cbn -[fetchSimulatedTrends parseDouyinData];
    destruct (backupReplies w 0) as [| | | |l']; try (exfalso; exact (Hb l' eq_refl));
    reflexivity.
Qed.

Lemma backup_list_is_parsed (J : Json) (w : World) (word_list : list RawEntry) :
  sourceFails (primaryReplies w 0) ->
  backupReplies w 0 = SourceWordList word_list ->
  forall items w',
    parseDouyinData word_list (snd (fetchBackup (snd (fetchPrimary w)))) = (Ok items, w') ->
    fetchTrends J w = (Ok items, w').
Proof.
  intros Hp Hb items w' Hparse.
  unfold fetchTrends, tryCatch, primaryAttempt, backupAttempt, bind,
    fetchPrimary, fetchBackup, throw, ret in *.
  cbn -[fetchSimulatedTrends parseDouyinData] in *.
  destruct (primaryReplies w 0) as [| | | |l]; try (exfalso; exact (Hp l eq_refl));
    cbn -[fetchSimulatedTrends parseDouyinData];
    rewrite Hb, Hparse; reflexivity.
Qed.

(** C3. When neither trend source carries a list and the generative
    fallback fails, be it for want of a stored key or for any other error of
    the call or of [JSON.parse], [fetchTrends] fulfils with the two
    placeholder items: rank 1, the network notice with heat value 0 and heat
    rise 0, and rank 2, the notice to configure the key. *)
Theorem fetchTrends_placeholder (J : Json) (w : World) :
  sourceFails (primaryReplies w 0) ->
  sourceFails (backupReplies w 0) ->
  (truthyOptString (localStorage w !! API_KEY_STORAGE_KEY) = false \/
   exists e, fst (completion (parseTrends J) w) = Throw e) ->
  fst (fetchTrends J w) = Ok placeholderTrends /\
  placeholderTrends =
    [ {| rank := 1; title := "获取数据失败 - 请检查网络"; hotValue := 0;
         category := "社会民生"; heatRise := Some 0%Z;
         description := Some "无法连接到抖音 API 且 DeepSeek 未配置" |};
      {| rank := 2; title := "DeepSeek API 连接失败"; hotValue := 12500000;
         category := "科技数码"; heatRise := Some 890000%Z;
         description := Some "请在设置中配置您的 DeepSeek API Key 以启用模拟数据。" |} ].
Proof.
  intros Hp Hb Hfail. split; [|reflexivity].
  destruct (fetchTrends_fallback J w Hp Hb) as (w2 & Hs & Hc & ->).
  assert (Hthrow : exists e, fst (completion (parseTrends J) w2) = Throw e).
  { destruct Hfail as [Hkey|[e He]].
    - exists (Error "MISSING_API_KEY"). rewrite completion_no_key; [reflexivity|].
      rewrite Hs. exact Hkey.
    - exists e. rewrite <- He. apply completion_same; [exact Hs | rewrite Hc; reflexivity]. }
  destruct Hthrow as [e He]. exact (fetchSimulatedTrends_fails J w2 e He).
Qed.

Lemma fetchTrends_placeholder_witness :
  fst (fetchTrends JsonText.json Examples.offline) = Ok placeholderTrends /\
  placeholderTrends =
    [ {| rank := 1; title := "获取数据失败 - 请检查网络"; hotValue := 0;
         category := "社会民生"; heatRise := Some 0%Z;
         description := Some "无法连接到抖音 API 且 DeepSeek 未配置" |};
      {| rank := 2; title := "DeepSeek API 连接失败"; hotValue := 12500000;
         category := "科技数码"; heatRise := Some 890000%Z;
         description := Some "请在设置中配置您的 DeepSeek API Key 以启用模拟数据。" |} ].
Proof.
  apply (fetchTrends_placeholder JsonText.json Examples.offline).
  - intros l. simpl. discriminate.
  - intros l. simpl. discriminate.
  - left. reflexivity.
Defined.

Lemma parseDouyinData_length (word_list : list RawEntry) (w : World) :
  exists items w',
    parseDouyinData word_list w = (Ok items, w') /\
    length items = min (length word_list) 51.
Proof.
  unfold parseDouyinData, bind.
  match goal with |- context [Array_map ?f _ _ _] => set (callback := f) end.
  destruct (Array_map_ok callback (fun _ => True) (fun _ => True) (fun _ _ _ => True))
    with (l := word_list) (index := 0) (w := w)
    as (ys & w' & Hys & _ & Hlen & _); auto.
  { intros x i w0 _ _. subst callback. cbv beta.
    unfold bind. rewrite calculateHeatRise_eq. unfold ret. eauto. }
  rewrite Hys. unfold ret. exists (take 51 ys), w'.
  split; [reflexivity|]. rewrite length_take. lia.
Qed.

Lemma sourceFails_dec (r : SourceReply) :
  sourceFails r \/ exists l, r = SourceWordList l.
Proof.
  destruct r; try (left; intros l; discriminate). right. eauto.
Qed.

(** The source chain always fulfils. *)
Lemma fetchTrends_fulfils (J : Json) (w : World) :
  exists items, fst (fetchTrends J w) = Ok items.
Proof.
  destruct (sourceFails_dec (primaryReplies w 0)) as [Hp|[l Hl]].
  - destruct (sourceFails_dec (backupReplies w 0)) as [Hb|[l Hl]].
    + destruct (fetchTrends_fallback J w Hp Hb) as (w2 & _ & _ & ->).
      destruct (fst (completion (parseTrends J) w2)) as [r|e] eqn:Hr.
      * destruct (fetchSimulatedTrends_succeeds J w2 r Hr) as (items & Hi & _). eauto.
      * rewrite (fetchSimulatedTrends_fails J w2 e Hr). eauto.
    + destruct (parseDouyinData_length l (snd (fetchBackup (snd (fetchPrimary w)))))
        as (items & w' & Hparse & _).
      exists items. rewrite (backup_list_is_parsed J w l Hp Hl items w' Hparse). reflexivity.
  - destruct (parseDouyinData_length l (snd (fetchPrimary w))) as (items & w' & Hparse & _).
    exists items. rewrite (primary_list_is_parsed J w l Hl items w' Hparse). reflexivity.
Qed.

(** C8, as the code has it. [fetchTrends] always fulfils. Its result has at
    most 51 items when it comes from the primary source, from the backup
    source or from the placeholder; when it comes from the generative
    fallback it has as many items as the member [trends] of the generated
    object, none when that member is missing. *)
Theorem fetchTrends_length (J : Json) (w : World) :
  exists items,
    fst (fetchTrends J w) = Ok items /\
    (forall l, primaryReplies w 0 = SourceWordList l -> length items <= 51) /\
    (sourceFails (primaryReplies w 0) ->
     forall l, backupReplies w 0 = SourceWordList l -> length items <= 51) /\
    (sourceFails (primaryReplies w 0) ->
     sourceFails (backupReplies w 0) ->
     forall e, fst (completion (parseTrends J) w) = Throw e ->
       items = placeholderTrends /\ length items <= 51) /\
    (sourceFails (primaryReplies w 0) ->
     sourceFails (backupReplies w 0) ->
     forall r, fst (completion (parseTrends J) w) = Ok r ->
       length items = length (default [] (data r))).
Proof.
  destruct (sourceFails_dec (primaryReplies w 0)) as [Hp|[l Hl]].
  - destruct (sourceFails_dec (backupReplies w 0)) as [Hb|[l Hl]].
    + destruct (fetchTrends_fallback J w Hp Hb) as (w2 & Hs & Hc & Heq).
      assert (Hsame : fst (completion (parseTrends J) w2) = fst (completion (parseTrends J) w)).
      { apply completion_same; [exact Hs | rewrite Hc; reflexivity]. }
      rewrite Heq.
      destruct (fst (completion (parseTrends J) w)) as [r|e] eqn:Hr.
      * destruct (fetchSimulatedTrends_succeeds J w2 r Hsame) as (items & Hi & Hlen).
        exists items. split; [exact Hi|].
        split; [intros l Hl; exfalso; exact (Hp l Hl)|].
        split; [intros _ l Hl; exfalso; exact (Hb l Hl)|].
        split; [intros _ _ e He; discriminate He|].
        intros _ _ r' Hr'. injection Hr' as <-. exact Hlen.
      * rewrite (fetchSimulatedTrends_fails J w2 e Hsame).
        exists placeholderTrends. split; [reflexivity|].
        split; [intros l Hl; exfalso; exact (Hp l Hl)|].
        split; [intros _ l Hl; exfalso; exact (Hb l Hl)|].
        split; [intros _ _ e' _; split; [reflexivity | simpl; lia]|].
        intros _ _ r Hr'. discriminate Hr'.
    + destruct (parseDouyinData_length l (snd (fetchBackup (snd (fetchPrimary w)))))
        as (items & w' & Hparse & Hlen).
      exists items. rewrite (backup_list_is_parsed J w l Hp Hl items w' Hparse).
      split; [reflexivity|].
      split; [intros l' Hl'; exfalso; exact (Hp l' Hl')|].
      split; [intros _ l' _; lia|].
      split; intros _ Hb; exfalso; exact (Hb l Hl).
  - destruct (parseDouyinData_length l (snd (fetchPrimary w))) as (items & w' & Hparse & Hlen).
    exists items. rewrite (primary_list_is_parsed J w l Hl items w' Hparse).
    split; [reflexivity|].
    split; [intros l' _; lia|].
    split; [|split]; intros Hp; exfalso; exact (Hp l Hl).
Qed.

(** Two of the tiers at work: one entry from the primary source, and 52
    trends from the generative fallback. *)
Lemma fetchTrends_length_witness :
  (exists items,
     fst (fetchTrends JsonText.json Examples.primaryUp) = Ok items /\
     length items <= 51) /\
  (exists items,
     fst (fetchTrends JsonText.json Examples.generous) = Ok items /\
     length items = 52).
Proof.
  split.
  - destruct (fetchTrends_length JsonText.json Examples.primaryUp)
      as (items & Hrun & Hprimary & _).
    exists items. split; [exact Hrun|]. exact (Hprimary Examples.oneEntry eq_refl).
  - destruct (fetchTrends_length JsonText.json Examples.generous)
      as (items & Hrun & _ & _ & _ & Hgenerated).
    exists items. split; [exact Hrun|].
    assert (Hfails : sourceFails SourceFetchRejects) by (intros l; discriminate).
    destruct (fst (completion (parseTrends JsonText.json) Examples.generous))
      as [r|e] eqn:Hr.
    + rewrite (Hgenerated Hfails Hfails r eq_refl).
      assert (Hlen : match fst (completion (parseTrends JsonText.json) Examples.generous) with
                     | Ok r => length (default [] (data r))
                     | Throw _ => 0
                     end = 52) by (vm_compute; reflexivity).
      rewrite Hr in Hlen. exact Hlen.
    + assert (Hok : match fst (completion (parseTrends JsonText.json) Examples.generous) with
                    | Ok _ => true
                    | Throw _ => false
                    end = true) by (vm_compute; reflexivity).
      rewrite Hr in Hok. discriminate Hok.
Defined.

(** C8, as the specification words it, fails: with no trend source in reach,
    a stored key and a chat service that answers with 52 trends,
    [fetchTrends] returns 52 items. *)
Lemma fetchTrends_52 :
  ~ (forall (J : Json) (w : World) (items : list TrendItem),
       fst (fetchTrends J w) = Ok items -> length items <= 51).
Proof.
  intros H.
  destruct (fst (fetchTrends JsonText.json Examples.generous)) as [items|e] eqn:E.
  - specialize (H JsonText.json Examples.generous items E).
    assert (Hlen : match fst (fetchTrends JsonText.json Examples.generous) with
                   | Ok items => length items
                   | Throw _ => 0
                   end = 52) by (vm_compute; reflexivity).
    rewrite E in Hlen. lia.
  - assert (Hok : match fst (fetchTrends JsonText.json Examples.generous) with
                  | Ok _ => true
                  | Throw _ => false
                  end = true) by (vm_compute; reflexivity).
    rewrite E in Hok. discriminate.
Qed.

(** ** The analysis client *)

Lemma tryCatch_throw {A : Type} (body : Eff A) (handler : exn -> Eff A)
    (w : World) (e : exn) :
  fst (body w) = Throw e ->
  tryCatch body handler w = handler e (snd (body w)).
Proof.
  unfold tryCatch. destruct (body w) as [[a|e'] w']; simpl; [discriminate|].
  intros [= ->]. reflexivity.
Qed.


Lemma analyzeTrendWithAI_throw (J : Json) (trendTitle : string) (w : World) (e : exn) :
  fst (completion (parseAnalysis J) w) = Throw e ->
  fst (analyzeTrendWithAI J trendTitle w)
  = if isMissingKey e then Throw e
    else Ok {| data := fallbackAnalysis; usage := None |}.
Proof.
  intros H. unfold analyzeTrendWithAI. rewrite (tryCatch_throw _ _ w e H).
  destruct (isMissingKey e); reflexivity.
Qed.

Lemma analyzeGlobalTrends_throw (J : Json) (trends : list TrendItem) (w : World) (e : exn) :
  fst (completion (parseAnalysis J) w) = Throw e ->
  fst (analyzeGlobalTrends J trends w)
  = if isMissingKey e then Throw e else Throw (Error "Analysis failed").
Proof.
  intros H. unfold analyzeGlobalTrends. rewrite (tryCatch_throw _ _ w e H).
  destruct (isMissingKey e); reflexivity.
Qed.

Lemma identifyBigEvents_throw (J : Json) (trends : list TrendItem) (w : World) (e : exn) :
  fst (completion (parseEvents J) w) = Throw e ->
  fst (identifyBigEvents J trends w)
  = if isMissingKey e then Throw e
    else Ok {| data := Some []; usage := None |}.
Proof.
  intros H. unfold identifyBigEvents. rewrite (tryCatch_throw _ _ w e H).
  destruct (isMissingKey e); reflexivity.
Qed.

(** C4, as the code has it. The three analysis operations share the call
    [completion] and differ in what they do when it throws. Without a
    stored key all three throw the error MISSING_API_KEY, and each of them
    passes on every error that carries this message, wherever it comes
    from. On an error with another message, or with none,
    [analyzeTrendWithAI] fulfils with the fallback record, whose labels are
    未知 and whose score is 0; [analyzeGlobalTrends] throws the error
    "Analysis failed"; [identifyBigEvents] fulfils with no events. *)
Theorem analysis_failure_policies (J : Json) (w : World)
    (trendTitle : string) (trends : list TrendItem) :
  (truthyOptString (localStorage w !! API_KEY_STORAGE_KEY) = false ->
     fst (analyzeTrendWithAI J trendTitle w) = Throw (Error "MISSING_API_KEY") /\
     fst (analyzeGlobalTrends J trends w) = Throw (Error "MISSING_API_KEY") /\
     fst (identifyBigEvents J trends w) = Throw (Error "MISSING_API_KEY"))
  /\ (forall e, isMissingKey e = true ->
        (fst (completion (parseAnalysis J) w) = Throw e ->
           fst (analyzeTrendWithAI J trendTitle w) = Throw e /\
           fst (analyzeGlobalTrends J trends w) = Throw e) /\
        (fst (completion (parseEvents J) w) = Throw e ->
           fst (identifyBigEvents J trends w) = Throw e))
  /\ (forall e, isMissingKey e = false ->
        (fst (completion (parseAnalysis J) w) = Throw e ->
           fst (analyzeTrendWithAI J trendTitle w)
             = Ok {| data := fallbackAnalysis; usage := None |} /\
           fst (analyzeGlobalTrends J trends w) = Throw (Error "Analysis failed")) /\
        (fst (completion (parseEvents J) w) = Throw e ->
           fst (identifyBigEvents J trends w)
             = Ok {| data := Some []; usage := None |}))
  /\ fallbackAnalysis =
       {| viralityScore := 0;
          sentiment := {| label := "未知"; analysis := "分析服务暂不可用" |};
          domain := {| label := "未知"; analysis := "分析服务暂不可用" |};
          contentForm := {| label := "未知"; analysis := "分析服务暂不可用" |};
          lifecycle := {| label := "未知"; analysis := "分析服务暂不可用" |};
          keywords := ["错误"; "配置"; "API"] |}.
Proof.
  split.
  { intros Hkey.
    rewrite (analyzeTrendWithAI_throw J trendTitle w (Error "MISSING_API_KEY")),
            (analyzeGlobalTrends_throw J trends w (Error "MISSING_API_KEY")),
            (identifyBigEvents_throw J trends w (Error "MISSING_API_KEY"));
      try (rewrite completion_no_key; [reflexivity | exact Hkey]).
    repeat split. }
  split.
  { intros e He. split.
    - intros H. rewrite (analyzeTrendWithAI_throw J trendTitle w e H),
                        (analyzeGlobalTrends_throw J trends w e H), He. split; reflexivity.
    - intros H. rewrite (identifyBigEvents_throw J trends w e H), He. reflexivity. }
  split; [|reflexivity].
  intros e He. split.
  - intros H. rewrite (analyzeTrendWithAI_throw J trendTitle w e H),
                      (analyzeGlobalTrends_throw J trends w e H), He. split; reflexivity.
  - intros H. rewrite (identifyBigEvents_throw J trends w e H), He. reflexivity.
Qed.

(** The policies at work: with a stored key and a chat service out of
    reach, and with no key at all. *)
Lemma analysis_failure_policies_witness :
  (fst (analyzeTrendWithAI JsonText.json "话题" Examples.unreachable)
     = Ok {| data := fallbackAnalysis; usage := None |} /\
   fst (analyzeGlobalTrends JsonText.json [Examples.someTrend] Examples.unreachable)
     = Throw (Error "Analysis failed") /\
   fst (identifyBigEvents JsonText.json [Examples.someTrend] Examples.unreachable)
     = Ok {| data := Some []; usage := None |})
  /\ (fst (analyzeTrendWithAI JsonText.json "话题" Examples.offline)
        = Throw (Error "MISSING_API_KEY") /\
      fst (analyzeGlobalTrends JsonText.json [Examples.someTrend] Examples.offline)
        = Throw (Error "MISSING_API_KEY") /\
      fst (identifyBigEvents JsonText.json [Examples.someTrend] Examples.offline)
        = Throw (Error "MISSING_API_KEY")).
Proof.
  split.
  - destruct (analysis_failure_policies JsonText.json Examples.unreachable
                "话题" [Examples.someTrend]) as (_ & _ & Hother & _).
    destruct (Hother TypeError eq_refl) as [Ha He].
    destruct (Ha eq_refl) as [H1 H2]. pose proof (He eq_refl) as H3.
    split; [exact H1|]. split; [exact H2 | exact H3].
  - destruct (analysis_failure_policies JsonText.json Examples.offline
                "话题" [Examples.someTrend]) as (Hkey & _).
    apply Hkey. reflexivity.
Defined.

(** C4, as the specification words it, fails: a failure with a key stored
    is not always treated as another failure. When the chat service refuses
    the request with the message MISSING_API_KEY, the three operations pass
    that error on: there is no fallback record, no "Analysis failed" and no
    empty list of events. *)
Lemma analysis_failure_by_message :
  ~ (forall (J : Json) (w : World) (trendTitle : string) (trends : list TrendItem)
            (e : exn),
       truthyOptString (localStorage w !! API_KEY_STORAGE_KEY) = true ->
       fst (callDeepSeek w) = Throw e ->
       fst (analyzeTrendWithAI J trendTitle w)
         = Ok {| data := fallbackAnalysis; usage := None |} /\
       fst (analyzeGlobalTrends J trends w) = Throw (Error "Analysis failed") /\
       fst (identifyBigEvents J trends w) = Ok {| data := Some []; usage := None |}).
Proof.
  intros H.
  destruct (H JsonText.json Samples.mistaken "话题" [Examples.someTrend]
              (Error "MISSING_API_KEY") eq_refl eq_refl) as (H1 & _).
  vm_compute in H1. discriminate H1.
Qed.

(** An HTTP error of the chat service is an error of the other kind. *)
Example analyzeTrendWithAI_refused :
  fst (completion (parseAnalysis JsonText.json) Examples.refused)
    = Throw (Error "Authentication Fails") /\
  fst (analyzeTrendWithAI JsonText.json "话题" Examples.refused)
    = Ok {| data := fallbackAnalysis; usage := None |}.
Proof. split; reflexivity. Qed.

(** ** The concrete [JSON] reads back what it writes *)

Section JsonRoundTrip.

Import JsonText.

Lemma append_assoc (a b c : string) : (a +:+ b) +:+ c = a +:+ (b +:+ c).
Proof. induction a as [|x a IH]; norm_append; [reflexivity | rewrite IH; reflexivity]. Qed.

Lemma readChars_escapeChar (c : ascii) (x : string) :
  readChars (escapeChar c +:+ x) = prepend (String c EmptyString) (readChars x).
Proof.
  destruct c as [[] [] [] [] [] [] [] []]; reflexivity.
Qed.

Lemma readChars_escape (s rest : string) :
  readChars (escape s +:+ String quote rest) = Some (s, rest).
Proof.
  induction s as [|c s IH].
  - reflexivity.
  - cbn [escape]. rewrite append_assoc, readChars_escapeChar, IH. reflexivity.
Qed.

Lemma readDigits_print (d : Decimal.uint) (c : ascii) (rest : string) :
  digitOf c = None ->
  readDigits (NilEmpty.string_of_uint d +:+ String c rest) = (d, String c rest).
Proof.
  intros Hc. induction d; cbn [NilEmpty.string_of_uint]; norm_append;
    [cbn [readDigits]; rewrite Hc; reflexivity | ..];
    cbn [readDigits digitOf]; rewrite IHd; reflexivity.
Qed.

Lemma to_uint_no_leading_zero (p : positive) (d : Decimal.uint) :
  Pos.to_uint p <> Decimal.D0 d.
Proof.
  intros H.
  pose proof (Unsigned.to_of (Pos.to_uint p)) as Hn.
  rewrite Unsigned.of_to in Hn. cbn [N.to_uint] in Hn.
  rewrite H in Hn. rewrite unorm_D0 in Hn. unfold Decimal.unorm in Hn.
  destruct (Decimal.nzhead d) eqn:Hd;
    try (symmetry in Hn; rewrite <- Hd in Hn; exact (nzhead_nonzero d d Hn)).
  injection Hn as ->. exact (Unsigned.to_uint_nonzero p H).
Qed.

Lemma asInteger_of (q : Q) (z : Z) :
  q == inject_Z z -> asInteger (Number q) = Some z.
Proof.
  intros H. unfold asInteger.
  rewrite (Qred_complete q (inject_Z z) H).
  rewrite Qcanon.Qred_identity by (simpl; apply Z.gcd_1_r).
  reflexivity.
Qed.

Lemma readUnsigned_print (p : positive) (rest : string) :
  readUnsigned (NilEmpty.string_of_uint (Pos.to_uint p) +:+ String "," rest)
  = Some ((inject_Z (Z.pos p) + 0) * Qpower 10 0, String "," rest)%Q.
Proof.
  unfold readUnsigned, readInt. rewrite readDigits_print by reflexivity.
  assert (Hv : Z.of_uint (Pos.to_uint p) = Z.pos p).
  { unfold Z.of_uint. rewrite Unsigned.of_to. reflexivity. }
  pose proof (Unsigned.to_uint_nonnil p) as Hnn.
  pose proof (to_uint_no_leading_zero p) as Hnz.
  destruct (Pos.to_uint p) as [|d|d|d|d|d|d|d|d|d|d]; try congruence;
    try (exfalso; exact (Hnz d eq_refl)); rewrite Hv; reflexivity.
Qed.

Lemma readNumber_integer (z : Z) (rest : string) :
  exists q, readNumber (integer z +:+ String "," rest) = Some (q, String "," rest) /\
            asInteger (Number q) = Some z.
Proof.
  destruct z as [|p|p].
  - eexists. split; [reflexivity|]. reflexivity.
  - exists ((inject_Z (Z.pos p) + 0) * Qpower 10 0)%Q. split.
    + unfold integer. cbn [Z.to_int NilZero.string_of_int].
      unfold NilZero.string_of_uint.
      pose proof (Unsigned.to_uint_nonnil p) as Hnn.
      rewrite <- (readUnsigned_print p rest).
      destruct (Pos.to_uint p) as [|d|d|d|d|d|d|d|d|d|d]; try congruence; reflexivity.
    + apply asInteger_of. simpl Qpower. ring.
  - exists (- ((inject_Z (Z.pos p) + 0) * Qpower 10 0))%Q. split.
    + unfold integer. cbn [Z.to_int NilZero.string_of_int].
      unfold NilZero.string_of_uint.
      pose proof (Unsigned.to_uint_nonnil p) as Hnn.
      norm_append. cbn [readNumber].
      replace (match Pos.to_uint p with Decimal.Nil => "0" | _ => NilEmpty.string_of_uint (Pos.to_uint p) end)
        with (NilEmpty.string_of_uint (Pos.to_uint p))
        by (destruct (Pos.to_uint p); congruence).
      rewrite readUnsigned_print. reflexivity.
    + apply asInteger_of. simpl Qpower.
      change (inject_Z (Z.neg p)) with (- inject_Z (Z.pos p))%Q. ring.
Qed.

Lemma parseValue_literal (fuel : nat) (s rest : string) :
  parseValue (S fuel) (literal s +:+ rest) = Some (Str s, rest).
Proof.
  unfold literal. norm_append. rewrite append_assoc. norm_append.
  cbn [parseValue skipWs]. change (isWhitespace quote) with false. cbv iota.
  change (Ascii.eqb quote quote) with true. cbv iota.
  rewrite readChars_escape. reflexivity.
Qed.

Lemma readChars_literal (s rest : string) :
  readChars (escape s +:+ String quote EmptyString +:+ rest) = Some (s, rest).
Proof. norm_append. apply readChars_escape. Qed.

Section Members.

Variable pv : string -> option (value * string).

Lemma parseMembers_more (fuel : nat) (k t : string) (v : value) (rest : string) :
  pv t = Some (v, String "," rest) ->
  parseMembers pv (S fuel) (literal k +:+ String ":" t)
  = match parseMembers pv fuel rest with
    | Some (ms, r) => Some ((k, v) :: ms, r)
    | None => None
    end.
Proof.
  intros Hv. unfold literal. norm_append. rewrite append_assoc. norm_append.
  cbn [parseMembers skipWs]. change (isWhitespace quote) with false. cbv iota.
  change (Ascii.eqb quote quote) with true. cbv iota.
  rewrite readChars_escape. cbn [skipWs]. change (isWhitespace ":") with false.
  cbv iota. rewrite Hv. cbn [skipWs]. change (isWhitespace ",") with false.
  cbv iota. reflexivity.
Qed.

Lemma parseMembers_last (fuel : nat) (k t : string) (v : value) (rest : string) :
  pv t = Some (v, String "}" rest) ->
  parseMembers pv (S fuel) (literal k +:+ String ":" t)
  = Some ([(k, v)], rest).
Proof.
  intros Hv. unfold literal. norm_append. rewrite append_assoc. norm_append.
  cbn [parseMembers skipWs]. change (isWhitespace quote) with false. cbv iota.
  change (Ascii.eqb quote quote) with true. cbv iota.
  rewrite readChars_escape. cbn [skipWs]. change (isWhitespace ":") with false.
  cbv iota. rewrite Hv. cbn [skipWs]. change (isWhitespace "}") with false.
  cbv iota. reflexivity.
Qed.

End Members.

Lemma parseValue_object (fuel : nat) (k rest : string) :
  parseValue (S fuel) (String "{" (literal k +:+ rest))
  = match parseMembers (parseValue fuel) fuel (literal k +:+ rest) with
    | Some (ms, r) => Some (Obj ms, r)
    | None => None
    end.
Proof.
  unfold literal. norm_append. cbn [parseValue skipWs].
  change (isWhitespace "{") with false. change (isWhitespace quote) with false.
  cbv iota. reflexivity.
Qed.

Lemma printDimension_eq (d : GeneDimension) (rest : string) :
  printDimension d +:+ rest
  = String "{" (literal "label" +:+ String ":" (literal (label d) +:+ String ","
      (literal "analysis" +:+ String ":" (literal (analysis d) +:+ String "}" rest)))).
Proof. unfold printDimension. rewrite !append_assoc. reflexivity. Qed.

Lemma parseValue_dimension (fuel : nat) (d : GeneDimension) (rest : string) :
  parseValue (S (S (S fuel))) (printDimension d +:+ rest)
  = Some (dimensionValue d, rest).
Proof.
  rewrite printDimension_eq, parseValue_object.
  erewrite parseMembers_more by apply parseValue_literal.
  erewrite parseMembers_last by apply parseValue_literal.
  reflexivity.
Qed.

Lemma commaSeparated_cons (x y : string) (l : list string) :
  commaSeparated (x :: y :: l) = x +:+ String "," (commaSeparated (y :: l)).
Proof. reflexivity. Qed.

Lemma parseElements_S (pv : string -> option (value * string)) (fuel : nat) (s : string) :
  parseElements pv (S fuel) s
  = match pv s with
    | Some (v, rest) =>
        match skipWs rest with
        | String ","%char rest' =>
            match parseElements pv fuel rest' with
            | Some (vs, r) => Some (v :: vs, r)
            | None => None
            end
        | String "]"%char rest' => Some ([v], rest')
        | _ => None
        end
    | None => None
    end.
Proof. reflexivity. Qed.

Lemma parseElements_strings (f : nat) (kws : list string) :
  forall (k0 : string) (fuel : nat) (rest : string),
    length kws <= fuel ->
    parseElements (parseValue (S f)) (S fuel)
      (commaSeparated (map literal (k0 :: kws)) +:+ String "]" rest)
    = Some (map Str (k0 :: kws), rest).
Proof.
  induction kws as [|k1 kws IH]; intros k0 fuel rest Hfuel; rewrite parseElements_S.
  - cbn [map commaSeparated]. rewrite parseValue_literal.
    cbn [skipWs]. change (isWhitespace "]") with false. reflexivity.
  - cbn [map]. rewrite commaSeparated_cons, append_assoc.
    rewrite parseValue_literal, append_cons.
    cbn [skipWs]. change (isWhitespace ",") with false. cbv iota.
    change (literal k1 :: map literal kws) with (map literal (k1 :: kws)).
    destruct fuel as [|fuel]; [simpl in Hfuel; lia|].
    rewrite IH by (simpl in Hfuel; lia). reflexivity.
Qed.

Lemma parseValue_array (fuel : nat) (body : string) :
  parseValue (S fuel) (String "[" (String quote body))
  = match parseElements (parseValue fuel) fuel (String quote body) with
    | Some (vs, r) => Some (Arr vs, r)
    | None => None
    end.
Proof. reflexivity. Qed.

Lemma parseValue_strings (fuel : nat) (kws : list string) (rest : string) :
  length kws <= fuel ->
  parseValue (S fuel) (String "[" (commaSeparated (map literal kws) +:+ String "]" rest))
  = Some (Arr (map Str kws), rest).
Proof.
  intros Hfuel. destruct kws as [|k0 kws].
  - reflexivity.
  - destruct fuel as [|f]; [simpl in Hfuel; lia|].
    pose proof (parseElements_strings f kws k0 f rest) as H.
    assert (Hhead : exists body, commaSeparated (map literal (k0 :: kws)) +:+ String "]" rest
                                 = String quote body).
    { destruct kws; cbn [map commaSeparated]; unfold literal; norm_append; eauto. }
    destruct Hhead as [body Hbody].
    rewrite Hbody in *. rewrite parseValue_array.
    rewrite H by (simpl in Hfuel; lia). reflexivity.
Qed.

Lemma parseValue_number (fuel : nat) (c : ascii) (r : string) :
  numberHead c = true ->
  parseValue (S fuel) (String c r)
  = match readNumber (String c r) with
    | Some (q, r') => Some (Number q, r')
    | None => None
    end.
Proof.
  destruct c as [[] [] [] [] [] [] [] []]; intros H; try discriminate H; reflexivity.
Qed.

Lemma integer_head (z : Z) :
  exists c r, integer z = String c r /\ numberHead c = true.
Proof.
  destruct z as [|p|p]; unfold integer; cbn [Z.to_int NilZero.string_of_int];
    unfold NilZero.string_of_uint.
  - eexists _, _. split; reflexivity.
  - destruct (Pos.to_uint p); eexists _, _; split; reflexivity.
  - eexists _, _. split; reflexivity.
Qed.

Lemma parseValue_integer (fuel : nat) (z : Z) (rest : string) :
  exists q,
    parseValue (S fuel) (integer z +:+ String "," rest) = Some (Number q, String "," rest) /\
    asInteger (Number q) = Some z.
Proof.
  destruct (readNumber_integer z rest) as (q & Hread & Hq).
  exists q. split; [|exact Hq].
  destruct (integer_head z) as (c & r & Hz & Hc).
  rewrite Hz in *. norm_append.
  rewrite (parseValue_number fuel c _ Hc), Hread. reflexivity.
Qed.

Lemma readAll_strings (kws : list string) :
  readAll asString (map Str kws) = Some kws.
Proof.
  induction kws as [|k kws IH]; [reflexivity|].
  cbn [map readAll asString]. rewrite IH. reflexivity.
Qed.

Lemma decodeDimension_value (d : GeneDimension) :
  decodeDimension (dimensionValue d) = Some d.
Proof. destruct d. reflexivity. Qed.

Lemma length_append (a b : string) :
  String.length (a +:+ b) = String.length a + String.length b.
Proof. induction a as [|c a IH]; norm_append; simpl; [reflexivity | rewrite IH; reflexivity]. Qed.

Lemma length_commaSeparated (kws : list string) :
  length kws <= String.length (commaSeparated (map literal kws)).
Proof.
  induction kws as [|k kws IH]; [simpl; lia|].
  destruct kws as [|k1 kws].
  - cbn [map commaSeparated]. unfold literal. cbn [String.length length]. lia.
  - cbn [map] in *. rewrite commaSeparated_cons, length_append.
    cbn [String.length length] in *. lia.
Qed.

Lemma stringify_eq (a : GeneMapAnalysis) :
  stringify a
  = String "{" (literal "viralityScore" +:+ String ":" (integer (viralityScore a) +:+ String ","
      (literal "sentiment" +:+ String ":" (printDimension (sentiment a) +:+ String ","
      (literal "domain" +:+ String ":" (printDimension (domain a) +:+ String ","
      (literal "contentForm" +:+ String ":" (printDimension (contentForm a) +:+ String ","
      (literal "lifecycle" +:+ String ":" (printDimension (lifecycle a) +:+ String ","
      (literal "keywords" +:+ String ":" (String "[" (commaSeparated (map literal (keywords a))
         +:+ String "]" (String "}" EmptyString)))))))))))))).
Proof. reflexivity. Qed.

Lemma parseValue_stringify (fuel : nat) (a : GeneMapAnalysis) :
  length (keywords a) <= fuel ->
  exists v,
    parseValue (S (S (S (S (S (S (S (S fuel)))))))) (stringify a) = Some (v, EmptyString) /\
    decodeAnalysis v = Some a.
Proof.
  intros Hfuel.
  set (f := S (S (S (S (S (S fuel)))))).
  pose proof (stringify_eq a) as Hs.
  match type of Hs with
  | context [integer _ +:+ String "," ?r] =>
      destruct (parseValue_integer f (viralityScore a) r) as (q & Hq & Hint)
  end.
  exists (Obj [("viralityScore", Number q);
               ("sentiment", dimensionValue (sentiment a));
               ("domain", dimensionValue (domain a));
               ("contentForm", dimensionValue (contentForm a));
               ("lifecycle", dimensionValue (lifecycle a));
               ("keywords", Arr (map Str (keywords a)))]).
  split.
  - rewrite Hs.
    change (S (S (S (S (S (S (S (S fuel)))))))) with (S (S f)).
    rewrite parseValue_object.
    erewrite parseMembers_more by exact Hq.
    unfold f at 2.
    do 4 (erewrite parseMembers_more by apply parseValue_dimension).
    erewrite parseMembers_last by (apply parseValue_strings; unfold f; lia).
    reflexivity.
  - unfold decodeAnalysis, field.
    change (member "viralityScore" _) with (Some (Number q)).
    cbn [andThen]. rewrite Hint. cbn [andThen].
    change (member "sentiment" _) with (Some (dimensionValue (sentiment a))).
    change (member "domain" _) with (Some (dimensionValue (domain a))).
    change (member "contentForm" _) with (Some (dimensionValue (contentForm a))).
    change (member "lifecycle" _) with (Some (dimensionValue (lifecycle a))).
    change (member "keywords" _) with (Some (Arr (map Str (keywords a)))).
    cbn [andThen asArray]. rewrite !decodeDimension_value, readAll_strings.
    cbn [andThen]. destruct a. reflexivity.
Qed.

(** Every analysis record is serializable with the concrete [JSON]. *)
Theorem parse_stringify (a : GeneMapAnalysis) :
  serializable json a.
Proof.
  unfold serializable. cbn [parseAnalysis stringifyAnalysis json]. unfold parse.
  assert (Hge : 7 + length (keywords a) <= String.length (stringify a)).
  { rewrite stringify_eq.
    repeat (rewrite length_append || cbn [String.length]).
    pose proof (length_commaSeparated (keywords a)). lia. }
  assert (Hlen : exists fuel, String.length (stringify a) = S (S (S (S (S (S (S fuel)))))) /\
                              length (keywords a) <= fuel).
  { exists (String.length (stringify a) - 7). split; lia. }
  destruct Hlen as (fuel & -> & Hfuel).
  destruct (parseValue_stringify fuel a Hfuel) as (v & Hv & Hdec).
  rewrite Hv. cbn [skipWs andThen]. exact Hdec.
Qed.

End JsonRoundTrip.

(** The reader on a few texts. *)
Example JsonText_parse_examples :
  JsonText.parse EmptyString = None /\
  JsonText.parse "01" = None /\
  JsonText.parse "[1,]" = None /\
  JsonText.parse " [ 1 , -2.5e1 , true , null ] "
    = Some (JsonText.Arr [JsonText.Number 1; JsonText.Number (-25.0);
                          JsonText.Bool true; JsonText.Null]).
Proof. repeat split; vm_compute; reflexivity. Qed.

(** ** The analysis cache *)

Lemma cacheGet_eq (J : Json) (title : string) (w : World) :
  AnalysisModal.cacheGet J title w =
  match localStorage w !! AnalysisModal.cacheKey title with
  | Some cachedData =>
      if truthyString cachedData then
        match parseAnalysis J cachedData with
        | Some parsed => (Ok (Some parsed), w)
        | None => (Ok None, withStorage (delete (AnalysisModal.cacheKey title)) w)
        end
      else (Ok None, w)
  | None => (Ok None, w)
  end.
Proof.
  unfold AnalysisModal.cacheGet, bind, Storage.getItem.
  destruct (localStorage w !! AnalysisModal.cacheKey title) as [s|]; [|reflexivity].
  cbn [truthyOptString default]. destruct (truthyString s); [|reflexivity].
  unfold tryCatch, bind, JSON_parse, id.
  destruct (parseAnalysis J s); reflexivity.
Qed.

Lemma cachePut_eq (J : Json) (title : string) (a : GeneMapAnalysis) (w : World) :
  AnalysisModal.cachePut J title a w =
  (Ok tt, withStorage (insert (AnalysisModal.cacheKey title) (stringifyAnalysis J a)) w).
Proof. reflexivity. Qed.

Lemma serializable_truthy (J : Json) (a : GeneMapAnalysis) :
  parseAnalysis J EmptyString = None ->
  serializable J a ->
  truthyString (stringifyAnalysis J a) = true.
Proof.
  unfold serializable. intros Hempty Ha.
  destruct (stringifyAnalysis J a); [congruence | reflexivity].
Qed.

(** A cache hit: the stored text of a serializable record is read back and
    nothing changes. *)
Lemma cacheGet_hit (J : Json) (title : string) (a : GeneMapAnalysis) (w : World) :
  parseAnalysis J EmptyString = None ->
  serializable J a ->
  localStorage w !! AnalysisModal.cacheKey title = Some (stringifyAnalysis J a) ->
  AnalysisModal.cacheGet J title w = (Ok (Some a), w).
Proof.
  intros Hempty Ha Hw. rewrite cacheGet_eq, Hw.
  rewrite (serializable_truthy J a Hempty Ha). rewrite Ha. reflexivity.
Qed.

(** C5, as the code has it. For a [JSON.parse] that rejects the empty text:
    after [put] of a serializable record under a title, [get] of that title
    returns the record and leaves the store as it is; and when the entry of
    a title is a text that is not empty and does not parse, [get] reports
    absent, does not throw, and removes that entry and no other. *)
Theorem cache_get_put (J : Json) (title : string) (w : World) :
  parseAnalysis J EmptyString = None ->
  (forall a, serializable J a ->
     let w1 := snd (AnalysisModal.cachePut J title a w) in
     AnalysisModal.cacheGet J title w1 = (Ok (Some a), w1))
  /\ (forall s, localStorage w !! AnalysisModal.cacheKey title = Some s ->
        s <> EmptyString ->
        parseAnalysis J s = None ->
        let w1 := snd (AnalysisModal.cacheGet J title w) in
        fst (AnalysisModal.cacheGet J title w) = Ok None /\
        localStorage w1 !! AnalysisModal.cacheKey title = None /\
        forall k, k <> AnalysisModal.cacheKey title ->
                  localStorage w1 !! k = localStorage w !! k).
Proof.
  intros Hempty. split.
  - intros a Ha w1. subst w1. rewrite cachePut_eq. cbn [snd].
    apply cacheGet_hit; [exact Hempty | exact Ha|].
    simpl. apply lookup_insert_eq.
  - intros s Hs Hne Hparse w1. subst w1. rewrite cacheGet_eq, Hs.
    destruct s as [|c s]; [congruence|]. cbn [truthyString].
    rewrite Hparse. cbn [fst snd]. split; [reflexivity|]. split.
    + simpl. apply lookup_delete_eq.
    + intros k Hk. simpl. apply lookup_delete_ne. congruence.
Qed.

Lemma cache_get_put_witness :
  (forall a,
     let w1 := snd (AnalysisModal.cachePut JsonText.json "话题" a Examples.corruptEntry) in
     AnalysisModal.cacheGet JsonText.json "话题" w1 = (Ok (Some a), w1))
  /\ (let w1 := snd (AnalysisModal.cacheGet JsonText.json "话题" Examples.corruptEntry) in
      fst (AnalysisModal.cacheGet JsonText.json "话题" Examples.corruptEntry) = Ok None /\
      localStorage w1 !! AnalysisModal.cacheKey "话题" = None).
Proof.
  destruct (cache_get_put JsonText.json "话题" Examples.corruptEntry) as [Hput Hget].
  - reflexivity.
  - split.
    + intros a. apply Hput. apply parse_stringify.
    + destruct (Hget "{oops") as (Habsent & Hgone & _).
      * reflexivity.
      * discriminate.
      * reflexivity.
      * split; [exact Habsent | exact Hgone].
Defined.

(** Both behaviours, run: the fallback record comes back from the cache,
    and a corrupt entry is removed. *)
Example cache_roundtrip_example :
  serializable JsonText.json fallbackAnalysis /\
  fst (AnalysisModal.cacheGet JsonText.json "话题"
         (snd (AnalysisModal.cachePut JsonText.json "话题" fallbackAnalysis Examples.offline)))
  = Ok (Some fallbackAnalysis).
Proof. split; vm_compute; reflexivity. Qed.

Example cache_corrupt_example :
  parseAnalysis JsonText.json "{oops" = None /\
  fst (AnalysisModal.cacheGet JsonText.json "话题" Examples.corruptEntry) = Ok None /\
  localStorage (snd (AnalysisModal.cacheGet JsonText.json "话题" Examples.corruptEntry))
    !! AnalysisModal.cacheKey "话题" = None.
Proof. split; [|split]; vm_compute; reflexivity. Qed.

(** C5, as the specification words it, fails for an entry that holds the
    empty text: the text does not parse, [get] reports absent, and the
    entry is still there afterwards. *)
Lemma cacheGet_empty_entry :
  ~ (forall (J : Json) (title : string) (w : World) (s : string),
       parseAnalysis J EmptyString = None ->
       localStorage w !! AnalysisModal.cacheKey title = Some s ->
       parseAnalysis J s = None ->
       fst (AnalysisModal.cacheGet J title w) = Ok None /\
       localStorage (snd (AnalysisModal.cacheGet J title w))
         !! AnalysisModal.cacheKey title = None).
Proof.
  intros H.
  destruct (H JsonText.json "话题" Examples.emptyEntry EmptyString) as [_ Hgone].
  - reflexivity.
  - vm_compute. reflexivity.
  - reflexivity.
  - vm_compute in Hgone. discriminate Hgone.
Qed.

Lemma callDeepSeek_storage (w : World) :
  localStorage (snd (callDeepSeek w)) = localStorage w.
Proof.
  unfold callDeepSeek, bind, getApiKey, Storage.getItem, fetchChat.
  destruct (truthyOptString (localStorage w !! API_KEY_STORAGE_KEY)); cbn [negb]; [|reflexivity].
  cbv beta iota. destruct (chatReplies w 0); reflexivity.
Qed.

Lemma completion_storage {T : Type} (parser : string -> option T) (w : World) :
  localStorage (snd (completion parser w)) = localStorage w.
Proof.
  pose proof (callDeepSeek_storage w) as H.
  unfold completion, bind. destruct (callDeepSeek w) as [[r|e] w']; simpl in H; [|exact H].
  unfold JSON_parse. destruct (parser (fst r)); exact H.
Qed.

Lemma analyzeTrendWithAI_storage (J : Json) (trendTitle : string) (w : World) :
  localStorage (snd (analyzeTrendWithAI J trendTitle w)) = localStorage w.
Proof.
  pose proof (completion_storage (parseAnalysis J) w) as H.
  unfold analyzeTrendWithAI, tryCatch.
  destruct (completion (parseAnalysis J) w) as [[r|e] w']; simpl in H; [exact H|].
  destruct (isMissingKey e); exact H.
Qed.

Lemma append_inj (p a b : string) : p +:+ a = p +:+ b -> a = b.
Proof.
  induction p as [|c p IH]; norm_append; [auto|]. intros [= H]. auto.
Qed.

Lemma cacheKey_inj (t1 t2 : string) :
  AnalysisModal.cacheKey t1 = AnalysisModal.cacheKey t2 -> t1 = t2.
Proof. apply append_inj. Qed.

Lemma cacheKey_not_api_key (t : string) :
  API_KEY_STORAGE_KEY <> AnalysisModal.cacheKey t.
Proof. unfold AnalysisModal.cacheKey. norm_append. discriminate. Qed.

(** The second step of the effect, "Fetch API if no cache", with the
    handlers of its promise. *)
Lemma effect_miss (J : Json) (trend : TrendItem) (st : AnalysisModal.State) (w : World) :
  fst (AnalysisModal.cacheGet J (title trend) w) = Ok None ->
  AnalysisModal.effect J (Some trend) st w =
  let w0 := snd (AnalysisModal.cacheGet J (title trend) w) in
  match analyzeTrendWithAI J (title trend) w0 with
  | (Ok response, w1) =>
      (Ok {| AnalysisModal.analysis := Some (data response);
             AnalysisModal.loading := false;
             AnalysisModal.error := None |},
       withStorage (insert (AnalysisModal.cacheKey (title trend))
                           (stringifyAnalysis J (data response))) w1)
  | (Throw err, w1) =>
      (Ok {| AnalysisModal.analysis := None;
             AnalysisModal.loading := false;
             AnalysisModal.error := Some (if isMissingKey err then "MISSING_KEY"
                                          else "DeepSeek 目前不可用") |}, w1)
  end.
Proof.
  intros H. unfold AnalysisModal.effect. unfold bind at 1.
  destruct (AnalysisModal.cacheGet J (title trend) w) as [[hit|e] w0]; simpl in H;
    [|discriminate]. injection H as ->. cbn [snd]. cbv zeta.
  unfold tryCatch, bind.
  destruct (analyzeTrendWithAI J (title trend) w0) as [[response|err] w1]; reflexivity.
Qed.


Lemma cacheGet_other_keys (J : Json) (t : string) (w : World) (k : string) :
  k <> AnalysisModal.cacheKey t ->
  localStorage (snd (AnalysisModal.cacheGet J t w)) !! k = localStorage w !! k.
Proof.
  intros Hk. rewrite cacheGet_eq.
  destruct (localStorage w !! AnalysisModal.cacheKey t) as [s|]; [|reflexivity].
  destruct (truthyString s); [|reflexivity].
  destruct (parseAnalysis J s); [reflexivity|].
  simpl. apply lookup_delete_ne. congruence.
Qed.

(** The effect writes to no key but the cache key of its own title. *)
Lemma effect_other_keys (J : Json) (trend : TrendItem) (st : AnalysisModal.State)
    (w : World) (k : string) :
  k <> AnalysisModal.cacheKey (title trend) ->
  localStorage (snd (AnalysisModal.effect J (Some trend) st w)) !! k = localStorage w !! k.
Proof.
  intros Hk.
  destruct (fst (AnalysisModal.cacheGet J (title trend) w)) as [[a|]|e] eqn:Hget.
  - unfold AnalysisModal.effect, bind.
    pose proof (cacheGet_other_keys J (title trend) w k Hk) as Hsame.
    destruct (AnalysisModal.cacheGet J (title trend) w) as [[hit|e] w0]; simpl in Hget;
      [|discriminate]. injection Hget as ->. exact Hsame.
  - rewrite (effect_miss J trend st w Hget). cbv zeta.
    set (w0 := snd (AnalysisModal.cacheGet J (title trend) w)).
    pose proof (analyzeTrendWithAI_storage J (title trend) w0) as Hs.
    destruct (analyzeTrendWithAI J (title trend) w0) as [[response|err] w1]; simpl in Hs |- *.
    + rewrite lookup_insert_ne by congruence. rewrite Hs.
      apply cacheGet_other_keys, Hk.
    + rewrite Hs. apply cacheGet_other_keys, Hk.
  - exfalso. rewrite cacheGet_eq in Hget.
    destruct (localStorage w !! AnalysisModal.cacheKey (title trend)) as [s|]; [|discriminate].
    destruct (truthyString s); [|discriminate].
    destruct (parseAnalysis J s); discriminate.
Qed.





(** The first failure costs one request; opening the modal again, even when
    the chat service would answer by then, costs none. *)
Example second_opening_costs_nothing :
  let w1 := snd (AnalysisModal.effect JsonText.json (Some Examples.someTrend)
                   Examples.closed Examples.unreachable) in
  let w2 := snd (AnalysisModal.effect JsonText.json (Some Examples.someTrend)
                   Examples.closed w1) in
  chatRequests Examples.unreachable = 0 /\ chatRequests w1 = 1 /\ chatRequests w2 = 1.
Proof. vm_compute. repeat split. Qed.

(** ** The dashboard *)

Lemma totalTokensOrZero_eq {T : Type} (r : AIResponse T) :
  App.totalTokensOrZero (usage r) = totalTokens r.
Proof.
  unfold App.totalTokensOrZero, totalTokens, truthyZ.
  destruct (usage r) as [u|]; [|reflexivity].
  destruct (Z.eqb_spec (total_tokens u) 0) as [->|_]; reflexivity.
Qed.

Lemma Promise_all2_eq {A B : Type} (p1 : Eff A) (p2 : Eff B) (b : bool) (w : World) :
  Promise_all2 p1 p2 b w =
  (match fst (p1 w), fst (p2 (snd (p1 w))) with
   | Ok a, Ok c => Ok (a, c)
   | Throw e, Ok _ => Throw e
   | Ok _, Throw e => Throw e
   | Throw e1, Throw e2 => Throw (if b then e2 else e1)
   end, snd (p2 (snd (p1 w)))).
Proof.
  unfold Promise_all2. destruct (p1 w) as [r1 w1]. cbn [fst snd].
  destruct (p2 w1) as [r2 w2]. reflexivity.
Qed.

(** C7. [handleRunGlobalAnalysis] on a dashboard that shows trends starts
    [analyzeGlobalTrends] and then [identifyBigEvents] and joins them. When
    both fulfil, the analysis and the events are shown and the token usage
    is the sum of the two [total_tokens], a response without usage counting
    for 0. When one of them rejects, the join rejects: nothing of either
    result is shown, the token usage stays as it was, and the failure is
    reported with an alert. *)
Theorem handleRunGlobalAnalysis_join (J : Json) (secondRejectsFirst : bool)
    (s : App.State) (w : World) :
  App.trends s <> [] ->
  let first := analyzeGlobalTrends J (App.trends s) w in
  let second := identifyBigEvents J (App.trends s) (snd first) in
  let join := Promise_all2 (analyzeGlobalTrends J (App.trends s))
                           (identifyBigEvents J (App.trends s))
                           secondRejectsFirst w in
  (forall analysisResult eventsResult,
     fst first = Ok analysisResult ->
     fst second = Ok eventsResult ->
     fst join = Ok (analysisResult, eventsResult) /\
     exists s',
       fst (App.handleRunGlobalAnalysis J secondRejectsFirst s w) = Ok s' /\
       App.tokenUsage s' = (totalTokens analysisResult + totalTokens eventsResult)%Z /\
       App.globalAnalysis s' = Some (data analysisResult) /\
       App.bigEvents s' = default [] (data eventsResult) /\
       App.analyzingGlobal s' = false /\
       App.alerts s' = App.alerts s)
  /\ ((exists e, fst first = Throw e) \/ (exists e, fst second = Throw e) ->
      (exists e, fst join = Throw e) /\
      exists s',
        fst (App.handleRunGlobalAnalysis J secondRejectsFirst s w) = Ok s' /\
        App.globalAnalysis s' = None /\
        App.bigEvents s' = [] /\
        App.tokenUsage s' = App.tokenUsage s /\
        App.analyzingGlobal s' = false /\
        App.alerts s' = App.alerts s ++ ["分析失败，请检查 API Key 或网络连接"]).
Proof.
  intros Htrends first second join.
  assert (Hjoin : join =
    (match fst first, fst second with
     | Ok a, Ok c => Ok (a, c)
     | Throw e, Ok _ => Throw e
     | Ok _, Throw e => Throw e
     | Throw e1, Throw e2 => Throw (if secondRejectsFirst then e2 else e1)
     end, snd second)) by apply Promise_all2_eq.
  assert (Hrun : App.handleRunGlobalAnalysis J secondRejectsFirst s w =
    match fst join with
    | Ok results =>
        (Ok (App.setAnalyzingGlobal false
               (App.setTokenUsage (App.totalTokensOrZero (usage (fst results))
                                   + App.totalTokensOrZero (usage (snd results)))%Z
                  (App.setBigEvents (default [] (data (snd results)))
                     (App.setGlobalAnalysis (Some (data (fst results)))
                        (App.setShowKeyUpdatePrompt false
                           (App.setBigEvents []
                              (App.setGlobalAnalysis None
                                 (App.setAnalyzingGlobal true s)))))))),
         snd join)
    | Throw e =>
        (Ok (App.setAnalyzingGlobal false
               (App.alert "分析失败，请检查 API Key 或网络连接"
                  (App.setShowKeyUpdatePrompt false
                     (App.setBigEvents []
                        (App.setGlobalAnalysis None
                           (App.setAnalyzingGlobal true s)))))),
         snd join)
    end).
  { unfold App.handleRunGlobalAnalysis.
    destruct (App.trends s) as [|t ts] eqn:Ht; [congruence|].
    unfold tryCatch, bind. cbn [App.trends App.setShowKeyUpdatePrompt App.setBigEvents
      App.setGlobalAnalysis App.setAnalyzingGlobal].
    rewrite Ht. unfold join, ret.
    destruct (Promise_all2 (analyzeGlobalTrends J (t :: ts))
                (identifyBigEvents J (t :: ts)) secondRejectsFirst w) as [[results|e] w'];
      reflexivity. }
  split.
  - intros analysisResult eventsResult H1 H2.
    assert (Hj : fst join = Ok (analysisResult, eventsResult)).
    { rewrite Hjoin. cbn [fst]. rewrite H1, H2. reflexivity. }
    split; [exact Hj|].
    rewrite Hrun, Hj. eexists. split; [reflexivity|].
    cbn [fst snd]. rewrite !totalTokensOrZero_eq. repeat split.
  - intros Hfail.
    assert (Hj : exists e, fst join = Throw e).
    { rewrite Hjoin. cbn [fst].
      destruct Hfail as [[e He]|[e He]]; rewrite He.
      - destruct (fst second); eauto.
      - destruct (fst first); eauto. }
    split; [exact Hj|]. destruct Hj as [e Hj].
    rewrite Hrun, Hj. eexists. split; [reflexivity|]. repeat split.
Qed.

Lemma handleRunGlobalAnalysis_join_witness :
  exists s',
    fst (App.handleRunGlobalAnalysis JsonText.json false Examples.showing Examples.answering)
      = Ok s' /\
    App.tokenUsage s' = 2000%Z /\
    App.bigEvents s' =
      [ {| BigEvent.title := "火灾后续"; BigEvent.reason := "包含后续字样";
           BigEvent.durationLabel := "已发酵3天" |} ].
Proof.
  destruct (handleRunGlobalAnalysis_join JsonText.json false
              Examples.showing Examples.answering) as [Hboth _].
  - discriminate.
  - cbv zeta in Hboth.
    destruct (fst (analyzeGlobalTrends JsonText.json (App.trends Examples.showing)
                     Examples.answering)) as [ra|e] eqn:Ha;
      [|vm_compute in Ha; discriminate Ha].
    destruct (fst (identifyBigEvents JsonText.json (App.trends Examples.showing)
                     (snd (analyzeGlobalTrends JsonText.json (App.trends Examples.showing)
                             Examples.answering)))) as [re|e] eqn:He;
      [|vm_compute in He; discriminate He].
    destruct (Hboth ra re eq_refl eq_refl) as (_ & s' & Hs' & Htok & _ & Hev & _).
    exists s'. split; [exact Hs'|].
    vm_compute in Ha. vm_compute in He.
    injection Ha as <-. injection He as <-.
    split; [exact Htok | exact Hev].
Defined.

(** With no key stored both calls reject, the join rejects and the alert is
    shown. *)
Example global_analysis_without_key :
  exists s',
    fst (App.handleRunGlobalAnalysis JsonText.json false Examples.showing Examples.offline)
      = Ok s' /\
    App.globalAnalysis s' = None /\ App.bigEvents s' = [] /\
    App.alerts s' = ["分析失败，请检查 API Key 或网络连接"].
Proof. eexists. vm_compute. repeat split. Qed.

(** Both requests are sent before either reply is looked at: with a stored
    key and a chat service out of reach, two requests have gone out when
    the handler is done. *)
Example global_analysis_sends_both :
  chatRequests
    (snd (App.handleRunGlobalAnalysis JsonText.json false
            Examples.showing Examples.unreachable)) = 2.
Proof. vm_compute. reflexivity. Qed.

(** ** The refresh guard *)

(** [loadTrends] called with [refreshing] set leaves the state and the
    world as they are. *)
Lemma loadTrends_guarded (J : Json) (showSkeleton : bool) (s : App.State) (w : World) :
  App.loadTrends J true showSkeleton s w = (Ok s, w).
Proof. reflexivity. Qed.

(** [loadTrends] called with [refreshing] clear ends with the flags
    [loading] and [refreshing] clear and with as many trends as the source
    chain returned. *)
Lemma loadTrends_runs (J : Json) (showSkeleton : bool) (s : App.State) (w : World) :
  exists s',
    fst (App.loadTrends J false showSkeleton s w) = Ok s' /\
    App.refreshing s' = false /\ App.loading s' = false /\
    fst (fetchTrends J w) = Ok (App.trends s').
Proof.
  destruct (fetchTrends_fulfils J w) as (items & Hitems).
  unfold App.loadTrends, App.loadTrends_call.
  destruct (fetchTrends J w) as [fetched w'] eqn:Hf. simpl in Hitems. subst fetched.
  eexists. split; [reflexivity|]. destruct showSkeleton; repeat split.
Qed.

(** A call of [loadTrends] whose closure has [refreshing] set returns at
    once and changes nothing. *)
Lemma loadTrends_call_guard (showSkeleton : bool) (s : App.State) :
  App.loadTrends_call true showSkeleton s = (s, false).
Proof. reflexivity. Qed.

(** Without the timer the guard holds: from the mounted component, mounting
    once and then any clicks and settled fetches never leave two calls of
    [loadTrends] suspended. *)
Lemma guarded_without_timer (events : list App.Event) (rt : App.Runtime) :
  guarded rt ->
  Forall noTick events ->
  (forall e, In e events -> e <> App.Mount) ->
  guarded (App.run events rt).
Proof.
  revert rt. unfold App.run.
  induction events as [|e events IH]; intros rt Hrt Hno Hmount; [exact Hrt|].
  cbn [fold_left]. inversion Hno as [|? ? He Hrest]; subst.
  apply IH; [|exact Hrest | intros e' He'; apply Hmount; right; exact He'].
  destruct e as [| | |fetched]; simpl in He.
  - exfalso. apply (Hmount App.Mount); [left|]; reflexivity.
  - contradiction.
  - unfold App.step. destruct (App.refreshing (App.state rt)) eqn:Hr; [exact Hrt|].
    destruct Hrt as [[Ht _]|[_ Hz]]; [congruence|].
    left. unfold App.invoke, App.loadTrends_call. simpl. rewrite Hz. auto.
  - unfold App.step. destruct Hrt as [[Ht Hone]|[Hf Hz]].
    + rewrite Hone. right. unfold App.loadTrends_resume. destruct fetched; simpl; auto.
    + rewrite Hz. right. auto.
Qed.

(** With the timer it does not: whenever a refresh is in flight, a tick of
    the timer starts a second one. *)
Lemma timer_ignores_guard (rt : App.Runtime) :
  guarded rt ->
  App.refreshing (App.state rt) = true ->
  App.inFlight (App.step rt App.TimerTick) = 2 /\
  App.fetchCalls (App.step rt App.TimerTick) = S (App.fetchCalls rt) /\
  ~ guarded (App.step rt App.TimerTick).
Proof.
  intros [[_ Hone]|[Hf _]] Hr; [|congruence].
  unfold App.step, App.invoke, App.loadTrends_call. cbn [App.refreshing App.initial].
  cbn [App.inFlight App.fetchCalls App.state]. rewrite Hone.
  split; [reflexivity|]. split; [reflexivity|].
  intros [[_ H]|[_ H]]; cbn [App.inFlight] in H; discriminate H.
Qed.

(** C9. The guard of [loadTrends] does not keep refreshes apart. After the
    first load has settled, a click on the refresh button starts a refresh;
    while it is in flight the flag [refreshing] is set and one call is
    suspended. The timer then calls the [loadTrends] of the first render,
    whose [refreshing] is still [false]: the call passes the guard, calls
    [fetchTrends] again, and two refreshes are in flight. *)
Theorem timer_overlaps_refresh :
  let before := App.run [App.Mount; App.FetchSettles (Ok []); App.ClickRefresh] App.mounted in
  let after := App.step before App.TimerTick in
  guarded before /\
  App.refreshing (App.state before) = true /\
  App.inFlight before = 1 /\
  App.inFlight after = 2 /\
  App.fetchCalls after = S (App.fetchCalls before) /\
  ~ guarded after.
Proof.
  cbv zeta. split; [left; split; reflexivity|].
  repeat (split; [reflexivity|]).
  intros [[_ H]|[H _]]; vm_compute in H; discriminate H.
Qed.

(** * Further properties *)

(** ** The services: requests, draws and order *)

Lemma onlyDraws_refl (w : World) : onlyDraws w w.
Proof. repeat split. Qed.

Lemma onlyDraws_trans (w1 w2 w3 : World) :
  onlyDraws w1 w2 -> onlyDraws w2 w3 -> onlyDraws w1 w3.
Proof.
  unfold onlyDraws. intros (a1 & a2 & a3 & a4 & a5) (b1 & b2 & b3 & b4 & b5).
  repeat split; congruence.
Qed.

Lemma calculateHeatRise_onlyDraws (h : Q) (w : World) :
  onlyDraws w (snd (calculateHeatRise h w)).
Proof. rewrite calculateHeatRise_eq. repeat split. Qed.

Lemma callDeepSeek_count (w : World) :
  let w' := snd (callDeepSeek w) in
  chatRequests w' = (if keyStored w then S (chatRequests w) else chatRequests w) /\
  localStorage w' = localStorage w /\
  randoms w' = randoms w /\
  primaryReplies w' = primaryReplies w /\
  backupReplies w' = backupReplies w.
Proof.
  unfold callDeepSeek, keyStored, getApiKey, Storage.getItem, bind. cbn.
  destruct (truthyOptString (localStorage w !! API_KEY_STORAGE_KEY)); cbn.
  - destruct (chatReplies w 0); cbn; repeat split.
  - repeat split.
Qed.

Lemma afterDraws_S (n : nat) (w : World) :
  afterDraws (S n) w = afterDraws n (snd (Math_random w)).
Proof. unfold afterDraws. now rewrite Nat.iter_succ_r. Qed.

Lemma afterDraws_randoms (n : nat) (w : World) (k : nat) :
  randoms (afterDraws n w) k = randoms w (n + k).
Proof.
  revert w. induction n as [|n IH]; intros w; [reflexivity|].
  rewrite afterDraws_S, IH. reflexivity.
Qed.

Lemma afterDraws_onlyDraws (n : nat) (w : World) : onlyDraws w (afterDraws n w).
Proof.
  revert w. induction n as [|n IH]; intros w; [apply onlyDraws_refl|].
  rewrite afterDraws_S. eapply onlyDraws_trans; [|apply IH]. repeat split.
Qed.

Lemma Array_map_draws {A B : Type} (f : A -> nat -> Eff B) (g : A -> nat -> Q -> B) :
  (forall x i w, f x i w = (Ok (g x i (randoms w 0)), snd (Math_random w))) ->
  forall l index w,
    exists ys,
      Array_map f l index w = (Ok ys, afterDraws (length l) w) /\
      length ys = length l /\
      forall j x, l !! j = Some x -> ys !! j = Some (g x (index + j) (randoms w j)).
Proof.
  intros Hf. induction l as [|x l IH]; intros index w.
  - exists []. cbn. repeat split. intros j x H. discriminate.
  - destruct (IH (S index) (snd (Math_random w))) as (ys & Hys & Hlen & Hlook).
    exists (g x index (randoms w 0) :: ys).
    cbn [Array_map]. unfold bind at 1. rewrite Hf.
    unfold bind at 1. rewrite Hys. cbn [length]. rewrite afterDraws_S.
    split; [reflexivity|]. split; [cbn; lia|].
    intros [|j] y Hj; cbn in Hj.
    + injection Hj as <-. cbn. do 2 f_equal. lia.
    + change ((g x index (randoms w 0) :: ys) !! S j) with (ys !! j).
      rewrite (Hlook j y Hj). cbn. unfold shift. do 2 f_equal. lia.
Qed.

Lemma completion_world {T : Type} (parser : string -> option T) (w : World) :
  snd (completion parser w) = snd (callDeepSeek w).
Proof.
  unfold completion, bind.
  destruct (callDeepSeek w) as [[r|e] w1]; [|reflexivity].
  unfold JSON_parse. now destruct (parser (fst r)).
Qed.

Lemma completion_count {T : Type} (parser : string -> option T) (w : World) :
  let w' := snd (completion parser w) in
  chatRequests w' = (if keyStored w then S (chatRequests w) else chatRequests w) /\
  localStorage w' = localStorage w /\
  randoms w' = randoms w /\
  primaryReplies w' = primaryReplies w /\
  backupReplies w' = backupReplies w.
Proof. rewrite completion_world. apply callDeepSeek_count. Qed.

(** The handlers of the three analysis operations do nothing to the world. *)
Lemma analysis_world (J : Json) (t : string) (trends : list TrendItem) (w : World) :
  snd (analyzeTrendWithAI J t w) = snd (callDeepSeek w) /\
  snd (analyzeGlobalTrends J trends w) = snd (callDeepSeek w) /\
  snd (identifyBigEvents J trends w) = snd (callDeepSeek w).
Proof.
  rewrite <- (completion_world (parseAnalysis J)) at 1 2.
  rewrite <- (completion_world (parseEvents J)).
  unfold analyzeTrendWithAI, analyzeGlobalTrends, identifyBigEvents, tryCatch.
  destruct (completion (parseAnalysis J) w) as [[r|e] w1];
    destruct (completion (parseEvents J) w) as [[r'|e'] w1'];
    cbn; repeat split; try destruct (isMissingKey e); try destruct (isMissingKey e'); reflexivity.
Qed.

(** X1. Each of the analysis operations sends exactly one request to the
    chat service when a non-empty key is stored and none otherwise: there
    is no retry, whatever the service answers. None of them writes to
    [localStorage]. *)
Theorem analysis_sends_one_request (J : Json) (w : World)
    (trendTitle : string) (trends : list TrendItem) :
  let sent (w' : World) :=
    chatRequests w' = (if keyStored w then S (chatRequests w) else chatRequests w) /\
    localStorage w' = localStorage w in
  sent (snd (analyzeTrendWithAI J trendTitle w)) /\
  sent (snd (analyzeGlobalTrends J trends w)) /\
  sent (snd (identifyBigEvents J trends w)).
Proof.
  cbv zeta.
  destruct (analysis_world J trendTitle trends w) as (-> & -> & ->).
  pose proof (callDeepSeek_count w) as (H1 & H2 & _). cbv zeta in *. tauto.
Qed.

(** What [parseDouyinData] makes of an entry with the draw [r]. *)
Lemma parseDouyinData_eq (word_list : list RawEntry) (w : World) :
  exists ys,
    parseDouyinData word_list w = (Ok (take 51 ys), afterDraws (length word_list) w) /\
    length ys = length word_list /\
    forall j e, word_list !! j = Some e ->
      ys !! j = Some {| rank := rankOf e j;
                        title := word e;
                        hotValue := hotValueOf e;
                        category := determineCategory (word e);
                        heatRise := Some (Qfloor (hotValueOf e * (randoms w j * 0.07 + 0.01)));
                        description := Some EmptyString |}.
Proof.
  unfold parseDouyinData.
  match goal with |- context [Array_map ?f _ _] => set (callback := f) end.
  destruct (Array_map_draws callback
              (fun e j r => {| rank := rankOf e j;
                        title := word e;
                        hotValue := hotValueOf e;
                        category := determineCategory (word e);
                        heatRise := Some (Qfloor (hotValueOf e * (r * 0.07 + 0.01)));
                        description := Some EmptyString |}))
    with (l := word_list) (index := 0) (w := w) as (ys & Hys & Hlen & Hlook).
  { intros x i w0. subst callback. cbv beta zeta.
    unfold bind. rewrite calculateHeatRise_eq. reflexivity. }
  exists ys. unfold bind. rewrite Hys. split; [reflexivity|]. split; [exact Hlen|].
  intros j e Hj. exact (Hlook j e Hj).
Qed.

Lemma map_by_lookup {A B C : Type} (f : A -> C) (g : B -> C) (l : list A) (k : list B) :
  length k = length l ->
  (forall j x, l !! j = Some x -> exists y, k !! j = Some y /\ g y = f x) ->
  List.map g k = List.map f l.
Proof.
  revert k. induction l as [|x l IH]; intros [|y k] Hlen H; try discriminate; [reflexivity|].
  cbn. f_equal.
  - destruct (H 0 x eq_refl) as (y' & [= <-] & Hy). exact Hy.
  - apply IH; [cbn in Hlen; lia|]. intros j x' Hj. exact (H (S j) x' Hj).
Qed.

(** X2. [parseDouyinData] keeps the entries in the order of the source and
    takes their [word] as title. The item at index j depends on the list
    and on the j-th draw of [Math.random()] only: run on the same list in
    any world with the same j-th draw, it gives the same item at index j.
    The list is cut to 51 items after all entries were converted, so one
    draw is consumed per entry received, and nothing else of the world
    changes. *)
Theorem parseDouyinData_order_and_draws (word_list : list RawEntry) (w : World) :
  exists items w',
    parseDouyinData word_list w = (Ok items, w') /\
    List.map title items = take 51 (List.map word word_list) /\
    (forall (w2 : World) (j : nat),
       randoms w2 j = randoms w j ->
       exists items2,
         fst (parseDouyinData word_list w2) = Ok items2 /\
         items2 !! j = items !! j) /\
    (forall n, randoms w' n = randoms w (length word_list + n)) /\
    onlyDraws w w'.
Proof.
  destruct (parseDouyinData_eq word_list w) as (ys & Hrun & Hlen & Hlook).
  exists (take 51 ys), (afterDraws (length word_list) w).
  split; [exact Hrun|]. split; [|split; [|split]].
  - rewrite <- (map_by_lookup word title word_list ys Hlen).
    + symmetry. apply firstn_map.
    + intros j x Hj. eexists. split; [exact (Hlook j x Hj) | reflexivity].
  - intros w2 j Hdraw.
    destruct (parseDouyinData_eq word_list w2) as (ys2 & Hrun2 & Hlen2 & Hlook2).
    exists (take 51 ys2). rewrite Hrun2. split; [reflexivity|].
    destruct (Nat.lt_ge_cases j 51) as [Hj|Hj].
    + rewrite !lookup_take_lt by exact Hj.
      destruct (word_list !! j) as [e|] eqn:He.
      * rewrite (Hlook j e He), (Hlook2 j e He), Hdraw. reflexivity.
      * apply lookup_ge_None in He.
        rewrite (proj2 (lookup_ge_None ys j)), (proj2 (lookup_ge_None ys2 j)) by lia.
        reflexivity.
    + rewrite !lookup_take_ge by exact Hj. reflexivity.
  - intros n. apply afterDraws_randoms.
  - apply afterDraws_onlyDraws.
Qed.

(** [fetchSimulatedTrends] when the completion succeeds. *)
Lemma fetchSimulatedTrends_eq (J : Json) (w : World)
    (r : AIResponse (option (list TrendItem))) :
  fst (completion (parseTrends J) w) = Ok r ->
  exists ys,
    fetchSimulatedTrends J w
    = (Ok ys, afterDraws (length (default [] (data r))) (snd (callDeepSeek w))) /\
    length ys = length (default [] (data r)) /\
    forall j t, default [] (data r) !! j = Some t ->
      ys !! j = Some {| rank := rank t;
                        title := title t;
                        hotValue := hotValue t;
                        category := category t;
                        heatRise := Some (Qfloor (hotValue t * (randoms w j * 0.07 + 0.01)));
                        description := description t |}.
Proof.
  pose proof (callDeepSeek_count w) as (_ & _ & Hr & _). cbv zeta in Hr.
  unfold fetchSimulatedTrends, completion, tryCatch, bind.
  destruct (callDeepSeek w) as [[c|e1] w1]; [|discriminate].
  unfold JSON_parse. destruct (parseTrends J (fst c)) as [parsed|]; [|discriminate].
  unfold ret. cbn [fst snd] in *. intros [= <-]. cbn [data].
  match goal with |- context [Array_map ?f _ _ _] => set (callback := f) end.
  destruct (Array_map_draws callback
              (fun t (_ : nat) r => {| rank := rank t;
                        title := title t;
                        hotValue := hotValue t;
                        category := category t;
                        heatRise := Some (Qfloor (hotValue t * (r * 0.07 + 0.01)));
                        description := description t |}))
    with (l := default [] parsed) (index := 0) (w := w1) as (ys & Hys & Hlen & Hlook).
  { intros x i w0. subst callback. cbv beta zeta.
    unfold bind. rewrite calculateHeatRise_eq. reflexivity. }
  exists ys. rewrite Hys. split; [reflexivity|]. split; [exact Hlen|].
  intros j t Hj. rewrite (Hlook j t Hj), Hr. reflexivity.
Qed.

Lemma fraction_range (r : Q) :
  (0 <= r < 1)%Q -> (0.01 <= r * 0.07 + 0.01 < 0.08)%Q.
Proof. intros [H0 H1]. split; lra. Qed.

(** X3. When the chat service answers the request for simulated trends
    with a readable object, [fetchSimulatedTrends] returns its trends in
    their order and number, each with the rank, title, heat value, category
    and description that were sent: the category is neither checked against
    [CATEGORIES] nor derived again. The heat rise is always computed anew
    from the heat value. An object without member [trends] gives the empty
    list. *)
Theorem fetchSimulatedTrends_keeps (J : Json) (w : World)
    (r : AIResponse (option (list TrendItem))) :
  fairDraws w ->
  fst (completion (parseTrends J) w) = Ok r ->
  exists items,
    fst (fetchSimulatedTrends J w) = Ok items /\
    Forall2 (fun t item =>
               rank item = rank t /\ title item = title t /\
               hotValue item = hotValue t /\ category item = category t /\
               description item = description t /\
               exists f : Q, (0.01 <= f < 0.08)%Q /\
                 heatRise item = Some (Qfloor (hotValue t * f)))
            (default [] (data r)) items /\
    (data r = None -> items = []).
Proof.
  intros Hfair Hc.
  destruct (fetchSimulatedTrends_eq J w r Hc) as (ys & Hrun & Hlen & Hlook).
  exists ys. rewrite Hrun. split; [reflexivity|]. split.
  - apply Forall2_same_length_lookup. split; [symmetry; exact Hlen|].
    intros j t item Ht Hitem. rewrite (Hlook j t Ht) in Hitem.
    injection Hitem as <-. cbn. repeat split.
    exists (randoms w j * 0.07 + 0.01)%Q. split; [|reflexivity].
    apply fraction_range, Hfair.
  - intros Hnone. rewrite Hnone in Hlen. destruct ys; [reflexivity | discriminate].
Qed.

Lemma fetchSimulatedTrends_keeps_witness :
  exists items,
    fst (fetchSimulatedTrends JsonText.json Samples.simulating) = Ok items /\
    Forall2 (fun t item =>
               rank item = rank t /\ title item = title t /\
               hotValue item = hotValue t /\ category item = category t /\
               description item = description t /\
               exists f : Q, (0.01 <= f < 0.08)%Q /\
                 heatRise item = Some (Qfloor (hotValue t * f)))
            (default [] (data Samples.simulated)) items /\
    (data Samples.simulated = None -> items = []).
Proof.
  apply (fetchSimulatedTrends_keeps JsonText.json Samples.simulating Samples.simulated).
  - intros n. unfold Qle, Qlt. simpl. lia.
  - vm_compute. reflexivity.
Defined.

Lemma sourceFails_hasList (r : SourceReply) : sourceFails r <-> hasList r = false.
Proof.
  unfold sourceFails. destruct r; cbn; split; intros H; try reflexivity; try discriminate.
  - exfalso. exact (H _ eq_refl).
Qed.

Lemma fetchTrends_both_fail (J : Json) (w : World) :
  hasList (primaryReplies w 0) = false ->
  hasList (backupReplies w 0) = false ->
  fetchTrends J w = fetchSimulatedTrends J (snd (fetchBackup (snd (fetchPrimary w)))).
Proof.
  intros Hp Hb.
  unfold fetchTrends, tryCatch, primaryAttempt, backupAttempt, bind,
    fetchPrimary, fetchBackup, throw, ret.
  cbn -[fetchSimulatedTrends parseDouyinData].
  destruct (primaryReplies w 0) as [| | | |l]; try discriminate;
    cbn -[fetchSimulatedTrends parseDouyinData];
    destruct (backupReplies w 0) as [| | | |l']; try discriminate;
    reflexivity.
Qed.

(** The world after [fetchSimulatedTrends]: that of [callDeepSeek], and
    draws. *)
Lemma fetchSimulatedTrends_world (J : Json) (w : World) :
  exists n, snd (fetchSimulatedTrends J w) = afterDraws n (snd (callDeepSeek w)).
Proof.
  destruct (fst (completion (parseTrends J) w)) as [r|e] eqn:Hc.
  - destruct (fetchSimulatedTrends_eq J w r Hc) as (ys & Hrun & _).
    rewrite Hrun. eexists. reflexivity.
  - exists 0. cbn [afterDraws Nat.iter].
    rewrite <- (completion_world (parseTrends J)).
    unfold fetchSimulatedTrends, tryCatch. unfold completion, bind in *.
    destruct (callDeepSeek w) as [[c|e1] w1]; [|reflexivity].
    unfold JSON_parse in *. destruct (parseTrends J (fst c)); [discriminate|reflexivity].
Qed.

(** X4. [fetchTrends] contacts no more than it needs, for replies of the
    shape the model has: a reply either carries a [word_list] whose entries
    all have a [word], or it fails or carries no [word_list]. It asks the
    primary source once; the backup source once, and only when the primary
    source gave no such list; the chat service once, and only when neither
    source gave such a list and a non-empty key is stored. It never writes
    to [localStorage]. A list with an entry that has no [word] is outside
    the model. *)
Theorem fetchTrends_contacts (J : Json) (w : World) :
  let w' := snd (fetchTrends J w) in
  primaryReplies w' = shift (primaryReplies w) /\
  backupReplies w'
  = (if hasList (primaryReplies w 0) then backupReplies w
     else shift (backupReplies w)) /\
  chatRequests w'
  = (if hasList (primaryReplies w 0) || hasList (backupReplies w 0)
     then chatRequests w
     else if keyStored w then S (chatRequests w) else chatRequests w) /\
  localStorage w' = localStorage w.
Proof.
  cbv zeta.
  destruct (hasList (primaryReplies w 0)) eqn:Hp.
  - destruct (primaryReplies w 0) as [| | | |l] eqn:Hl; try discriminate.
    destruct (parseDouyinData_eq l (snd (fetchPrimary w))) as (ys & Hrun & _).
    rewrite (primary_list_is_parsed J w l Hl _ _ Hrun). cbn [snd orb].
    destruct (afterDraws_onlyDraws (length l) (snd (fetchPrimary w)))
      as (H1 & H2 & H3 & H4 & H5).
    rewrite H1, H2, H3, H5. repeat split.
  - destruct (hasList (backupReplies w 0)) eqn:Hb.
    + destruct (backupReplies w 0) as [| | | |l] eqn:Hl; try discriminate.
      destruct (parseDouyinData_eq l (snd (fetchBackup (snd (fetchPrimary w)))))
        as (ys & Hrun & _).
      apply sourceFails_hasList in Hp.
      rewrite (backup_list_is_parsed J w l Hp Hl _ _ Hrun). cbn [snd orb].
      destruct (afterDraws_onlyDraws (length l) (snd (fetchBackup (snd (fetchPrimary w)))))
        as (H1 & H2 & H3 & H4 & H5).
      rewrite H1, H2, H3, H5. repeat split.
    + rewrite (fetchTrends_both_fail J w Hp Hb). cbn [orb].
      destruct (fetchSimulatedTrends_world J (snd (fetchBackup (snd (fetchPrimary w)))))
        as (n & ->).
      destruct (afterDraws_onlyDraws n
                  (snd (callDeepSeek (snd (fetchBackup (snd (fetchPrimary w)))))))
        as (H1 & H2 & H3 & H4 & H5).
      rewrite H1, H2, H3, H5.
      destruct (callDeepSeek_count (snd (fetchBackup (snd (fetchPrimary w)))))
        as (C1 & C2 & C3 & C4 & C5).
      rewrite C1, C2, C4, C5. repeat split.
Qed.

(** X5. The backup source is read like the primary one. When the primary
    source gives no list and the backup source answers with a list of N
    entries, [fetchTrends] returns min(N, 51) items, the item at index i
    being what [parseDouyinData] makes of the entry at index i: its word as
    title, its heat value or 0, its position or i + 1 as rank, the category
    of [determineCategory], an empty description, and as heat rise the
    floor of the heat value times a fraction in [0.01, 0.08). *)
Theorem fetchTrends_backup (J : Json) (w : World) (word_list : list RawEntry) :
  sourceFails (primaryReplies w 0) ->
  backupReplies w 0 = SourceWordList word_list ->
  fairDraws w ->
  exists items,
    fst (fetchTrends J w) = Ok items /\
    length items = min (length word_list) 51 /\
    forall i, i < min (length word_list) 51 ->
      exists e item,
        word_list !! i = Some e /\ items !! i = Some item /\ normalized e i item.
Proof.
  intros Hp Hb Hfair.
  destruct (parseDouyinData_ok word_list (snd (fetchBackup (snd (fetchPrimary w)))))
    as (items & w' & Hrun & _ & Hlen & Hitems); [exact Hfair|].
  exists items. rewrite (backup_list_is_parsed J w word_list Hp Hb items w' Hrun).
  split; [reflexivity|]. split; [exact Hlen | exact Hitems].
Qed.

Lemma fetchTrends_backup_witness :
  exists items,
    fst (fetchTrends JsonText.json Samples.backupUp) = Ok items /\
    length items = min (length Examples.oneEntry) 51 /\
    forall i, i < min (length Examples.oneEntry) 51 ->
      exists e item,
        Examples.oneEntry !! i = Some e /\ items !! i = Some item /\ normalized e i item.
Proof.
  apply (fetchTrends_backup JsonText.json Samples.backupUp Examples.oneEntry).
  - intros l. discriminate.
  - reflexivity.
  - intros n. unfold Qle, Qlt. simpl. lia.
Defined.

(** ** The analysis modal *)



Lemma cacheGet_frame (J : Json) (t : string) (w : World) :
  let w0 := snd (AnalysisModal.cacheGet J t w) in
  keyStored w0 = keyStored w /\
  chatReplies w0 = chatReplies w /\
  chatRequests w0 = chatRequests w.
Proof.
  cbv zeta. split.
  - unfold keyStored. rewrite cacheGet_other_keys; [reflexivity | apply cacheKey_not_api_key].
  - rewrite cacheGet_eq.
    destruct (localStorage w !! AnalysisModal.cacheKey t) as [s|]; [|split; reflexivity].
    destruct (truthyString s); [|split; reflexivity].
    destruct (parseAnalysis J s); split; reflexivity.
Qed.

(** After a miss, the entry of the title holds no text. *)
Lemma cacheGet_miss_entry (J : Json) (t : string) (w : World) :
  fst (AnalysisModal.cacheGet J t w) = Ok None ->
  truthyOptString
    (localStorage (snd (AnalysisModal.cacheGet J t w)) !! AnalysisModal.cacheKey t) = false.
Proof.
  rewrite cacheGet_eq.
  destruct (localStorage w !! AnalysisModal.cacheKey t) as [s|] eqn:Hs; cbn [fst snd].
  - destruct (truthyString s) eqn:Ht; cbn [fst snd].
    + destruct (parseAnalysis J s); cbn [fst snd]; [discriminate|].
      intros _. cbn. now rewrite lookup_delete_eq.
    + intros _. rewrite Hs. exact Ht.
  - intros _. now rewrite Hs.
Qed.

(** X6. When the modal opens on a trend that has no usable cache entry and
    no key is stored, it shows the request to configure a key; no request
    goes to the chat service, and nothing is cached for the title, so that
    the analysis is tried again once a key is saved. No other entry of
    [localStorage] changes. *)
Theorem effect_without_key (J : Json) (trend : TrendItem)
    (st : AnalysisModal.State) (w : World) :
  keyStored w = false ->
  fst (AnalysisModal.cacheGet J (title trend) w) = Ok None ->
  let w' := snd (AnalysisModal.effect J (Some trend) st w) in
  fst (AnalysisModal.effect J (Some trend) st w)
  = Ok {| AnalysisModal.analysis := None;
          AnalysisModal.loading := false;
          AnalysisModal.error := Some "MISSING_KEY" |} /\
  chatRequests w' = chatRequests w /\
  truthyOptString (localStorage w' !! AnalysisModal.cacheKey (title trend)) = false /\
  forall k, k <> AnalysisModal.cacheKey (title trend) ->
            localStorage w' !! k = localStorage w !! k.
Proof.
  intros Hkey Hmiss. cbv zeta.
  rewrite (effect_miss J trend st w Hmiss). cbv zeta.
  destruct (cacheGet_frame J (title trend) w) as (Hk & Hr & Hn). cbv zeta in *.
  pose proof (cacheGet_miss_entry J (title trend) w Hmiss) as Hentry.
  set (w0 := snd (AnalysisModal.cacheGet J (title trend) w)) in *.
  assert (Hc : completion (parseAnalysis J) w0 = (Throw (Error "MISSING_API_KEY"), w0)).
  { apply completion_no_key. unfold keyStored in *. congruence. }
  unfold analyzeTrendWithAI, tryCatch. rewrite Hc. cbn.
  repeat split; try assumption.
  intros k Hne. subst w0. now apply cacheGet_other_keys.
Qed.

Lemma effect_without_key_witness :
  let w' := snd (AnalysisModal.effect JsonText.json (Some Examples.someTrend)
                   Examples.closed Examples.offline) in
  fst (AnalysisModal.effect JsonText.json (Some Examples.someTrend)
         Examples.closed Examples.offline)
  = Ok {| AnalysisModal.analysis := None;
          AnalysisModal.loading := false;
          AnalysisModal.error := Some "MISSING_KEY" |} /\
  chatRequests w' = chatRequests Examples.offline /\
  truthyOptString
    (localStorage w' !! AnalysisModal.cacheKey (title Examples.someTrend)) = false /\
  forall k, k <> AnalysisModal.cacheKey (title Examples.someTrend) ->
            localStorage w' !! k = localStorage Examples.offline !! k.
Proof.
  apply (effect_without_key JsonText.json Examples.someTrend Examples.closed
           Examples.offline).
  - reflexivity.
  - reflexivity.
Defined.




(** X8. The missing key is recognised by the text of the error alone. When
    a key is stored and the chat service refuses the request with the
    message MISSING_API_KEY, [analyzeTrendWithAI] rejects with that error
    instead of returning the fallback record, and the modal asks the user
    to configure a key although one is stored and a request was sent. *)
Theorem service_message_taken_for_missing_key (J : Json) (w : World)
    (trend : TrendItem) (st : AnalysisModal.State) (statusText : string) :
  keyStored w = true ->
  chatReplies w 0 = ChatNotOk (Some "MISSING_API_KEY") statusText ->
  fst (AnalysisModal.cacheGet J (title trend) w) = Ok None ->
  fst (analyzeTrendWithAI J (title trend) w) = Throw (Error "MISSING_API_KEY") /\
  fst (AnalysisModal.effect J (Some trend) st w)
  = Ok {| AnalysisModal.analysis := None;
          AnalysisModal.loading := false;
          AnalysisModal.error := Some "MISSING_KEY" |} /\
  chatRequests (snd (AnalysisModal.effect J (Some trend) st w)) = S (chatRequests w).
Proof.
  intros Hkey Hreply Hmiss.
  assert (Hcall : forall w0, keyStored w0 = true ->
            chatReplies w0 0 = ChatNotOk (Some "MISSING_API_KEY") statusText ->
            analyzeTrendWithAI J (title trend) w0
            = (Throw (Error "MISSING_API_KEY"), snd (fetchChat w0))).
  { intros w0 Hk Hr.
    unfold analyzeTrendWithAI, tryCatch, completion, bind at 1, callDeepSeek, bind at 1,
      getApiKey, Storage.getItem.
    unfold keyStored in Hk. rewrite Hk. cbn [negb].
    unfold bind, fetchChat. rewrite Hr. reflexivity. }
  split; [now rewrite Hcall|].
  rewrite (effect_miss J trend st w Hmiss). cbv zeta.
  destruct (cacheGet_frame J (title trend) w) as (Hk & Hr & Hn). cbv zeta in *.
  rewrite Hcall; [| congruence | now rewrite Hr].
  cbn [fst snd]. split; [reflexivity|].
  unfold fetchChat. cbn [snd chatRequests]. now rewrite Hn.
Qed.

Lemma service_message_taken_for_missing_key_witness :
  fst (analyzeTrendWithAI JsonText.json (title Examples.someTrend) Samples.mistaken)
  = Throw (Error "MISSING_API_KEY") /\
  fst (AnalysisModal.effect JsonText.json (Some Examples.someTrend)
         Examples.closed Samples.mistaken)
  = Ok {| AnalysisModal.analysis := None;
          AnalysisModal.loading := false;
          AnalysisModal.error := Some "MISSING_KEY" |} /\
  chatRequests (snd (AnalysisModal.effect JsonText.json (Some Examples.someTrend)
                       Examples.closed Samples.mistaken))
  = S (chatRequests Samples.mistaken).
Proof.
  apply (service_message_taken_for_missing_key JsonText.json Samples.mistaken
           Examples.someTrend Examples.closed "Bad Request").
  - reflexivity.
  - reflexivity.
  - reflexivity.
Defined.

Lemma cacheKey_not_setting (t : string) :
  "theme" <> AnalysisModal.cacheKey t /\ "bg_image" <> AnalysisModal.cacheKey t.
Proof. unfold AnalysisModal.cacheKey. norm_append. split; discriminate. Qed.

(** X9. The analysis cache is separate from the rest of [localStorage].
    Opening the modal on a trend changes at most the entry of its own
    title: the stored theme, the background, the API key and the cached
    analyses of all other titles stay as they are. *)
Theorem analysis_cache_is_separate (J : Json) (trend : TrendItem)
    (st : AnalysisModal.State) (w : World) (k : string) :
  k = "theme" \/ k = "bg_image" \/ k = API_KEY_STORAGE_KEY \/
  (exists t, k = AnalysisModal.cacheKey t /\ t <> title trend) ->
  localStorage (snd (AnalysisModal.effect J (Some trend) st w)) !! k
  = localStorage w !! k.
Proof.
  intros Hk. apply effect_other_keys.
  destruct Hk as [->|[->|[->|(t & -> & Hne)]]].
  - apply cacheKey_not_setting.
  - apply cacheKey_not_setting.
  - apply cacheKey_not_api_key.
  - intros H. apply cacheKey_inj in H. congruence.
Qed.

Lemma analysis_cache_is_separate_witness :
  localStorage (snd (AnalysisModal.effect JsonText.json (Some Examples.someTrend)
                       Examples.closed Examples.unreachable)) !! API_KEY_STORAGE_KEY
  = localStorage Examples.unreachable !! API_KEY_STORAGE_KEY.
Proof.
  apply (analysis_cache_is_separate JsonText.json Examples.someTrend Examples.closed
           Examples.unreachable API_KEY_STORAGE_KEY).
  right. right. left. reflexivity.
Defined.

(** ** The settings *)

(** The effect that initializes the settings only reads, and what it
    makes of the cells. *)
Lemma initialize_fields (s : Dashboard.Settings) (w : World) :
  exists s2,
    Dashboard.initialize s w = (Ok s2, w) /\
    Dashboard.theme s2
    = (if truthyOptString (localStorage w !! "theme")
       then default EmptyString (localStorage w !! "theme") else Dashboard.theme s) /\
    Dashboard.darkClass s2
    = (if truthyOptString (localStorage w !! "theme")
       then String.eqb (default EmptyString (localStorage w !! "theme")) "dark"
       else true) /\
    Dashboard.hasKey s2 = (if keyStored w then true else Dashboard.hasKey s) /\
    Dashboard.apiKeyInput s2
    = (if keyStored w then default EmptyString (localStorage w !! API_KEY_STORAGE_KEY)
       else Dashboard.apiKeyInput s) /\
    Dashboard.bgImage s2
    = (if truthyOptString (localStorage w !! "bg_image")
       then localStorage w !! "bg_image" else Dashboard.bgImage s) /\
    Dashboard.showSettings s2 = Dashboard.showSettings s.
Proof.
  unfold Dashboard.initialize, bind, Storage.getItem, getApiKey, ret, keyStored.
  eexists. split; [reflexivity|].
  destruct (truthyOptString (localStorage w !! "theme")),
    (truthyOptString (localStorage w !! API_KEY_STORAGE_KEY)),
    (truthyOptString (localStorage w !! "bg_image")); repeat split.
Qed.

(** X10. The effect that initializes the settings only reads
    [localStorage], and running it a second time changes nothing: the
    cells it has set are the cells it would set again. *)
Theorem initialize_idempotent (s : Dashboard.Settings) (w : World) :
  exists s1,
    Dashboard.initialize s w = (Ok s1, w) /\
    Dashboard.initialize s1 w = (Ok s1, w).
Proof.
  unfold Dashboard.initialize, bind, getApiKey, Storage.getItem, ret.
  cbv beta iota zeta.
  eexists. split; [reflexivity|].
  destruct s.
  destruct (truthyOptString (localStorage w !! "theme")),
    (truthyOptString (localStorage w !! API_KEY_STORAGE_KEY)),
    (truthyOptString (localStorage w !! "bg_image")); reflexivity.
Qed.

(** X11. [toggleTheme] goes from dark to light and from anything else to
    dark. It stores the name of the new theme under the key theme and
    writes nothing else, sets the class dark of the document exactly when
    the new theme is dark, and leaves the other cells of the settings as
    they are. When the page is loaded again, the effect that initializes
    the settings restores that theme and that class, whatever the document
    looked like. *)
Theorem theme_survives_reload (s : Dashboard.Settings) (w : World) (darkClass0 : bool) :
  exists s1 w1 s2,
    Dashboard.toggleTheme s w = (Ok s1, w1) /\
    (Dashboard.theme s = "dark" -> Dashboard.theme s1 = "light") /\
    (Dashboard.theme s <> "dark" -> Dashboard.theme s1 = "dark") /\
    Dashboard.darkClass s1 = String.eqb (Dashboard.theme s1) "dark" /\
    (Dashboard.showSettings s1 = Dashboard.showSettings s /\
     Dashboard.apiKeyInput s1 = Dashboard.apiKeyInput s /\
     Dashboard.hasKey s1 = Dashboard.hasKey s /\
     Dashboard.bgImage s1 = Dashboard.bgImage s) /\
    localStorage w1 !! "theme" = Some (Dashboard.theme s1) /\
    (forall k, k <> "theme" -> localStorage w1 !! k = localStorage w !! k) /\
    chatRequests w1 = chatRequests w /\
    Dashboard.initialize (Dashboard.fresh darkClass0) w1 = (Ok s2, w1) /\
    Dashboard.theme s2 = Dashboard.theme s1 /\
    Dashboard.darkClass s2 = Dashboard.darkClass s1.
Proof.
  set (newTheme := if String.eqb (Dashboard.theme s) "dark" then "light" else "dark").
  assert (Hnew : truthyString newTheme = true) by (subst newTheme; now destruct (String.eqb _ _)).
  destruct (initialize_fields (Dashboard.fresh darkClass0)
              (withStorage (insert "theme" newTheme) w))
    as (s2 & Hrun & Ht & Hd & _).
  cbn [localStorage withStorage] in Ht, Hd. rewrite lookup_insert_eq in Ht, Hd.
  cbn [truthyOptString default] in Ht, Hd. unfold id in Ht, Hd. rewrite Hnew in Ht, Hd.
  exists (Dashboard.setTheme newTheme (String.eqb newTheme "dark") s),
    (withStorage (insert "theme" newTheme) w), s2.
  split; [reflexivity|]. cbn [Dashboard.theme Dashboard.setTheme].
  split; [|split].
  - intros Hdark. subst newTheme. rewrite Hdark. reflexivity.
  - intros Hother. subst newTheme. apply String.eqb_neq in Hother.
    rewrite Hother. reflexivity.
  - split; [reflexivity|]. split; [repeat split|].
    split; [cbn; now rewrite lookup_insert_eq|].
    split; [intros k Hk; cbn; now rewrite lookup_insert_ne|].
    split; [reflexivity|].
    split; [exact Hrun|]. split; [exact Ht | exact Hd].
Qed.

(** X12. [handleSaveKey] stores the text of the input, closes the settings
    and shows the notice, also when the input is empty. Afterwards [hasKey]
    tells exactly whether [callDeepSeek] will send a request: with an empty
    input it is false and the next call sends none. When the page is
    loaded again, the stored key comes back into the input and [hasKey] is
    the same. *)
Theorem saved_key_is_used (s : Dashboard.Settings) (a : App.State) (w : World)
    (darkClass0 : bool) :
  exists s1 a1 w1 s2,
    Dashboard.handleSaveKey s a w = (Ok (s1, a1), w1) /\
    Dashboard.hasKey s1 = truthyString (Dashboard.apiKeyInput s) /\
    Dashboard.showSettings s1 = false /\
    App.showKeyUpdatePrompt a1 = true /\
    (forall k, k <> API_KEY_STORAGE_KEY -> localStorage w1 !! k = localStorage w !! k) /\
    chatRequests (snd (callDeepSeek w1))
    = (if Dashboard.hasKey s1 then S (chatRequests w) else chatRequests w) /\
    Dashboard.initialize (Dashboard.fresh darkClass0) w1 = (Ok s2, w1) /\
    Dashboard.hasKey s2 = Dashboard.hasKey s1 /\
    Dashboard.apiKeyInput s2 = Dashboard.apiKeyInput s.
Proof.
  set (w1 := withStorage (insert API_KEY_STORAGE_KEY (Dashboard.apiKeyInput s)) w).
  assert (Hkey : keyStored w1 = truthyString (Dashboard.apiKeyInput s)).
  { unfold keyStored, w1. cbn. now rewrite lookup_insert_eq. }
  destruct (initialize_fields (Dashboard.fresh darkClass0) w1)
    as (s2 & Hrun & _ & _ & Hh & Hi & _).
  destruct (callDeepSeek_count w1) as (Hcount & _).
  rewrite Hkey in Hh, Hi, Hcount.
  exists (Dashboard.setShowSettings false
            (Dashboard.setHasKey (truthyString (Dashboard.apiKeyInput s)) s)),
    (App.setShowKeyUpdatePrompt true a), w1, s2.
  split; [reflexivity|]. split; [reflexivity|]. split; [reflexivity|].
  split; [reflexivity|].
  split; [intros k Hk; unfold w1; cbn; now rewrite lookup_insert_ne|].
  split; [exact Hcount|]. split; [exact Hrun|].
  cbn [Dashboard.hasKey Dashboard.setShowSettings Dashboard.setHasKey].
  split.
  - rewrite Hh. now destruct (truthyString (Dashboard.apiKeyInput s)).
  - rewrite Hi. unfold w1. cbn [localStorage withStorage]. rewrite lookup_insert_eq.
    cbn. destruct (Dashboard.apiKeyInput s); reflexivity.
Qed.

(** X13. [handleImageUpload] keeps a data URL of more than 3000000
    characters out: then it only shows an alert, and the background and
    [localStorage] stay as they are. A data URL of at most 3000000
    characters is shown and stored under the key bg_image, and nothing else
    is written; when the page is loaded again it is shown again. After
    [handleRemoveBg] no background is shown or stored, also after loading
    the page again. *)
Theorem background_survives_reload (file : option string) (s : Dashboard.Settings)
    (a : App.State) (w : World) (darkClass0 : bool) :
  (exists s1 a1 w1,
     Dashboard.handleImageUpload file s a w = (Ok (s1, a1), w1) /\
     (forall k, k <> "bg_image" -> localStorage w1 !! k = localStorage w !! k) /\
     ((file = None /\ s1 = s /\ a1 = a /\ w1 = w)
      \/
      (exists base64String,
         file = Some base64String /\
         (3000000 < N.of_nat (String.length base64String))%N /\
         s1 = s /\ w1 = w /\
         a1 = App.alert "图片过大，请使用小于 2MB 的图片" a)
      \/
      (exists base64String s2,
         file = Some base64String /\
         (N.of_nat (String.length base64String) <= 3000000)%N /\
         a1 = a /\
         Dashboard.bgImage s1 = Some base64String /\
         localStorage w1 !! "bg_image" = Some base64String /\
         Dashboard.initialize (Dashboard.fresh darkClass0) w1 = (Ok s2, w1) /\
         (base64String <> EmptyString -> Dashboard.bgImage s2 = Some base64String))))
  /\
  (exists s1 w1 s2,
     Dashboard.handleRemoveBg s w = (Ok s1, w1) /\
     Dashboard.bgImage s1 = None /\
     localStorage w1 !! "bg_image" = None /\
     (forall k, k <> "bg_image" -> localStorage w1 !! k = localStorage w !! k) /\
     Dashboard.initialize (Dashboard.fresh darkClass0) w1 = (Ok s2, w1) /\
     Dashboard.bgImage s2 = None).
Proof.
  split.
  - destruct file as [d|].
    + unfold Dashboard.handleImageUpload.
      destruct (3000000 <? N.of_nat (String.length d))%N eqn:Hsize.
      * apply N.ltb_lt in Hsize.
        exists s, (App.alert "图片过大，请使用小于 2MB 的图片" a), w.
        split; [reflexivity|]. split; [reflexivity|]. right. left.
        exists d. auto.
      * apply N.ltb_ge in Hsize.
        set (w1 := withStorage (insert "bg_image" d) w).
        destruct (initialize_fields (Dashboard.fresh darkClass0) w1)
          as (s2 & Hrun & _ & _ & _ & _ & Hb & _).
        exists (Dashboard.setBgImage (Some d) s), a, w1.
        split; [reflexivity|].
        split; [intros k Hk; unfold w1; cbn; now rewrite lookup_insert_ne|].
        right. right. exists d, s2. split; [reflexivity|]. split; [exact Hsize|].
        split; [reflexivity|]. split; [reflexivity|].
        assert (Hl : localStorage w1 !! "bg_image" = Some d)
          by (unfold w1; cbn; now rewrite lookup_insert_eq).
        split; [exact Hl|]. split; [exact Hrun|].
        intros Hne. rewrite Hb, Hl. cbn. destruct d; [congruence | reflexivity].
    + exists s, a, w. split; [reflexivity|]. split; [reflexivity|]. left. auto.
  - set (w1 := withStorage (delete "bg_image") w).
    destruct (initialize_fields (Dashboard.fresh darkClass0) w1)
      as (s2 & Hrun & _ & _ & _ & _ & Hb & _).
    assert (Hl : localStorage w1 !! "bg_image" = None)
      by (unfold w1; cbn; now rewrite lookup_delete_eq).
    exists (Dashboard.setBgImage None s), w1, s2.
    split; [reflexivity|]. split; [reflexivity|]. split; [exact Hl|].
    split; [intros k Hk; unfold w1; cbn; now rewrite lookup_delete_ne|].
    split; [exact Hrun|]. rewrite Hb, Hl. reflexivity.
Qed.

(** ** The progress bar *)

Lemma progressTick_cases (prev : Q) :
  (0 <= prev)%Q ->
  (Dashboard.progressTick prev <= 95)%Q /\
  ((prev <= 95)%Q -> (prev <= Dashboard.progressTick prev)%Q) /\
  ((prev + 0.5 <= Dashboard.progressTick prev)%Q \/ Dashboard.progressTick prev == 95).
Proof.
  intros H0. unfold Dashboard.progressTick, Dashboard.Math_min.
  destruct (Qle_bool 95 prev) eqn:H95.
  - apply Qle_bool_iff in H95. split; [lra|]. split; [lra|]. right. reflexivity.
  - assert (prev < 95)%Q.
    { apply Qnot_le_lt. intros H. apply Qle_bool_iff in H. congruence. }
    destruct (Qle_bool 30 prev) eqn:H30; cbn [negb].
    + apply Qle_bool_iff in H30.
      destruct (Qle_bool 60 prev) eqn:H60; cbn [negb].
      * apply Qle_bool_iff in H60.
        destruct (Qle_bool (prev + 0.5) 95) eqn:Hm.
        -- apply Qle_bool_iff in Hm. split; [lra|]. split; [lra|]. left. lra.
        -- split; [lra|]. split; [lra|]. right. reflexivity.
      * destruct (Qle_bool (prev + 2) 95) eqn:Hm.
        -- apply Qle_bool_iff in Hm. split; [lra|]. split; [lra|]. left. lra.
        -- split; [lra|]. split; [lra|]. right. reflexivity.
    + destruct (Qle_bool (prev + 5) 95) eqn:Hm.
      * apply Qle_bool_iff in Hm. split; [lra|]. split; [lra|]. left. lra.
      * split; [lra|]. split; [lra|]. right. reflexivity.
Qed.

Lemma progress_iter (prev : Q) (n : nat) :
  (0 <= prev)%Q ->
  let p := Nat.iter n Dashboard.progressTick prev in
  (0 <= p)%Q /\
  ((prev <= 95)%Q -> (p <= 95)%Q) /\
  ((prev + inject_Z (Z.of_nat n) * 0.5 <= p)%Q \/ p == 95).
Proof.
  intros H0. cbv zeta. induction n as [|n (IH0 & IH1 & IH2)].
  - change (Nat.iter 0 Dashboard.progressTick prev) with prev.
    split; [exact H0|]. split; [auto|]. left.
    change (inject_Z (Z.of_nat 0)) with 0%Q. lra.
  - rewrite Nat.iter_succ. set (p := Nat.iter n Dashboard.progressTick prev) in *.
    destruct (progressTick_cases p IH0) as (T1 & T2 & T3).
    assert (Hn : inject_Z (Z.of_nat (S n)) == inject_Z (Z.of_nat n) + 1).
    { rewrite Nat2Z.inj_succ. unfold Z.succ. rewrite inject_Z_plus. reflexivity. }
    split; [|split].
    + destruct T3 as [T3|T3]; lra.
    + intros _. exact T1.
    + rewrite Hn. destruct T3 as [T3|T3]; [|right; exact T3].
      destruct IH2 as [IH2|IH2]; [left; lra|].
      right. lra.
Qed.

(** X14. The progress bar of the global analysis, started between 0 and
    95: a tick never takes it back nor beyond 95, and moves it by at least
    half a point until it is at 95, where it holds. After 190 ticks at the
    latest it is at 95, and it never shows 100 by itself. *)
Theorem progress_holds_at_95 (prev : Q) :
  (0 <= prev <= 95)%Q ->
  (prev <= Dashboard.progressTick prev <= 95)%Q /\
  ((prev + 0.5 <= Dashboard.progressTick prev)%Q \/ Dashboard.progressTick prev == 95) /\
  (forall n, (Nat.iter n Dashboard.progressTick prev <= 95)%Q) /\
  (forall n, 190 <= n -> Nat.iter n Dashboard.progressTick prev == 95).
Proof.
  intros [H0 H95].
  destruct (progressTick_cases prev H0) as (T1 & T2 & T3).
  split; [split; auto|]. split; [exact T3|]. split.
  - intros n. destruct (progress_iter prev n H0) as (_ & H & _). auto.
  - intros n Hn. destruct (progress_iter prev n H0) as (_ & Hle & [Hge|Heq]); [|exact Heq].
    specialize (Hle H95).
    assert (inject_Z 190 <= inject_Z (Z.of_nat n))%Q.
    { rewrite <- Zle_Qle. lia. }
    change (inject_Z 190) with 190%Q in *. lra.
Qed.

Lemma progress_holds_at_95_witness :
  (0 <= Dashboard.progressTick 0 <= 95)%Q /\
  ((0 + 0.5 <= Dashboard.progressTick 0)%Q \/ Dashboard.progressTick 0 == 95) /\
  (forall n, (Nat.iter n Dashboard.progressTick 0%Q <= 95)%Q) /\
  (forall n, 190 <= n -> Nat.iter n Dashboard.progressTick 0%Q == 95).
Proof.
  apply (progress_holds_at_95 0). split; unfold Qle; simpl; lia.
Defined.

From Stdlib Require Import Sorted.

(** ** [Array.prototype.sort] with a comparator that is a difference of keys *)

Section Sorting.

Context {A : Type}.
Variable key : A -> Q.
Variable compare : A -> A -> Q.
Hypothesis compare_key : forall a b, (0 < compare a b)%Q <-> (key b < key a)%Q.

Lemma insert_cons (x y : A) (l : list A) :
  Array_sort_insert compare x (y :: l)
  = if negb (Qle_bool (compare x y) 0) then y :: Array_sort_insert compare x l
    else x :: y :: l.
Proof. reflexivity. Qed.

Lemma insert_skips (x y : A) :
  negb (Qle_bool (compare x y) 0) = true <-> (key y < key x)%Q.
Proof.
  rewrite <- compare_key, negb_true_iff. split.
  - intros H. apply Qnot_le_lt. intros Hle. apply Qle_bool_iff in Hle. congruence.
  - intros H. destruct (Qle_bool (compare x y) 0) eqn:E; [|reflexivity].
    apply Qle_bool_iff in E. lra.
Qed.

Lemma insert_stays (x y : A) :
  negb (Qle_bool (compare x y) 0) = false <-> (key x <= key y)%Q.
Proof.
  rewrite <- not_true_iff_false, insert_skips. split.
  - apply Qnot_lt_le.
  - intros H1 H2. lra.
Qed.

Lemma insert_Permutation (x : A) (l : list A) :
  Permutation (Array_sort_insert compare x l) (x :: l).
Proof.
  induction l as [|y l IH]; [reflexivity|].
  rewrite insert_cons. destruct (negb _); [|reflexivity].
  rewrite IH. apply perm_swap.
Qed.

Lemma sort_Permutation (l : list A) : Permutation (Array_sort compare l) l.
Proof.
  induction l as [|x l IH]; [reflexivity|].
  cbn [Array_sort fold_right]. rewrite insert_Permutation. now constructor.
Qed.

Lemma insert_sorted (x : A) (l : list A) :
  StronglySorted (fun a b => key a <= key b)%Q l ->
  StronglySorted (fun a b => key a <= key b)%Q (Array_sort_insert compare x l).
Proof.
  induction 1 as [|y l Hl IH Hy].
  - repeat constructor.
  - rewrite insert_cons. destruct (negb _) eqn:E.
    + apply insert_skips in E. constructor; [exact IH|].
      eapply Permutation_Forall; [symmetry; apply (insert_Permutation x l) |].
      constructor; [lra | exact Hy].
    + apply insert_stays in E. constructor; [now constructor|].
      constructor; [exact E|].
      eapply Forall_impl; [exact Hy|]. intros z Hz. cbv beta in *. lra.
Qed.

Lemma sort_sorted (l : list A) :
  StronglySorted (fun a b => key a <= key b)%Q (Array_sort compare l).
Proof.
  induction l as [|x l IH]; [constructor|].
  cbn [Array_sort fold_right]. now apply insert_sorted.
Qed.

Lemma insert_stable (v : Q) (x : A) (l : list A) :
  List.filter (fun a => Qeq_bool (key a) v) (Array_sort_insert compare x l)
  = List.filter (fun a => Qeq_bool (key a) v) (x :: l).
Proof.
  induction l as [|y l IH]; [reflexivity|].
  rewrite insert_cons. destruct (negb _) eqn:E; [|reflexivity].
  apply insert_skips in E.
  cbn [List.filter] in *. rewrite IH.
  destruct (Qeq_bool (key x) v) eqn:Ex, (Qeq_bool (key y) v) eqn:Ey; try reflexivity.
  apply Qeq_bool_iff in Ex, Ey. lra.
Qed.

Lemma sort_stable (v : Q) (l : list A) :
  List.filter (fun a => Qeq_bool (key a) v) (Array_sort compare l)
  = List.filter (fun a => Qeq_bool (key a) v) l.
Proof.
  induction l as [|x l IH]; [reflexivity|].
  cbn [Array_sort fold_right]. rewrite insert_stable.
  cbn [List.filter]. fold (Array_sort compare l). now rewrite IH.
Qed.

End Sorting.

Lemma sorted_lookup {A : Type} (R : A -> A -> Prop) (l : list A) :
  StronglySorted R l ->
  forall i j a b, i < j -> l !! i = Some a -> l !! j = Some b -> R a b.
Proof.
  induction 1 as [|x l Hl IH Hx]; intros i j a b Hij Ha Hb; [discriminate|].
  destruct j as [|j]; [lia|]. cbn in Hb.
  destruct i as [|i]; cbn in Ha.
  - injection Ha as <-. rewrite Forall_forall in Hx. apply Hx.
    eapply list_elem_of_lookup_2, Hb.
  - apply (IH i j); [lia | exact Ha | exact Hb].
Qed.

Lemma compareTrends_asc (config : Dashboard.SortConfig) (a b : TrendItem) :
  Dashboard.direction config = Dashboard.asc ->
  (0 < Dashboard.compareTrends config a b)%Q <->
  (Dashboard.sortValue (Dashboard.field config) b
   < Dashboard.sortValue (Dashboard.field config) a)%Q.
Proof. unfold Dashboard.compareTrends. intros ->. cbv beta iota zeta. split; intros; lra. Qed.

Lemma compareTrends_desc (config : Dashboard.SortConfig) (a b : TrendItem) :
  Dashboard.direction config = Dashboard.desc ->
  (0 < Dashboard.compareTrends config a b)%Q <->
  (- Dashboard.sortValue (Dashboard.field config) b
   < - Dashboard.sortValue (Dashboard.field config) a)%Q.
Proof. unfold Dashboard.compareTrends. intros ->. cbv beta iota zeta. split; intros; lra. Qed.

Lemma Qeq_bool_opp (x v : Q) : Qeq_bool (- x) (- v) = Qeq_bool x v.
Proof.
  destruct (Qeq_bool x v) eqn:E.
  - apply Qeq_bool_iff in E. apply Qeq_bool_iff. lra.
  - destruct (Qeq_bool (- x) (- v)) eqn:E'; [|reflexivity].
    apply Qeq_bool_iff in E'. assert (x == v) by lra.
    apply Qeq_bool_iff in H. congruence.
Qed.

Lemma processedTrends_inOrder (toLowerCase : string -> string)
    (trends : list TrendItem) (searchQuery : string)
    (sortConfig : Dashboard.SortConfig) (i j : nat) (a b : TrendItem) :
  i < j ->
  Dashboard.processedTrends toLowerCase trends searchQuery sortConfig !! i = Some a ->
  Dashboard.processedTrends toLowerCase trends searchQuery sortConfig !! j = Some b ->
  inOrder sortConfig a b.
Proof.
  unfold Dashboard.processedTrends. fold (matching toLowerCase searchQuery trends).
  set (l := matching toLowerCase searchQuery trends).
  intros Hij Ha Hb. unfold inOrder.
  destruct (Dashboard.direction sortConfig) eqn:Hd.
  - pose proof (fun a b => compareTrends_asc sortConfig a b Hd) as Hc.
    exact (sorted_lookup _ _ (sort_sorted _ _ Hc l) i j a b Hij Ha Hb).
  - pose proof (fun a b => compareTrends_desc sortConfig a b Hd) as Hc.
    pose proof (sorted_lookup _ _ (sort_sorted _ _ Hc l) i j a b Hij Ha Hb) as H.
    cbv beta in H. lra.
Qed.

(** X15. The list on display, [processedTrends], holds exactly the trends
    whose lowered title includes the lowered text of the search box, each
    as often as it was fetched; it is ordered by the chosen column in the
    chosen direction; and trends with the same value in that column keep
    the order in which they were fetched. *)
Theorem processedTrends_sorted (toLowerCase : string -> string)
    (trends : list TrendItem) (searchQuery : string)
    (sortConfig : Dashboard.SortConfig) :
  let shown := Dashboard.processedTrends toLowerCase trends searchQuery sortConfig in
  Permutation shown (matching toLowerCase searchQuery trends) /\
  (forall i j a b, i < j -> shown !! i = Some a -> shown !! j = Some b ->
                   inOrder sortConfig a b) /\
  (forall v, withValue (Dashboard.field sortConfig) v shown
             = withValue (Dashboard.field sortConfig) v
                 (matching toLowerCase searchQuery trends)).
Proof.
  cbv zeta. unfold Dashboard.processedTrends. fold (matching toLowerCase searchQuery trends).
  set (l := matching toLowerCase searchQuery trends).
  destruct (Dashboard.direction sortConfig) eqn:Hd.
  - pose proof (fun a b => compareTrends_asc sortConfig a b Hd) as Hc.
    split; [apply (sort_Permutation (Dashboard.compareTrends sortConfig))|]. split.
    + intros i j a b. apply processedTrends_inOrder.
    + intros v. exact (sort_stable _ _ Hc v l).
  - pose proof (fun a b => compareTrends_desc sortConfig a b Hd) as Hc.
    split; [apply (sort_Permutation (Dashboard.compareTrends sortConfig))|]. split.
    + intros i j a b. apply processedTrends_inOrder.
    + intros v. unfold withValue.
      rewrite (filter_ext _ (fun t => Qeq_bool (- Dashboard.sortValue (Dashboard.field sortConfig) t) (- v)))
        by (intros t; symmetry; apply Qeq_bool_opp).
      rewrite (filter_ext (fun t => Qeq_bool (Dashboard.sortValue (Dashboard.field sortConfig) t) v)
                 (fun t => Qeq_bool (- Dashboard.sortValue (Dashboard.field sortConfig) t) (- v)))
        by (intros t; symmetry; apply Qeq_bool_opp).
      exact (sort_stable _ _ Hc (- v) l).
Qed.

(** X16. A click on a column header, [handleSort], makes that column the
    sorted one. The list on display is then ordered by it from the highest
    value to the lowest, unless the column was already sorted that way:
    then the click turns the order round. *)
Theorem header_click_sorts (toLowerCase : string -> string)
    (trends : list TrendItem) (searchQuery : string)
    (current : Dashboard.SortConfig) (clicked : Dashboard.SortField) :
  let next := Dashboard.handleSort clicked current in
  let shown := Dashboard.processedTrends toLowerCase trends searchQuery next in
  Dashboard.field next = clicked /\
  (current = {| Dashboard.field := clicked; Dashboard.direction := Dashboard.desc |} ->
   forall i j a b, i < j -> shown !! i = Some a -> shown !! j = Some b ->
     (Dashboard.sortValue clicked a <= Dashboard.sortValue clicked b)%Q) /\
  (current <> {| Dashboard.field := clicked; Dashboard.direction := Dashboard.desc |} ->
   forall i j a b, i < j -> shown !! i = Some a -> shown !! j = Some b ->
     (Dashboard.sortValue clicked b <= Dashboard.sortValue clicked a)%Q).
Proof.
  cbv zeta. split; [reflexivity|]. split.
  - intros -> i j a b Hij Ha Hb.
    pose proof (processedTrends_inOrder _ _ _ _ i j a b Hij Ha Hb) as H.
    unfold inOrder in H. destruct clicked; exact H.
  - intros Hne i j a b Hij Ha Hb.
    pose proof (processedTrends_inOrder _ _ _ _ i j a b Hij Ha Hb) as H.
    unfold inOrder in H. destruct current as [f d].
    destruct f, clicked, d; try exact H; congruence.
Qed.

Lemma header_click_sorts_witness :
  let next := Dashboard.handleSort Dashboard.byHeatRise
                {| Dashboard.field := Dashboard.byRank;
                   Dashboard.direction := Dashboard.asc |} in
  let shown := Dashboard.processedTrends Samples.toLowerCase Samples.twoTrends
                 EmptyString next in
  Dashboard.field next = Dashboard.byHeatRise /\
  forall i j a b, i < j -> shown !! i = Some a -> shown !! j = Some b ->
    (Dashboard.sortValue Dashboard.byHeatRise b
     <= Dashboard.sortValue Dashboard.byHeatRise a)%Q.
Proof.
  destruct (header_click_sorts Samples.toLowerCase Samples.twoTrends EmptyString
              {| Dashboard.field := Dashboard.byRank;
                 Dashboard.direction := Dashboard.asc |} Dashboard.byHeatRise)
    as (Hfield & _ & Hdesc).
  split; [exact Hfield|]. apply Hdesc. discriminate.
Defined.

Lemma includes_empty (s : string) : includes s EmptyString = true.
Proof. destruct s; reflexivity. Qed.

(** X17. With an empty search box every fetched trend is on display, for a
    [toLowerCase] that lowers the empty text to itself. *)
Theorem empty_search_shows_all (toLowerCase : string -> string)
    (trends : list TrendItem) (sortConfig : Dashboard.SortConfig) :
  toLowerCase EmptyString = EmptyString ->
  Permutation (Dashboard.processedTrends toLowerCase trends EmptyString sortConfig) trends.
Proof.
  intros Hlower. unfold Dashboard.processedTrends.
  rewrite (sort_Permutation (Dashboard.compareTrends sortConfig)).
  rewrite Hlower.
  induction trends as [|t l IH]; [reflexivity|].
  cbn [List.filter]. rewrite includes_empty. now constructor.
Qed.

Lemma empty_search_shows_all_witness :
  Permutation
    (Dashboard.processedTrends Samples.toLowerCase Samples.twoTrends EmptyString
       {| Dashboard.field := Dashboard.byHeatRise;
          Dashboard.direction := Dashboard.desc |})
    Samples.twoTrends.
Proof.
  apply (empty_search_shows_all Samples.toLowerCase Samples.twoTrends).
  reflexivity.
Defined.

(** ** The rise ranking *)

Lemma setRanks_other (items : list TrendItem) (index : nat) (rankMap : gmap string nat)
    (k : string) :
  ~ In k (List.map title items) ->
  TrendList.setRanks items index rankMap !! k = rankMap !! k.
Proof.
  revert index rankMap. induction items as [|x rest IH]; intros index rankMap Hk;
    [reflexivity|].
  cbn [TrendList.setRanks]. rewrite IH.
  - apply lookup_insert_ne. intros Heq. apply Hk. left. exact Heq.
  - intros H. apply Hk. now right.
Qed.

Lemma setRanks_lookup (items : list TrendItem) (index : nat) (rankMap : gmap string nat)
    (i : nat) (t : TrendItem) :
  List.NoDup (List.map title items) ->
  items !! i = Some t ->
  TrendList.setRanks items index rankMap !! title t = Some (index + i + 1).
Proof.
  revert index rankMap i. induction items as [|x rest IH]; intros index rankMap i Hnd Hi;
    [discriminate|].
  cbn [List.map] in Hnd. apply List.NoDup_cons_iff in Hnd as [Hx Hrest].
  cbn [TrendList.setRanks]. destruct i as [|i]; cbn in Hi.
  - injection Hi as <-. rewrite setRanks_other by exact Hx.
    rewrite lookup_insert_eq. f_equal. lia.
  - rewrite (IH (S index) _ i Hrest Hi). f_equal. lia.
Qed.

Lemma riseRankings_sorted (trends : list TrendItem) :
  exists sortedByRise,
    TrendList.riseRankings trends = TrendList.setRanks sortedByRise 0 ∅ /\
    Permutation sortedByRise trends /\
    forall i j a b, i < j -> sortedByRise !! i = Some a -> sortedByRise !! j = Some b ->
      (Dashboard.heatRiseOrZero b <= Dashboard.heatRiseOrZero a)%Z.
Proof.
  unfold TrendList.riseRankings.
  set (compare := fun a b : TrendItem =>
                    (inject_Z (Dashboard.heatRiseOrZero b)
                     - inject_Z (Dashboard.heatRiseOrZero a))%Q).
  assert (Hc : forall a b, (0 < compare a b)%Q <->
                 (- inject_Z (Dashboard.heatRiseOrZero b)
                  < - inject_Z (Dashboard.heatRiseOrZero a))%Q).
  { intros a b. unfold compare. split; intros; lra. }
  exists (Array_sort compare trends). split; [reflexivity|].
  split; [apply sort_Permutation|].
  intros i j a b Hij Ha Hb.
  pose proof (sorted_lookup _ _ (sort_sorted _ _ Hc trends) i j a b Hij Ha Hb) as H.
  cbv beta in H. rewrite Zle_Qle. lra.
Qed.

(** X18. The rise ranking of the trend list, when the titles of the
    fetched trends are pairwise different: every trend gets a rank between
    1 and the number of trends, no two trends get the same rank, and a
    trend with a higher heat rise gets a smaller rank, a missing heat rise
    counting as 0. A title that was not fetched has rank 0. *)
Theorem riseRank_spec (trends : list TrendItem) :
  List.NoDup (List.map title trends) ->
  (forall a, In a trends ->
     1 <= TrendList.riseRank trends a <= length trends) /\
  (forall a b, In a trends -> In b trends ->
     TrendList.riseRank trends a = TrendList.riseRank trends b -> a = b) /\
  (forall a b, In a trends -> In b trends ->
     (Dashboard.heatRiseOrZero b < Dashboard.heatRiseOrZero a)%Z ->
     TrendList.riseRank trends a < TrendList.riseRank trends b) /\
  (forall t, ~ In (title t) (List.map title trends) -> TrendList.riseRank trends t = 0).
Proof.
  intros Hnd.
  destruct (riseRankings_sorted trends) as (l & Hmap & Hperm & Hsorted).
  assert (Hnd' : List.NoDup (List.map title l)).
  { eapply Permutation_NoDup; [|exact Hnd]. symmetry. now apply Permutation_map. }
  assert (Hrank : forall a, In a trends ->
            exists i, l !! i = Some a /\ TrendList.riseRank trends a = i + 1).
  { intros a Ha.
    assert (Hin : a ∈ l).
    { apply list_elem_of_In. eapply Permutation_in; [symmetry; exact Hperm | exact Ha]. }
    apply list_elem_of_lookup_1 in Hin as [i Hi]. exists i. split; [exact Hi|].
    unfold TrendList.riseRank. rewrite Hmap, (setRanks_lookup l 0 ∅ i a Hnd' Hi).
    reflexivity. }
  split; [|split; [|split]].
  - intros a Ha. destruct (Hrank a Ha) as (i & Hi & ->).
    apply lookup_lt_Some in Hi. rewrite <- (Permutation_length Hperm). lia.
  - intros a b Ha Hb Heq.
    destruct (Hrank a Ha) as (i & Hi & Hra), (Hrank b Hb) as (j & Hj & Hrb).
    assert (i = j) by lia. subst j. congruence.
  - intros a b Ha Hb Hlt.
    destruct (Hrank a Ha) as (i & Hi & ->), (Hrank b Hb) as (j & Hj & ->).
    destruct (Nat.lt_trichotomy i j) as [Hij|[Hij|Hij]]; [lia| |].
    + subst j. assert (a = b) by congruence. subst b. lia.
    + pose proof (Hsorted j i b a Hij Hj Hi). lia.
  - intros t Ht. unfold TrendList.riseRank. rewrite Hmap, setRanks_other; [reflexivity|].
    intros H. apply Ht. eapply Permutation_in; [|exact H]. now apply Permutation_map.
Qed.

Lemma riseRank_spec_witness :
  (forall a, In a Samples.twoTrends ->
     1 <= TrendList.riseRank Samples.twoTrends a <= length Samples.twoTrends) /\
  (forall a b, In a Samples.twoTrends -> In b Samples.twoTrends ->
     TrendList.riseRank Samples.twoTrends a = TrendList.riseRank Samples.twoTrends b ->
     a = b) /\
  (forall a b, In a Samples.twoTrends -> In b Samples.twoTrends ->
     (Dashboard.heatRiseOrZero b < Dashboard.heatRiseOrZero a)%Z ->
     TrendList.riseRank Samples.twoTrends a < TrendList.riseRank Samples.twoTrends b) /\
  (forall t, ~ In (title t) (List.map title Samples.twoTrends) ->
     TrendList.riseRank Samples.twoTrends t = 0).
Proof.
  apply (riseRank_spec Samples.twoTrends).
  repeat constructor; simpl; intuition discriminate.
Defined.

(** ** The refresh flag and the global analysis *)

Lemma step_keeps_fetch (rt : App.Runtime) (e : App.Event) :
  App.refreshing (App.state rt) && (App.inFlight rt =? 0) = false ->
  App.refreshing (App.state (App.step rt e)) && (App.inFlight (App.step rt e) =? 0) = false.
Proof.
  intros H. destruct e as [| | |fetched]; cbn [App.step].
  - reflexivity.
  - reflexivity.
  - destruct (App.refreshing (App.state rt)) eqn:Hr; [now rewrite Hr|].
    reflexivity.
  - destruct (App.inFlight rt) as [|n] eqn:Hn; [now rewrite Hn|].
    cbn. reflexivity.
Qed.

(** X19. Whatever happens to the dashboard, mounting, ticks of the timer,
    clicks on the refresh button and fetches that settle in any order,
    [refreshing] is only set while a call of [loadTrends] is waiting for
    its fetch: the refresh button is never left disabled with nothing in
    flight. *)
Theorem refreshing_has_fetch_in_flight (events : list App.Event) :
  let rt := App.run events App.mounted in
  App.refreshing (App.state rt) && (App.inFlight rt =? 0) = false.
Proof.
  cbv zeta. unfold App.run.
  assert (H : App.refreshing (App.state App.mounted) && (App.inFlight App.mounted =? 0) = false)
    by reflexivity.
  revert H. generalize App.mounted.
  induction events as [|e events IH]; intros rt H; [exact H|].
  cbn [fold_left]. apply IH, step_keeps_fetch, H.
Qed.

Lemma handleRunGlobalAnalysis_end (J : Json) (secondRejectsFirst : bool)
    (s : App.State) (w : World) :
  App.trends s <> [] ->
  exists s',
    App.handleRunGlobalAnalysis J secondRejectsFirst s w
    = (Ok s', snd (identifyBigEvents J (App.trends s)
                     (snd (analyzeGlobalTrends J (App.trends s) w)))) /\
    App.analyzingGlobal s' = false /\
    App.showKeyUpdatePrompt s' = false /\
    App.trends s' = App.trends s.
Proof.
  intros Hne. unfold App.handleRunGlobalAnalysis.
  destruct (App.trends s) as [|t ts] eqn:Ht; [congruence|].
  cbv zeta.
  set (s0 := App.setShowKeyUpdatePrompt false
               (App.setBigEvents []
                  (App.setGlobalAnalysis None (App.setAnalyzingGlobal true s)))).
  change (App.trends s0) with (App.trends s). rewrite Ht.
  unfold tryCatch, bind. rewrite Promise_all2_eq.
  destruct (fst (analyzeGlobalTrends J (t :: ts) w)) as [a1|e1],
    (fst (identifyBigEvents J (t :: ts) (snd (analyzeGlobalTrends J (t :: ts) w))))
      as [a2|e2];
    eexists; (split; [reflexivity|]); cbn; repeat split; exact Ht.
Qed.

(** X20. [handleRunGlobalAnalysis] does nothing when no trend is on
    display. Otherwise it always comes to an end with [analyzingGlobal]
    cleared, the notice of the key update hidden and the trends as they
    were; both requests of the join are sent whenever a non-empty key is
    stored, the second also when the first fails, and none is sent without
    a key. It never writes to [localStorage]. *)
Theorem global_analysis_requests (J : Json) (secondRejectsFirst : bool)
    (s : App.State) (w : World) :
  match App.trends s with
  | [] => App.handleRunGlobalAnalysis J secondRejectsFirst s w = (Ok s, w)
  | _ :: _ =>
      let w' := snd (App.handleRunGlobalAnalysis J secondRejectsFirst s w) in
      (exists s',
         fst (App.handleRunGlobalAnalysis J secondRejectsFirst s w) = Ok s' /\
         App.analyzingGlobal s' = false /\
         App.showKeyUpdatePrompt s' = false /\
         App.trends s' = App.trends s) /\
      chatRequests w'
      = (if keyStored w then S (S (chatRequests w)) else chatRequests w) /\
      localStorage w' = localStorage w
  end.
Proof.
  destruct (App.trends s) as [|t ts] eqn:Ht.
  - unfold App.handleRunGlobalAnalysis. now rewrite Ht.
  - cbv zeta.
    destruct (handleRunGlobalAnalysis_end J secondRejectsFirst s w)
      as (s' & Hrun & H1 & H2 & H3); [congruence|].
    rewrite Hrun. cbn [fst snd].
    split; [exists s'; rewrite <- Ht; auto|].
    destruct (analysis_world J EmptyString (App.trends s) w) as (_ & Hw1 & _).
    destruct (analysis_world J EmptyString (App.trends s)
                (snd (analyzeGlobalTrends J (App.trends s) w))) as (_ & _ & Hw2).
    rewrite Hw2, Hw1.
    destruct (callDeepSeek_count w) as (C1 & C2 & _).
    destruct (callDeepSeek_count (snd (callDeepSeek w))) as (D1 & D2 & _).
    cbv zeta in *. rewrite D1, D2, C1, C2.
    assert (Hk : keyStored (snd (callDeepSeek w)) = keyStored w)
      by (unfold keyStored; now rewrite C2).
    rewrite Hk. split; [|reflexivity]. now destruct (keyStored w).
Qed.
